(** * affinity_tool: the compatibility solver

    A shallow embedding of [CompatibilityOptimizer] (the solver logic of the
    repository) and the properties its specification states about it.

    Numbers.  JavaScript numbers are modelled as exact rationals [Q]: rounding
    is not modelled, and there is no [NaN].  Equality of computed numbers is
    [Qeq] ([==]), equality of matrices that the code copies or leaves alone is
    Leibniz equality.  Where a statement depends on rounding, the module
    [Binary64] runs the same lines over binary64 numbers.  Cells of a matrix
    are numbers: a read of a cell that does not exist is written out where
    the code tolerates it ([getComb]); in [optimize] a missing row is a
    [TypeError], and a missing cell of an existing row, which JavaScript reads
    as [undefined] and overwrites with [NaN], is where the model of a run
    stops ([None]).

    Objects.  Matrices are deep-copied by the code at every hand-over
    ([JSON.parse(JSON.stringify(..))]), so they are values here.  Evaluation
    results are not copied: [currentEval], [bestEval] and the argument of
    [onProgress] are references into a store of evaluation objects.  The
    module [Host] adds what else a callback can reach of what a run reads. *)

From Stdlib Require Import QArith Qround Qminmax Qabs ZArith String Bool List Lia Lqa.
From Stdlib Require Import Permutation Floats.
Import ListNotations.
Open Scope Q_scope.

(** ** Numbers and indexing *)

Definition Qltb (x y : Q) : bool := negb (Qle_bool y x).

Infix "<?" := Qltb (at level 70, no associativity) : Q_scope.
Infix "<=?" := Qle_bool (at level 70, no associativity) : Q_scope.

(** [x || 0] on a number: a falsy number (zero) gives the literal [0]. *)
Definition orZero (x : Q) : Q := if Qeq_bool x 0 then 0 else x.

(** [l[i]] for a numeric index: [None] is JavaScript's [undefined]. *)
Definition nthZ {A : Type} (i : Z) (l : list A) : option A :=
  if (i <? 0)%Z then None else nth_error l (Z.to_nat i).

Fixpoint updateNth {A : Type} (n : nat) (g : A -> A) (l : list A) : list A :=
  match l, n with
  | [], _ => []
  | x :: t, O => g x :: t
  | x :: t, S k => x :: updateNth k g t
  end.

Definition Matrix : Type := list (list Q).

(** [M[r][c]] where both the row and the cell must exist. *)
Definition cellAt (M : Matrix) (r c : Z) : option Q :=
  match nthZ r M with
  | Some row => nthZ c row
  | None => None
  end.

(** [M[r][c] = v] on an existing cell.  (On a missing cell of an existing row
    JavaScript would extend the row; [optimize] reads the cell before it writes
    it, and the model has stopped there.) *)
Definition setCell (M : Matrix) (r c : Z) (v : Q) : Matrix :=
  if ((r <? 0) || (c <? 0))%Z then M
  else updateNth (Z.to_nat r) (updateNth (Z.to_nat c) (fun _ => v)) M.

(** [JSON.parse(JSON.stringify(M))]: a fresh matrix with the same numbers. *)
Definition jsonCopy (M : Matrix) : Matrix := map (map (fun x : Q => x)) M.

(** An identity argument of the score: [null], [undefined] or an index. *)
Inductive Ident : Type :=
| Null
| Undefined
| Idx (i : Z).

Definition isAbsent (x : Ident) : bool :=
  match x with
  | Null | Undefined => true
  | Idx _ => false
  end.

(** ** Observations, ranges, evaluation results *)

Module Obs.
Record t : Type := mk {
  childId : Ident;
  f : Ident;
  ff : Ident;
  fm : Ident;
  m : Ident;
  mf : Ident;
  mm : Ident;
  s3 : Q;
  s2 : Q;
  noble : option Q;
  correctSymbol : string
}.
End Obs.

Module Range.
Record t : Type := mk { min : Q; max : Q }.
End Range.

Record EvalResult : Type := mkEval {
  penalty : Q;
  contradictions : nat
}.

(** The six tier symbols, byte for byte as the source file has them. *)
Definition CROWN : string := "ðŸ‘‘".
Definition STAR : string := "â˜†".
Definition DOUBLE_CIRCLE : string := "â—Ž".
Definition CIRCLE : string := "â—‹".
Definition TRIANGLE : string := "â–³".
Definition CROSS : string := "Ã—".

Definition symbolRanges : list (string * Range.t) :=
  [ (CROWN, Range.mk 660 9999);
    (STAR, Range.mk 614 659);
    (DOUBLE_CIRCLE, Range.mk 490 613);
    (CIRCLE, Range.mk 374 489);
    (TRIANGLE, Range.mk 255 373);
    (CROSS, Range.mk 0 254) ].

(** [table[key]] on an object literal used as a map.  A key the literal does
    not have gives [undefined], here [None].  (A key it only inherits, such as
    [constructor], gives an object without [min] and [max]; the two
    comparisons of [evaluateError] against them are false, so that the
    observation adds nothing, as for [None].) *)
Fixpoint lookup {A : Type} (key : string) (table : list (string * A)) : option A :=
  match table with
  | [] => None
  | (k, v) :: rest => if String.eqb key k then Some v else lookup key rest
  end.

(** ** getComb, calculateScore, getSymbol *)

Definition getComb (youngerIdx olderIdx : Ident) (currentMatrix : Matrix) : Q :=
  match youngerIdx, olderIdx with
  | Null, _ => 0
  | _, Null => 0
  | _, _ =>
      let row :=
        match youngerIdx with
        | Idx y => nthZ y currentMatrix
        | _ => None
        end in
      match row with
      | None => 0
      | Some row =>
          match olderIdx with
          | Idx o =>
              match nthZ o row with
              | Some v => orZero v
              | None => 0
              end
          | _ => 0
          end
      end
  end.

Definition calculateScore (childId f ff fm m mf mm : Ident) (s3 s2 : Q)
    (noble : option Q) (matchMatrix : Matrix) : Q :=
  if existsb isAbsent [childId; f; ff; fm; m; mf; mm] then 0
  else
    let term1 := getComb childId f matchMatrix in
    let term2 := Qmin (getComb f ff matchMatrix) (getComb childId ff matchMatrix) in
    let term3 := Qmin (getComb f fm matchMatrix) (getComb childId fm matchMatrix) in
    let term4 := getComb childId m matchMatrix in
    let term5 := Qmin (getComb m mf matchMatrix) (getComb childId mf matchMatrix) in
    let term6 := Qmin (getComb m mm matchMatrix) (getComb childId mm matchMatrix) in
    let term7 := getComb f m matchMatrix in
    let base := 224 in
    let bonus := (s2 * 5) + (s3 * 12.5) in
    let nobleBonus := match noble with Some n => orZero n | None => 0 end in
    term1 + term2 + term3 + term4 + term5 + term6 + term7 + base + bonus + nobleBonus.

Definition getSymbol (score : Q) : string :=
  if 660 <=? score then CROWN
  else if 614 <=? score then STAR
  else if 490 <=? score then DOUBLE_CIRCLE
  else if 374 <=? score then CIRCLE
  else if 255 <=? score then TRIANGLE
  else CROSS.

(** ** evaluateError *)

Definition CROWN_MIN : Q := 660.

Definition scoreOf (currentMatrix : Matrix) (obs : Obs.t) : Q :=
  calculateScore (Obs.childId obs) (Obs.f obs) (Obs.ff obs) (Obs.fm obs)
    (Obs.m obs) (Obs.mf obs) (Obs.mm obs) (Obs.s3 obs) (Obs.s2 obs)
    (Obs.noble obs) currentMatrix.

(** One turn of the [for (let obs of observations)] loop on the two
    accumulators [(totalPenalty, contradictionCount)]. *)
Definition evaluateStep (currentMatrix : Matrix) (acc : Q * nat) (obs : Obs.t)
    : Q * nat :=
  let '(totalPenalty, contradictionCount) := acc in
  let score := scoreOf currentMatrix obs in
  if String.eqb (Obs.correctSymbol obs) CROWN then
    if score <? CROWN_MIN
    then (totalPenalty + (CROWN_MIN - score) ^ 2, S contradictionCount)
    else acc
  else
    match lookup (Obs.correctSymbol obs) symbolRanges with
    | None => acc
    | Some targetRange =>
        if score <? Range.min targetRange
        then (totalPenalty + (Range.min targetRange - score) ^ 2,
              S contradictionCount)
        else if Range.max targetRange <? score
        then (totalPenalty + (score - Range.max targetRange) ^ 2,
              S contradictionCount)
        else acc
    end.

Definition evaluateError (currentMatrix : Matrix) (observations : list Obs.t)
    : EvalResult :=
  let '(totalPenalty, contradictionCount) :=
    fold_left (evaluateStep currentMatrix) observations (0, 0%nat) in
  mkEval totalPenalty contradictionCount.

(** ** The optimizer object and the store of evaluation objects *)

Record CompatibilityOptimizer : Type := mkOptimizer {
  originalMatrix : Matrix;
  matrix : Matrix
}.

Definition constructor (initialMatrix : Matrix) : CompatibilityOptimizer :=
  {| originalMatrix := jsonCopy initialMatrix;
     matrix := jsonCopy initialMatrix |}.

(** Evaluation objects live in a store; a variable holds a reference.  Two
    variables that hold the same reference see each other's updates. *)
Definition Ref : Type := nat.
Definition Store : Type := list EvalResult.

Definition alloc (h : Store) (e : EvalResult) : Ref * Store :=
  (length h, h ++ [e]).

Definition deref (h : Store) (r : Ref) : EvalResult := nth r h (mkEval 0 0).

Definition assign (h : Store) (r : Ref) (e : EvalResult) : Store :=
  updateNth r (fun _ => e) h.

(** [onProgress(i, iterations, currentEval)]: the callback is handed the
    object [currentEval] refers to; what it returns is not looked at.  A
    callback is modelled by what that object holds once it has returned. *)
Definition Callback : Type := nat -> nat -> EvalResult -> EvalResult.

(** A callback that leaves the object it is handed as it found it. *)
Definition readOnly (onProgress : option Callback) : Prop :=
  match onProgress with
  | None => True
  | Some cb => forall i n e, cb i n e = e
  end.

Module Result.
Record t : Type := mk { matrix : Matrix; eval : EvalResult }.
End Result.

(** The variables of one run of [optimize]; [draws] counts the calls of
    [Math.random()] made so far. *)
Record Search : Type := mkSearch {
  currentMatrix : Matrix;
  currentEval : Ref;
  bestMatrix : Matrix;
  bestEval : Ref;
  store : Store;
  draws : nat
}.

(** Code that draws random numbers and may stop with a [TypeError]. *)
Definition Draw (A : Type) : Type := nat -> option (A * nat).

Definition ret {A : Type} (a : A) : Draw A := fun k => Some (a, k).

Definition bind {A B : Type} (d : Draw A) (g : A -> Draw B) : Draw B :=
  fun k => match d k with
           | Some (a, k') => g a k'
           | None => None
           end.

Definition throw {A : Type} : Draw A := fun _ => None.

Notation "x <- d ;; e" := (bind d (fun x => e))
  (at level 61, d at next level, right associativity).

Definition MOTION_LIMIT : Q := 20.

Definition minLimitOf (baseValue : Q) : Q :=
  let minLimit := baseValue - MOTION_LIMIT in
  if minLimit <? 0 then 0 else minLimit.

Definition maxLimitOf (baseValue : Q) : Q := baseValue + MOTION_LIMIT.

(** Lines 186-218 of [optimize]: the value to write into the chosen cell, or
    [None] where the loop body is left by [continue]. *)
Definition proposeValue (current baseValue change : Q) : option Q :=
  let newValue := current + change in
  let newValue := if newValue <? 0 then 0 else newValue in
  let minLimit := minLimitOf baseValue in
  let maxLimit := maxLimitOf baseValue in
  if (newValue <? minLimit) || (maxLimit <? newValue) then
    if (newValue <? minLimit) && (newValue <? current) then None
    else if (maxLimit <? newValue) && (current <? newValue) then None
    else
      let newValue := if newValue <? minLimit then minLimit else newValue in
      let newValue := if maxLimit <? newValue then maxLimit else newValue in
      Some newValue
  else Some newValue.

Section Optimize.

Variable this : CompatibilityOptimizer.
Variable observations : list Obs.t.
Variable iterations : nat.
Variable stepSize : Q.
Variable priorityBloodlines : list Z.
Variable onProgress : option Callback.

(** [random k] is what the [k]-th call of [Math.random()] returns. *)
Variable random : nat -> Q.

Variables numRows numCols : nat.

Definition mathRandom : Draw Q := fun k => Some (random k, S k).

(** [Math.floor(Math.random() * n)] *)
Definition randomBelow (n : nat) : Draw Z :=
  u <- mathRandom ;; ret (Qfloor (u * inject_Z (Z.of_nat n))).

(** Lines 158-181: the cell of iteration [i].  A priority index that is
    [undefined] leads to a read of [undefined[c]] or to a cell that is not a
    number: the run stops there. *)
Definition selectCell (i : nat) : Draw (Z * Z) :=
  let isPhase1 :=
    inject_Z (Z.of_nat i) <? inject_Z (Z.of_nat iterations) * 0.5 in
  let usePriority := isPhase1 && (0 <? length priorityBloodlines)%nat in
  chosen <- (if usePriority then u <- mathRandom ;; ret (u <? 0.8)
             else ret false) ;;
  if (chosen : bool) then
    j <- randomBelow (length priorityBloodlines) ;;
    match nthZ j priorityBloodlines with
    | None => throw
    | Some pIdx =>
        u <- mathRandom ;;
        if u <? 0.5 then
          c <- randomBelow numCols ;; ret (pIdx, c)
        else
          r <- randomBelow numRows ;; ret (r, pIdx)
    end
  else
    r <- randomBelow numRows ;;
    c <- randomBelow numCols ;;
    ret (r, c).

(** Lines 158-218: the cell, the value it holds and the value to write into
    it, [(r, c, originalValue, newValue)]; [None] inside where the body is left
    by [continue]. *)
Definition proposal (i : nat) (currentMatrix : Matrix)
    : Draw (option (Z * Z * Q * Q)) :=
  rc <- selectCell i ;;
  let '(r, c) := rc in
  match cellAt currentMatrix r c, cellAt (originalMatrix this) r c with
  | Some originalValue, Some baseValue =>
      u <- mathRandom ;;
      let change := (if u <? 0.5 then -1 else 1) * stepSize in
      match proposeValue originalValue baseValue change with
      | Some newValue => ret (Some (r, c, originalValue, newValue))
      | None => ret None
      end
  | _, _ => throw
  end.

(** Lines 220-234: write the value, evaluate, keep the written value or put
    the old one back. *)
Definition acceptOrRevert (s : Search) (r c : Z) (originalValue newValue : Q)
    (k : nat) : Search :=
  let trial := setCell (currentMatrix s) r c newValue in
  let '(newEval, h) := alloc (store s) (evaluateError trial observations) in
  if penalty (deref h newEval) <=? penalty (deref h (currentEval s)) then
    if penalty (deref h newEval) <? penalty (deref h (bestEval s)) then
      {| currentMatrix := trial; currentEval := newEval;
         bestMatrix := jsonCopy trial; bestEval := newEval;
         store := h; draws := k |}
    else
      {| currentMatrix := trial; currentEval := newEval;
         bestMatrix := bestMatrix s; bestEval := bestEval s;
         store := h; draws := k |}
  else
    {| currentMatrix := setCell trial r c originalValue;
       currentEval := currentEval s;
       bestMatrix := bestMatrix s; bestEval := bestEval s;
       store := h; draws := k |}.

(** Lines 237-240.  The [await] hands control to the host and takes it back;
    the run is the only owner of its variables. *)
Definition notify (i : nat) (s : Search) : Search :=
  match onProgress with
  | Some cb =>
      if (i mod 50 =? 0)%nat then
        {| currentMatrix := currentMatrix s; currentEval := currentEval s;
           bestMatrix := bestMatrix s; bestEval := bestEval s;
           store := assign (store s) (currentEval s)
                      (cb i iterations (deref (store s) (currentEval s)));
           draws := draws s |}
      else s
  | None => s
  end.

(** The body of the [for] loop at index [i]. *)
Definition iteration (i : nat) (s : Search) : option Search :=
  match proposal i (currentMatrix s) (draws s) with
  | None => None
  | Some (None, k) =>
      Some {| currentMatrix := currentMatrix s; currentEval := currentEval s;
              bestMatrix := bestMatrix s; bestEval := bestEval s;
              store := store s; draws := k |}
  | Some (Some (r, c, originalValue, newValue), k) =>
      Some (notify i (acceptOrRevert s r c originalValue newValue k))
  end.

(** [n] turns of the loop from index [i]. *)
Fixpoint loop (n i : nat) (s : Search) : option Search :=
  match n with
  | O => Some s
  | S n' =>
      match iteration i s with
      | Some s' => loop n' (S i) s'
      | None => None
      end
  end.

End Optimize.

(** Lines 141-145: the variables before the loop. *)
Definition initialSearch (this : CompatibilityOptimizer)
    (observations : list Obs.t) : Search :=
  let currentMatrix := jsonCopy (matrix this) in
  let '(currentEval, h) := alloc [] (evaluateError currentMatrix observations) in
  {| currentMatrix := currentMatrix; currentEval := currentEval;
     bestMatrix := jsonCopy currentMatrix; bestEval := currentEval;
     store := h; draws := 0 |}.

(** The variables after the first [k] turns of the loop of a run that is to
    make [iterations] turns; [None] where [currentMatrix[0].length] or a turn
    has stopped the run. *)
Definition searchAfter (this : CompatibilityOptimizer)
    (observations : list Obs.t) (iterations : nat) (stepSize : Q)
    (priorityBloodlines : list Z) (onProgress : option Callback)
    (random : nat -> Q) (k : nat) : option Search :=
  let s := initialSearch this observations in
  match nth_error (currentMatrix s) 0 with
  | None => None
  | Some row0 =>
      loop this observations iterations stepSize priorityBloodlines onProgress
        random (length (currentMatrix s)) (length row0) k 0 s
  end.

(** [optimize]: the optimizer object after the call and the value returned;
    [None] where the call ends with a [TypeError] or meets a cell that is not
    a number. *)
Definition optimize (this : CompatibilityOptimizer)
    (observations : list Obs.t) (iterations : nat) (stepSize : Q)
    (priorityBloodlines : list Z) (onProgress : option Callback)
    (random : nat -> Q) : option (CompatibilityOptimizer * Result.t) :=
  match searchAfter this observations iterations stepSize priorityBloodlines
          onProgress random iterations with
  | None => None
  | Some s =>
      Some ({| originalMatrix := originalMatrix this;
               matrix := bestMatrix s |},
            Result.mk (bestMatrix s) (deref (store s) (bestEval s)))
  end.

(** ** The superseded variant, [src/js/solver_logic.js]

    It has no special case for the top tier and keeps a move only on a strict
    improvement. *)
Module Legacy.

Definition evaluateStep (currentMatrix : Matrix) (acc : Q * nat) (obs : Obs.t)
    : Q * nat :=
  let '(totalPenalty, contradictionCount) := acc in
  let score := scoreOf currentMatrix obs in
  match lookup (Obs.correctSymbol obs) symbolRanges with
  | None => acc
  | Some targetRange =>
      if score <? Range.min targetRange
      then (totalPenalty + (Range.min targetRange - score) ^ 2,
            S contradictionCount)
      else if Range.max targetRange <? score
      then (totalPenalty + (score - Range.max targetRange) ^ 2,
            S contradictionCount)
      else acc
  end.

Definition evaluateError (currentMatrix : Matrix) (observations : list Obs.t)
    : EvalResult :=
  let '(totalPenalty, contradictionCount) :=
    fold_left (evaluateStep currentMatrix) observations (0, 0%nat) in
  mkEval totalPenalty contradictionCount.

(** Lines 148-156: the test that keeps a move. *)
Definition keeps (newEval currentEval : EvalResult) : bool :=
  penalty newEval <? penalty currentEval.

(** Lines 138-144: the cell and the value written into it,
    [(r, c, originalValue, newValue)].  There is no priority list and no
    motion limit. *)
Definition proposal (stepSize : Q) (random : nat -> Q) (numRows numCols : nat)
    (currentMatrix : Matrix) : Draw (Z * Z * Q * Q) :=
  r <- randomBelow random numRows ;;
  c <- randomBelow random numCols ;;
  match cellAt currentMatrix r c with
  | Some originalValue =>
      u <- mathRandom random ;;
      let change := (if u <? 0.5 then -1 else 1) * stepSize in
      let newValue := originalValue + change in
      ret (r, c, originalValue, if newValue <? 0 then 0 else newValue)
  | None => throw
  end.

(** Lines 146-156. *)
Definition acceptOrRevert (observations : list Obs.t) (s : Search) (r c : Z)
    (originalValue newValue : Q) (k : nat) : Search :=
  let trial := setCell (currentMatrix s) r c newValue in
  let '(newEval, h) := alloc (store s) (evaluateError trial observations) in
  if penalty (deref h newEval) <? penalty (deref h (currentEval s)) then
    if penalty (deref h newEval) <? penalty (deref h (bestEval s)) then
      {| currentMatrix := trial; currentEval := newEval;
         bestMatrix := jsonCopy trial; bestEval := newEval;
         store := h; draws := k |}
    else
      {| currentMatrix := trial; currentEval := newEval;
         bestMatrix := bestMatrix s; bestEval := bestEval s;
         store := h; draws := k |}
  else
    {| currentMatrix := setCell trial r c originalValue;
       currentEval := currentEval s;
       bestMatrix := bestMatrix s; bestEval := bestEval s;
       store := h; draws := k |}.

(** The body of the [for] loop at index [i] (lines 138-162). *)
Definition iteration (observations : list Obs.t) (iterations : nat)
    (stepSize : Q) (onProgress : option Callback) (random : nat -> Q)
    (numRows numCols : nat) (i : nat) (s : Search) : option Search :=
  match proposal stepSize random numRows numCols (currentMatrix s) (draws s) with
  | None => None
  | Some ((r, c, originalValue, newValue), k) =>
      Some (notify iterations onProgress i
              (acceptOrRevert observations s r c originalValue newValue k))
  end.

Fixpoint loop (observations : list Obs.t) (iterations : nat) (stepSize : Q)
    (onProgress : option Callback) (random : nat -> Q) (numRows numCols : nat)
    (n i : nat) (s : Search) : option Search :=
  match n with
  | O => Some s
  | S n' =>
      match iteration observations iterations stepSize onProgress random
              numRows numCols i s with
      | Some s' =>
          loop observations iterations stepSize onProgress random
            numRows numCols n' (S i) s'
      | None => None
      end
  end.

(** Lines 128-132. *)
Definition initialSearch (this : CompatibilityOptimizer)
    (observations : list Obs.t) : Search :=
  let currentMatrix := jsonCopy (matrix this) in
  let '(currentEval, h) := alloc [] (evaluateError currentMatrix observations) in
  {| currentMatrix := currentMatrix; currentEval := currentEval;
     bestMatrix := jsonCopy currentMatrix; bestEval := currentEval;
     store := h; draws := 0 |}.

(** The variables after the first [k] turns of the loop. *)
Definition searchAfter (this : CompatibilityOptimizer)
    (observations : list Obs.t) (iterations : nat) (stepSize : Q)
    (onProgress : option Callback) (random : nat -> Q) (k : nat)
    : option Search :=
  let s := initialSearch this observations in
  match nth_error (currentMatrix s) 0 with
  | None => None
  | Some row0 =>
      loop observations iterations stepSize onProgress random
        (length (currentMatrix s)) (length row0) k 0 s
  end.

(** [optimize] of the superseded variant (lines 127-167). *)
Definition optimize (this : CompatibilityOptimizer)
    (observations : list Obs.t) (iterations : nat) (stepSize : Q)
    (onProgress : option Callback) (random : nat -> Q)
    : option (CompatibilityOptimizer * Result.t) :=
  match searchAfter this observations iterations stepSize onProgress random
          iterations with
  | None => None
  | Some s =>
      Some ({| originalMatrix := originalMatrix this;
               matrix := bestMatrix s |},
            Result.mk (bestMatrix s) (deref (store s) (bestEval s)))
  end.

End Legacy.

(** ** Vocabulary of the specification *)

(** [comb(a, b)] reads [matrix[a][b]] and is 0 when either index is absent or
    the row or the cell does not exist. *)
Definition spec_comb (matrix : Matrix) (a b : Ident) : Q :=
  match a, b with
  | Idx i, Idx j =>
      match cellAt matrix i j with
      | Some v => v
      | None => 0
      end
  | _, _ => 0
  end.

Definition spec_score (matrix : Matrix) (child f ff fm m mf mm : Ident)
    (s3 s2 : Q) (noble : option Q) : Q :=
  let comb := spec_comb matrix in
  comb child f + Qmin (comb f ff) (comb child ff)
  + Qmin (comb f fm) (comb child fm) + comb child m
  + Qmin (comb m mf) (comb child mf) + Qmin (comb m mm) (comb child mm)
  + comb f m + 224 + s2 * 5 + s3 * 12.5
  + match noble with Some n => n | None => 0 end.

Definition absent (x : Ident) : Prop := x = Null \/ x = Undefined.

Definition knownSymbols : list string :=
  [CROWN; STAR; DOUBLE_CIRCLE; CIRCLE; TRIANGLE; CROSS].

(** The evaluation objects the two variables refer to. *)
Definition currentEvalOf (s : Search) : EvalResult :=
  deref (store s) (currentEval s).

Definition bestEvalOf (s : Search) : EvalResult :=
  deref (store s) (bestEval s).

(** Both references point into the store. *)
Definition validRefs (s : Search) : Prop :=
  (currentEval s < length (store s))%nat /\
  (bestEval s < length (store s))%nat.

(** Every entry of the matrix is at least 0. *)
Definition nonNegative (M : Matrix) : bool :=
  forallb (forallb (fun x => 0 <=? x)) M.

(** The motion window of a cell whose original value is [baseValue]. *)
Definition inWindow (baseValue x : Q) : Prop :=
  minLimitOf baseValue <= x /\ x <= maxLimitOf baseValue.

(** The point of the window nearest to [x]. *)
Definition nearest (baseValue x : Q) : Q :=
  if x <? minLimitOf baseValue then minLimitOf baseValue
  else if maxLimitOf baseValue <? x then maxLimitOf baseValue
  else x.

(** The perturbed value before the motion limit: [current + change], not
    below 0. *)
Definition perturbed (current change : Q) : Q :=
  if current + change <? 0 then 0 else current + change.

(** A matrix of [rows] rows of [cols] cells each. *)
Definition rectangular (rows cols : nat) (M : Matrix) : Prop :=
  length M = rows /\ Forall (fun row => length row = cols) M.

(** What a caller owes [optimize]: a non-empty rectangular matrix of the
    shape of the original one, priority indices that are rows and columns of
    it, and random numbers in [0, 1). *)
Definition wellFormedRun (this : CompatibilityOptimizer)
    (priorityBloodlines : list Z) (random : nat -> Q) : Prop :=
  exists rows cols,
    (0 < rows)%nat /\ (0 < cols)%nat /\
    rectangular rows cols (matrix this) /\
    rectangular rows cols (originalMatrix this) /\
    Forall (fun p => (0 <= p < Z.of_nat rows)%Z /\ (p < Z.of_nat cols)%Z)
      priorityBloodlines /\
    (forall k, 0 <= random k /\ random k < 1).

(** ** SolverData

    The item of [localStorage] under the key ['solver_observations'] is a
    text.  [saveToStorage] writes the text [JSON.stringify] gives for the
    list of observations, here [Json l]; [EmptyText] and [Malformed] stand
    for the other texts the item may hold, and [None] for the [null] that
    [getItem] gives for a missing key.  Reading the item back
    ([loadFromStorage], lines 36-50, run by the constructor) is not part of
    this development. *)
Module SolverData.

Inductive Item : Type :=
| Json (l : list Obs.t)
| EmptyText
| Malformed.

Definition Storage : Type := option Item.

Record t : Type := mk { observations : list Obs.t }.

(** Lines 32-34. *)
Definition saveToStorage (this : t) : Storage := Some (Json (observations this)).

(** [a === b] on two identity fields. *)
Definition identEq (a b : Ident) : bool :=
  match a, b with
  | Null, Null => true
  | Undefined, Undefined => true
  | Idx i, Idx j => (i =? j)%Z
  | _, _ => false
  end.

(** The test of [findIndex] in [addObservation] (lines 8-13). *)
Definition sameKey (data o : Obs.t) : bool :=
  identEq (Obs.childId o) (Obs.childId data) &&
  identEq (Obs.f o) (Obs.f data) && identEq (Obs.ff o) (Obs.ff data) &&
  identEq (Obs.fm o) (Obs.fm data) &&
  identEq (Obs.m o) (Obs.m data) && identEq (Obs.mf o) (Obs.mf data) &&
  identEq (Obs.mm o) (Obs.mm data) &&
  Qeq_bool (Obs.s3 o) (Obs.s3 data) && Qeq_bool (Obs.s2 o) (Obs.s2 data).

(** [Array.prototype.findIndex]: the first index that passes, or -1. *)
Fixpoint findIndex {A : Type} (p : A -> bool) (l : list A) : Z :=
  match l with
  | [] => -1
  | x :: rest =>
      if p x then 0
      else let i := findIndex p rest in
           if (i =? -1)%Z then -1 else (i + 1)%Z
  end.

(** Lines 7-21: the object and the storage after the call. *)
Definition addObservation (data : Obs.t) (this : t) : t * Storage :=
  let index := findIndex (sameKey data) (observations this) in
  let this' :=
    if negb (index =? -1)%Z
    then mk (updateNth (Z.to_nat index) (fun _ => data) (observations this))
    else mk (observations this ++ [data]) in
  (this', saveToStorage this').

Definition getObservations (this : t) : list Obs.t := observations this.

(** Lines 27-30. *)
Definition clear (this : t) : t * Storage :=
  let this' := mk [] in (this', saveToStorage this').

End SolverData.

(** ** Vocabulary of the further properties *)

(** A score no tier range holds: negative, or strictly between the top of one
    range and the bottom of the next. *)
Definition inGap (score : Q) : Prop :=
  score < 0 \/ (254 < score /\ score < 255) \/ (373 < score /\ score < 374) \/
  (489 < score /\ score < 490) \/ (613 < score /\ score < 614) \/
  (659 < score /\ score < 660).

(** The bottom of the range of a symbol. *)
Definition tierMin (sym : string) : Q :=
  match lookup sym symbolRanges with
  | Some rg => Range.min rg
  | None => 0
  end.

(** The cells [calculateScore] reads for an observation: [(a, b)] for every
    call [getComb(a, b, ..)]. *)
Definition cellsRead (o : Obs.t) : list (Ident * Ident) :=
  [ (Obs.childId o, Obs.f o);
    (Obs.f o, Obs.ff o); (Obs.childId o, Obs.ff o);
    (Obs.f o, Obs.fm o); (Obs.childId o, Obs.fm o);
    (Obs.childId o, Obs.m o);
    (Obs.m o, Obs.mf o); (Obs.childId o, Obs.mf o);
    (Obs.m o, Obs.mm o); (Obs.childId o, Obs.mm o);
    (Obs.f o, Obs.m o) ].

Definition isCell (r c : Z) (ab : Ident * Ident) : bool :=
  match ab with
  | (Idx i, Idx j) => (i =? r)%Z && (j =? c)%Z
  | _ => false
  end.

(** The observation reads cell [(r, c)]. *)
Definition readsCell (o : Obs.t) (r c : Z) : bool :=
  existsb (isCell r c) (cellsRead o).

(** [this'] is what [this] has become after some calls of [optimize], each
    with arguments of its own, that have returned. *)
Inductive afterRuns (this : CompatibilityOptimizer)
    : CompatibilityOptimizer -> Prop :=
| afterRuns_none : afterRuns this this
| afterRuns_more this1 this2 observations iterations stepSize
    priorityBloodlines onProgress random res :
    afterRuns this this1 ->
    optimize this1 observations iterations stepSize priorityBloodlines
      onProgress random = Some (this2, res) ->
    afterRuns this this2.

(** No two entries of the list have the same key. *)
Definition uniqueKeys (l : list Obs.t) : Prop :=
  forall i j oi oj,
    nth_error l i = Some oi -> nth_error l j = Some oj ->
    SolverData.sameKey oi oj = true -> i = j.

(** ** The scenario of the specification

    The matrix [[[0]]], one observation whose seven identities are all 0 and
    whose bonuses are 0, and two sources of random numbers. *)
Definition sampleObservation (sym : string) : Obs.t :=
  Obs.mk (Idx 0) (Idx 0) (Idx 0) (Idx 0) (Idx 0) (Idx 0) (Idx 0) 0 0 None sym.

Definition alwaysUp : nat -> Q := fun _ => 0.9.
Definition alwaysDown : nat -> Q := fun _ => 0.1.

(** [(i, n, ev) => { ev.penalty = -1; }] *)
Definition spoil : Callback := fun _ _ ev => mkEval (-1) (contradictions ev).

(** ** The same lines over binary64

    JavaScript numbers are IEEE 754 binary64 values, and [+], [-], [*] and
    the comparisons on them are those of Rocq's primitive floats.  This module
    has the lines of [CompatibilityOptimizer] over them, without the
    callback: [getComb], [calculateScore], [evaluateError] and [optimize].
    [x ** 2] is taken as [x * x].  Matrices hold finite numbers; as above, a
    read of a missing cell in [optimize] ends the run. *)
Module Binary64.

#[local] Set Warnings "-inexact-float".
Local Open Scope float_scope.

Definition Matrix : Type := list (list float).

(** [M[r][c]] where both the row and the cell must exist. *)
Definition cellAt (M : Matrix) (r c : Z) : option float :=
  match nthZ r M with
  | Some row => nthZ c row
  | None => None
  end.

(** [M[r][c] = v] on an existing cell. *)
Definition setCell (M : Matrix) (r c : Z) (v : float) : Matrix :=
  if ((r <? 0) || (c <? 0))%Z then M
  else updateNth (Z.to_nat r) (updateNth (Z.to_nat c) (fun _ => v)) M.

(** [JSON.parse(JSON.stringify(M))] on a matrix of finite numbers: the
    numbers come back as they were, but for [-0], which is written [0]. *)
Definition jsonCopy (M : Matrix) : Matrix :=
  map (map (fun x : float => if is_zero x then 0 else x)) M.

(** [x || 0]: the falsy numbers are [0], [-0] and [NaN]. *)
Definition orZero (x : float) : float :=
  if is_nan x || is_zero x then 0 else x.

(** [Math.min(a, b)]: [NaN] if either is, and [-0] below [0]. *)
Definition mathMin (a b : float) : float :=
  if is_nan a || is_nan b then nan
  else if a <? b then a
  else if b <? a then b
  else if is_zero a && get_sign b then b
  else a.

Module Obs.
Record t : Type := mk {
  childId : Ident;
  f : Ident;
  ff : Ident;
  fm : Ident;
  m : Ident;
  mf : Ident;
  mm : Ident;
  s3 : float;
  s2 : float;
  noble : option float;
  correctSymbol : string
}.
End Obs.

Module Range.
Record t : Type := mk { min : float; max : float }.
End Range.

Record EvalResult : Type := mkEval {
  penalty : float;
  contradictions : nat
}.

(** Lines 58-65. *)
Definition symbolRanges : list (string * Range.t) :=
  [ (CROWN, Range.mk 660 9999);
    (STAR, Range.mk 614 659);
    (DOUBLE_CIRCLE, Range.mk 490 613);
    (CIRCLE, Range.mk 374 489);
    (TRIANGLE, Range.mk 255 373);
    (CROSS, Range.mk 0 254) ].

(** Lines 68-72. *)
Definition getComb (youngerIdx olderIdx : Ident) (currentMatrix : Matrix)
    : float :=
  match youngerIdx, olderIdx with
  | Null, _ => 0
  | _, Null => 0
  | _, _ =>
      let row :=
        match youngerIdx with
        | Idx y => nthZ y currentMatrix
        | _ => None
        end in
      match row with
      | None => 0
      | Some row =>
          match olderIdx with
          | Idx o =>
              match nthZ o row with
              | Some v => orZero v
              | None => 0
              end
          | _ => 0
          end
      end
  end.

(** Lines 74-91; the sum is taken from left to right, as [+] associates. *)
Definition calculateScore (childId f ff fm m mf mm : Ident) (s3 s2 : float)
    (noble : option float) (matchMatrix : Matrix) : float :=
  if existsb isAbsent [childId; f; ff; fm; m; mf; mm] then 0
  else
    let term1 := getComb childId f matchMatrix in
    let term2 := mathMin (getComb f ff matchMatrix) (getComb childId ff matchMatrix) in
    let term3 := mathMin (getComb f fm matchMatrix) (getComb childId fm matchMatrix) in
    let term4 := getComb childId m matchMatrix in
    let term5 := mathMin (getComb m mf matchMatrix) (getComb childId mf matchMatrix) in
    let term6 := mathMin (getComb m mm matchMatrix) (getComb childId mm matchMatrix) in
    let term7 := getComb f m matchMatrix in
    let base := 224 in
    let bonus := (s2 * 5) + (s3 * 12.5) in
    let nobleBonus := match noble with Some n => orZero n | None => 0 end in
    term1 + term2 + term3 + term4 + term5 + term6 + term7 + base + bonus + nobleBonus.

Definition CROWN_MIN : float := 660.

Definition scoreOf (currentMatrix : Matrix) (obs : Obs.t) : float :=
  calculateScore (Obs.childId obs) (Obs.f obs) (Obs.ff obs) (Obs.fm obs)
    (Obs.m obs) (Obs.mf obs) (Obs.mm obs) (Obs.s3 obs) (Obs.s2 obs)
    (Obs.noble obs) currentMatrix.

(** [x ** 2] *)
Definition square (x : float) : float := x * x.

(** Lines 106-135: one turn of the loop over the observations. *)
Definition evaluateStep (currentMatrix : Matrix) (acc : float * nat)
    (obs : Obs.t) : float * nat :=
  let '(totalPenalty, contradictionCount) := acc in
  let score := scoreOf currentMatrix obs in
  if String.eqb (Obs.correctSymbol obs) CROWN then
    if score <? CROWN_MIN
    then (totalPenalty + square (CROWN_MIN - score), S contradictionCount)
    else acc
  else
    match lookup (Obs.correctSymbol obs) symbolRanges with
    | None => acc
    | Some targetRange =>
        if score <? Range.min targetRange
        then (totalPenalty + square (Range.min targetRange - score),
              S contradictionCount)
        else if Range.max targetRange <? score
        then (totalPenalty + square (score - Range.max targetRange),
              S contradictionCount)
        else acc
    end.

Definition evaluateError (currentMatrix : Matrix) (observations : list Obs.t)
    : EvalResult :=
  let '(totalPenalty, contradictionCount) :=
    fold_left (evaluateStep currentMatrix) observations (0, 0%nat) in
  mkEval totalPenalty contradictionCount.

(** Lines 54-57. *)
Record CompatibilityOptimizer : Type := mkOptimizer {
  originalMatrix : Matrix;
  matrix : Matrix
}.

Definition constructor (initialMatrix : Matrix) : CompatibilityOptimizer :=
  {| originalMatrix := jsonCopy initialMatrix;
     matrix := jsonCopy initialMatrix |}.

Module Result.
Record t : Type := mk { matrix : Matrix; eval : EvalResult }.
End Result.

Record Search : Type := mkSearch {
  currentMatrix : Matrix;
  currentEval : EvalResult;
  bestMatrix : Matrix;
  bestEval : EvalResult;
  draws : nat
}.

Definition MOTION_LIMIT : float := 20.

(** Lines 195-197: [minLimit] and [maxLimit]. *)
Definition minLimitOf (baseValue : float) : float :=
  let minLimit := baseValue - MOTION_LIMIT in
  if minLimit <? 0 then 0 else minLimit.

Definition maxLimitOf (baseValue : float) : float := baseValue + MOTION_LIMIT.

(** Lines 186-218: the value to write, or [None] where the body is left by
    [continue]. *)
Definition proposeValue (current baseValue change : float) : option float :=
  let newValue := current + change in
  let newValue := if newValue <? 0 then 0 else newValue in
  let minLimit := minLimitOf baseValue in
  let maxLimit := maxLimitOf baseValue in
  if (newValue <? minLimit) || (maxLimit <? newValue) then
    if (newValue <? minLimit) && (newValue <? current) then None
    else if (maxLimit <? newValue) && (current <? newValue) then None
    else
      let newValue := if newValue <? minLimit then minLimit else newValue in
      let newValue := if maxLimit <? newValue then maxLimit else newValue in
      Some newValue
  else Some newValue.

(** The number a length or a loop index is. *)
Definition ofNat (n : nat) : float := of_uint63 (Uint63.of_Z (Z.of_nat n)).

(** [Math.floor(x)] used as an index: the integer, where [x] is finite; an
    index that is not a number finds no row and no cell. *)
Definition floorIndex (x : float) : option Z :=
  match Prim2SF x with
  | S754_zero _ => Some 0%Z
  | S754_finite s m e =>
      let z := if s then Z.neg m else Z.pos m in
      Some (if (0 <=? e)%Z then z * 2 ^ e else z / 2 ^ (- e))%Z
  | _ => None
  end.

(** The exact value of a finite number. *)
Definition toQ (x : float) : option Q :=
  match Prim2SF x with
  | S754_zero _ => Some 0%Q
  | S754_finite s m e =>
      let z := if s then Z.neg m else Z.pos m in
      Some (if (0 <=? e)%Z then inject_Z (z * 2 ^ e)
            else Qmake z (Pos.pow 2 (Z.to_pos (- e))))
  | _ => None
  end.

Section Optimize.

Variable this : CompatibilityOptimizer.
Variable observations : list Obs.t.
Variable iterations : nat.
Variable stepSize : float.
Variable priorityBloodlines : list Z.
Variable random : nat -> float.
Variables numRows numCols : nat.

Definition mathRandom : Draw float := fun k => Some (random k, S k).

(** [Math.floor(Math.random() * n)] *)
Definition randomBelow (n : nat) : Draw Z :=
  u <- mathRandom ;;
  match floorIndex (u * ofNat n) with
  | Some z => ret z
  | None => throw
  end.

(** Lines 158-181. *)
Definition selectCell (i : nat) : Draw (Z * Z) :=
  let isPhase1 := ofNat i <? ofNat iterations * 0.5 in
  let usePriority := isPhase1 && (0 <? length priorityBloodlines)%nat in
  chosen <- (if usePriority then u <- mathRandom ;; ret (u <? 0.8)
             else ret false) ;;
  if (chosen : bool) then
    j <- randomBelow (length priorityBloodlines) ;;
    match nthZ j priorityBloodlines with
    | None => throw
    | Some pIdx =>
        u <- mathRandom ;;
        if u <? 0.5 then
          c <- randomBelow numCols ;; ret (pIdx, c)
        else
          r <- randomBelow numRows ;; ret (r, pIdx)
    end
  else
    r <- randomBelow numRows ;;
    c <- randomBelow numCols ;;
    ret (r, c).

(** Lines 158-218. *)
Definition proposal (i : nat) (currentMatrix : Matrix)
    : Draw (option (Z * Z * float * float)) :=
  rc <- selectCell i ;;
  let '(r, c) := rc in
  match cellAt currentMatrix r c, cellAt (originalMatrix this) r c with
  | Some originalValue, Some baseValue =>
      u <- mathRandom ;;
      let change := (if u <? 0.5 then -1 else 1) * stepSize in
      match proposeValue originalValue baseValue change with
      | Some newValue => ret (Some (r, c, originalValue, newValue))
      | None => ret None
      end
  | _, _ => throw
  end.

(** Lines 220-234. *)
Definition acceptOrRevert (s : Search) (r c : Z)
    (originalValue newValue : float) (k : nat) : Search :=
  let trial := setCell (currentMatrix s) r c newValue in
  let newEval := evaluateError trial observations in
  if penalty newEval <=? penalty (currentEval s) then
    if penalty newEval <? penalty (bestEval s) then
      {| currentMatrix := trial; currentEval := newEval;
         bestMatrix := jsonCopy trial; bestEval := newEval; draws := k |}
    else
      {| currentMatrix := trial; currentEval := newEval;
         bestMatrix := bestMatrix s; bestEval := bestEval s; draws := k |}
  else
    {| currentMatrix := setCell trial r c originalValue;
       currentEval := currentEval s;
       bestMatrix := bestMatrix s; bestEval := bestEval s; draws := k |}.

(** The body of the [for] loop at index [i], without callback. *)
Definition iteration (i : nat) (s : Search) : option Search :=
  match proposal i (currentMatrix s) (draws s) with
  | None => None
  | Some (None, k) =>
      Some {| currentMatrix := currentMatrix s; currentEval := currentEval s;
              bestMatrix := bestMatrix s; bestEval := bestEval s;
              draws := k |}
  | Some (Some (r, c, originalValue, newValue), k) =>
      Some (acceptOrRevert s r c originalValue newValue k)
  end.

Fixpoint loop (n i : nat) (s : Search) : option Search :=
  match n with
  | O => Some s
  | S n' =>
      match iteration i s with
      | Some s' => loop n' (S i) s'
      | None => None
      end
  end.

End Optimize.

(** Lines 140-245, with [onProgress] left at [null]. *)
Definition optimize (this : CompatibilityOptimizer)
    (observations : list Obs.t) (iterations : nat) (stepSize : float)
    (priorityBloodlines : list Z) (random : nat -> float)
    : option (CompatibilityOptimizer * Result.t) :=
  let currentMatrix := jsonCopy (matrix this) in
  let currentEval := evaluateError currentMatrix observations in
  let s := {| currentMatrix := currentMatrix; currentEval := currentEval;
              bestMatrix := jsonCopy currentMatrix; bestEval := currentEval;
              draws := 0 |} in
  match nth_error currentMatrix 0 with
  | None => None
  | Some row0 =>
      match loop this observations iterations stepSize priorityBloodlines
              random (length currentMatrix) (length row0) iterations 0 s with
      | None => None
      | Some s' =>
          Some ({| originalMatrix := originalMatrix this;
                   matrix := bestMatrix s' |},
                Result.mk (bestMatrix s') (bestEval s'))
      end
  end.

(** A run: one cell that holds 12.2, one observation that reads it in every
    term, steps of 0.5, and random numbers that always choose the upward
    move. *)
Definition sampleObservation (sym : string) : Obs.t :=
  Obs.mk (Idx 0) (Idx 0) (Idx 0) (Idx 0) (Idx 0) (Idx 0) (Idx 0) 0 0 None sym.

Definition sampleValue : float := 12.2.
Definition sampleStep : float := 0.5.
Definition alwaysUp : nat -> float := fun _ => 0.9.

End Binary64.

(** ** [optimize] and its host

    [optimize] is an [async] function.  At a notification it awaits a timer,
    so that the host runs what it has queued, and then calls [onProgress];
    the call either returns or throws, and a throw rejects the promise
    [optimize] has returned.  What the host and the callback can reach of
    what the run goes on reading is held in a [World]: the evaluation
    objects (every notification hands one over, and the callback may keep
    it), the observations array and the priority array the caller has passed
    (the run reads both again at every turn), the optimizer object
    ([originalMatrix] is read at every turn, [symbolRanges] at every
    evaluation, [matrix] only before the loop and written after it),
    [Math.random] as the run will see it from then on, and a state of the
    host's own.  They cannot reach [currentMatrix] and [bestMatrix], fresh
    copies held in local variables, nor change which object the variables
    [currentEval] and [bestEval] refer to.  The methods of the optimizer are
    taken as they are written in the source. *)
Module Host.

Record World (H : Type) : Type := mkWorld {
  evals : Store;
  observations : list Obs.t;
  priorityBloodlines : list Z;
  thisOriginalMatrix : Matrix;
  thisSymbolRanges : list (string * Range.t);
  thisMatrix : Matrix;
  random : nat -> Q;
  host : H
}.

Arguments mkWorld {H}.
Arguments evals {H}.
Arguments observations {H}.
Arguments priorityBloodlines {H}.
Arguments thisOriginalMatrix {H}.
Arguments thisSymbolRanges {H}.
Arguments thisMatrix {H}.
Arguments random {H}.
Arguments host {H}.

(** What the await and the call [onProgress(i, iterations, currentEval)] make
    of the world; [None] where [onProgress] throws. *)
Definition Callback (H : Type) : Type :=
  nat -> nat -> Ref -> World H -> option (World H).

(** The local variables of a run, and the indices at which [onProgress] has
    been called so far. *)
Record Locals : Type := mkLocals {
  currentMatrix : Matrix;
  currentEval : Ref;
  bestMatrix : Matrix;
  bestEval : Ref;
  draws : nat;
  notified : list nat
}.

Record Outcome (H : Type) : Type := mkOutcome {
  returned : Result.t;
  calls : list nat;
  world : World H
}.

Arguments mkOutcome {H}.
Arguments returned {H}.
Arguments calls {H}.
Arguments world {H}.

(** [evaluateError] (lines 102-138), reading the table of ranges that
    [this.symbolRanges] holds at the time of the call. *)
Definition evaluateStep (table : list (string * Range.t))
    (currentMatrix : Matrix) (acc : Q * nat) (obs : Obs.t) : Q * nat :=
  let '(totalPenalty, contradictionCount) := acc in
  let score := scoreOf currentMatrix obs in
  if String.eqb (Obs.correctSymbol obs) CROWN then
    if score <? CROWN_MIN
    then (totalPenalty + (CROWN_MIN - score) ^ 2, S contradictionCount)
    else acc
  else
    match lookup (Obs.correctSymbol obs) table with
    | None => acc
    | Some targetRange =>
        if score <? Range.min targetRange
        then (totalPenalty + (Range.min targetRange - score) ^ 2,
              S contradictionCount)
        else if Range.max targetRange <? score
        then (totalPenalty + (score - Range.max targetRange) ^ 2,
              S contradictionCount)
        else acc
    end.

Definition evaluateError (table : list (string * Range.t))
    (currentMatrix : Matrix) (observations : list Obs.t) : EvalResult :=
  let '(totalPenalty, contradictionCount) :=
    fold_left (evaluateStep table currentMatrix) observations (0, 0%nat) in
  mkEval totalPenalty contradictionCount.

Definition withEvals {H : Type} (w : World H) (h : Store) : World H :=
  {| evals := h; observations := observations w;
     priorityBloodlines := priorityBloodlines w;
     thisOriginalMatrix := thisOriginalMatrix w;
     thisSymbolRanges := thisSymbolRanges w;
     thisMatrix := thisMatrix w; random := random w; host := host w |}.

Definition withMatrix {H : Type} (w : World H) (M : Matrix) : World H :=
  {| evals := evals w; observations := observations w;
     priorityBloodlines := priorityBloodlines w;
     thisOriginalMatrix := thisOriginalMatrix w;
     thisSymbolRanges := thisSymbolRanges w;
     thisMatrix := M; random := random w; host := host w |}.

(** Lines 220-234. *)
Definition acceptOrRevert {H : Type} (l : Locals) (w : World H) (r c : Z)
    (originalValue newValue : Q) (k : nat) : Locals * World H :=
  let trial := setCell (currentMatrix l) r c newValue in
  let '(newEval, h) :=
    alloc (evals w) (evaluateError (thisSymbolRanges w) trial (observations w)) in
  let w' := withEvals w h in
  if penalty (deref h newEval) <=? penalty (deref h (currentEval l)) then
    if penalty (deref h newEval) <? penalty (deref h (bestEval l)) then
      ({| currentMatrix := trial; currentEval := newEval;
          bestMatrix := jsonCopy trial; bestEval := newEval;
          draws := k; notified := notified l |}, w')
    else
      ({| currentMatrix := trial; currentEval := newEval;
          bestMatrix := bestMatrix l; bestEval := bestEval l;
          draws := k; notified := notified l |}, w')
  else
    ({| currentMatrix := setCell trial r c originalValue;
        currentEval := currentEval l;
        bestMatrix := bestMatrix l; bestEval := bestEval l;
        draws := k; notified := notified l |}, w').

(** Lines 237-240. *)
Definition notify {H : Type} (iterations : nat)
    (onProgress : option (Callback H)) (i : nat) (st : Locals * World H)
    : option (Locals * World H) :=
  let '(l, w) := st in
  match onProgress with
  | Some cb =>
      if (i mod 50 =? 0)%nat then
        match cb i iterations (currentEval l) w with
        | Some w' =>
            Some ({| currentMatrix := currentMatrix l;
                     currentEval := currentEval l;
                     bestMatrix := bestMatrix l; bestEval := bestEval l;
                     draws := draws l; notified := notified l ++ [i] |}, w')
        | None => None
        end
      else Some st
  | None => Some st
  end.

(** The body of the [for] loop at index [i] (lines 157-241). *)
Definition iteration {H : Type} (iterations : nat) (stepSize : Q)
    (onProgress : option (Callback H)) (numRows numCols i : nat)
    (st : Locals * World H) : option (Locals * World H) :=
  let '(l, w) := st in
  match proposal (mkOptimizer (thisOriginalMatrix w) (thisMatrix w))
          iterations stepSize (priorityBloodlines w) (random w)
          numRows numCols i (currentMatrix l) (draws l) with
  | None => None
  | Some (None, k) =>
      Some ({| currentMatrix := currentMatrix l; currentEval := currentEval l;
               bestMatrix := bestMatrix l; bestEval := bestEval l;
               draws := k; notified := notified l |}, w)
  | Some (Some (r, c, originalValue, newValue), k) =>
      notify iterations onProgress i
        (acceptOrRevert l w r c originalValue newValue k)
  end.

Fixpoint loop {H : Type} (iterations : nat) (stepSize : Q)
    (onProgress : option (Callback H)) (numRows numCols n i : nat)
    (st : Locals * World H) : option (Locals * World H) :=
  match n with
  | O => Some st
  | S n' =>
      match iteration iterations stepSize onProgress numRows numCols i st with
      | Some st' =>
          loop iterations stepSize onProgress numRows numCols n' (S i) st'
      | None => None
      end
  end.

(** Lines 141-148: the variables before the loop. *)
Definition initial {H : Type} (w : World H) : Locals * World H :=
  let currentMatrix := jsonCopy (thisMatrix w) in
  let '(currentEval, h) :=
    alloc (evals w)
      (evaluateError (thisSymbolRanges w) currentMatrix (observations w)) in
  ({| currentMatrix := currentMatrix; currentEval := currentEval;
      bestMatrix := jsonCopy currentMatrix; bestEval := currentEval;
      draws := 0; notified := [] |}, withEvals w h).

(** [optimize] (lines 140-245) in a world: what it returns, where it has
    called [onProgress], and the world it leaves; [None] where the promise
    is rejected. *)
Definition optimize {H : Type} (iterations : nat) (stepSize : Q)
    (onProgress : option (Callback H)) (w : World H) : option (Outcome H) :=
  let '(l, w0) := initial w in
  match nth_error (currentMatrix l) 0 with
  | None => None
  | Some row0 =>
      match loop iterations stepSize onProgress
              (length (currentMatrix l)) (length row0) iterations 0 (l, w0) with
      | None => None
      | Some (l', w') =>
          Some {| returned :=
                    Result.mk (bestMatrix l') (deref (evals w') (bestEval l'));
                  calls := notified l';
                  world := withMatrix w' (bestMatrix l') |}
      end
  end.

(** The world a call [optimize(observations, iterations, stepSize,
    priorityBloodlines, onProgress)] on the optimizer [this] starts in. *)
Definition worldOf {H : Type} (this : CompatibilityOptimizer)
    (observations : list Obs.t) (priorityBloodlines : list Z)
    (random : nat -> Q) (h : H) : World H :=
  {| evals := []; observations := observations;
     priorityBloodlines := priorityBloodlines;
     thisOriginalMatrix := originalMatrix this;
     thisSymbolRanges := symbolRanges;
     thisMatrix := matrix this; random := random; host := h |}.

(** The await and the callback leave what the run goes on reading as it
    is, and the callback returns. *)
Definition keepsInputs {H : Type} (w w' : World H) : Prop :=
  evals w' = evals w /\ observations w' = observations w /\
  priorityBloodlines w' = priorityBloodlines w /\
  thisOriginalMatrix w' = thisOriginalMatrix w /\
  thisSymbolRanges w' = thisSymbolRanges w /\
  random w' = random w.

Definition inert {H : Type} (onProgress : option (Callback H)) : Prop :=
  match onProgress with
  | None => True
  | Some cb =>
      forall i n ev w, exists w', cb i n ev w = Some w' /\ keepsInputs w w'
  end.

(** [(i, n, ev) => { ev.penalty = -1; }] *)
Definition spoil {H : Type} : Callback H :=
  fun _ _ ev w =>
    Some (withEvals w
            (assign (evals w) ev
               (mkEval (-1) (contradictions (deref (evals w) ev))))).

(** [() => { observations.length = 0; }], [observations] being the array
    handed to [optimize]. *)
Definition forget {H : Type} : Callback H :=
  fun _ _ _ w =>
    Some {| evals := evals w; observations := [];
            priorityBloodlines := priorityBloodlines w;
            thisOriginalMatrix := thisOriginalMatrix w;
            thisSymbolRanges := thisSymbolRanges w;
            thisMatrix := thisMatrix w; random := random w; host := host w |}.

(** [() => { throw new Error(); }] *)
Definition fail {H : Type} : Callback H := fun _ _ _ _ => None.

(** [() => { shown++; }]: a callback that only counts its calls. *)
Definition count : Callback nat :=
  fun _ _ _ w =>
    Some {| evals := evals w; observations := observations w;
            priorityBloodlines := priorityBloodlines w;
            thisOriginalMatrix := thisOriginalMatrix w;
            thisSymbolRanges := thisSymbolRanges w;
            thisMatrix := thisMatrix w; random := random w;
            host := S (host w) |}.

End Host.

(** The world holds the inputs the call was given, and the local variables
    and the evaluation objects are those of [s], a state of the run without
    callback. *)
Definition tracks {H : Type} (this : CompatibilityOptimizer)
    (observations : list Obs.t) (priorityBloodlines : list Z)
    (random : nat -> Q) (st : Host.Locals * Host.World H) (s : Search)
    : Prop :=
  Host.currentMatrix (fst st) = currentMatrix s /\
  Host.currentEval (fst st) = currentEval s /\
  Host.bestMatrix (fst st) = bestMatrix s /\
  Host.bestEval (fst st) = bestEval s /\
  Host.draws (fst st) = draws s /\
  Host.evals (snd st) = store s /\
  Host.observations (snd st) = observations /\
  Host.priorityBloodlines (snd st) = priorityBloodlines /\
  Host.thisOriginalMatrix (snd st) = originalMatrix this /\
  Host.thisSymbolRanges (snd st) = symbolRanges /\
  Host.random (snd st) = random.

(** The world of a call on the matrix [[[0]]] with one top-tier observation,
    no priority and upward moves only. *)
Definition crownWorld {H : Type} (h : H) : Host.World H :=
  Host.worldOf (constructor [[0]]) [sampleObservation CROWN] [] alwaysUp h.

(** * Properties *)

(** ** Numbers and copies *)

Lemma Qltb_lt (x y : Q) : (x <? y) = true <-> x < y.
Proof.
  unfold Qltb. rewrite negb_true_iff, <- not_true_iff_false, Qle_bool_iff.
  split; [apply Qnot_le_lt | apply Qlt_not_le].
Qed.

Lemma Qltb_ge (x y : Q) : (x <? y) = false <-> y <= x.
Proof.
  unfold Qltb. rewrite negb_false_iff. apply Qle_bool_iff.
Qed.

Lemma Qleb_gt (x y : Q) : (x <=? y) = false <-> y < x.
Proof.
  rewrite <- not_true_iff_false, Qle_bool_iff.
  split; [apply Qnot_le_lt | apply Qlt_not_le].
Qed.

(** Case analysis on a comparison of the code, leaving the order fact. *)
Ltac cmp x y :=
  let E := fresh "E" in
  destruct (Qltb x y) eqn:E;
  [apply Qltb_lt in E | apply Qltb_ge in E].

Lemma orZero_eq (x : Q) : orZero x == x.
Proof.
  unfold orZero. destruct (Qeq_bool x 0) eqn:E; [|reflexivity].
  apply Qeq_bool_eq in E. symmetry. exact E.
Qed.

Lemma jsonCopy_id (M : Matrix) : jsonCopy M = M.
Proof.
  unfold jsonCopy. induction M as [|row M IH]; simpl; [reflexivity|].
  rewrite IH, map_id. reflexivity.
Qed.

(** ** ScoreModel *)

Lemma absent_isAbsent (x : Ident) : absent x <-> isAbsent x = true.
Proof.
  unfold absent. destruct x; simpl; split; intros H; auto;
    try discriminate; destruct H; discriminate.
Qed.

Lemma getComb_spec_comb (a b : Ident) (M : Matrix) :
  getComb a b M == spec_comb M a b.
Proof.
  unfold getComb, spec_comb, cellAt.
  destruct a as [| |i], b as [| |j]; try reflexivity;
    try (destruct (nthZ i M); reflexivity).
  destruct (nthZ i M) as [row|]; [|reflexivity].
  destruct (nthZ j row); [apply orZero_eq | reflexivity].
Qed.

Lemma calculateScore_absent (childId f ff fm m mf mm : Ident) (s3 s2 : Q)
    (noble : option Q) (M : Matrix) :
  existsb isAbsent [childId; f; ff; fm; m; mf; mm] = true ->
  calculateScore childId f ff fm m mf mm s3 s2 noble M = 0.
Proof.
  intros H. unfold calculateScore. rewrite H. reflexivity.
Qed.

Lemma calculateScore_present (childId f ff fm m mf mm : Ident) (s3 s2 : Q)
    (noble : option Q) (M : Matrix) :
  existsb isAbsent [childId; f; ff; fm; m; mf; mm] = false ->
  calculateScore childId f ff fm m mf mm s3 s2 noble M
  == spec_score M childId f ff fm m mf mm s3 s2 noble.
Proof.
  intros H. unfold calculateScore, spec_score. rewrite H.
  cbv zeta. rewrite !getComb_spec_comb.
  assert (N : match noble with Some n => orZero n | None => 0 end
              == match noble with Some n => n | None => 0 end)
    by (destruct noble; [apply orZero_eq | reflexivity]).
  rewrite N. ring.
Qed.

(** C1.  When all seven identity arguments are present, [calculateScore] is
    the sum the specification gives, [comb] reading [matrix[a][b]] with 0 for a
    missing index, row or cell and [noble] counting 0 when absent; when any of
    the seven is absent ([null] or [undefined]) it is exactly 0, whatever the
    other arguments are. *)
Theorem calculateScore_spec (M : Matrix) (childId f ff fm m mf mm : Ident)
    (s3 s2 : Q) (noble : option Q) :
  (~ absent childId -> ~ absent f -> ~ absent ff -> ~ absent fm ->
   ~ absent m -> ~ absent mf -> ~ absent mm ->
   calculateScore childId f ff fm m mf mm s3 s2 noble M
   == spec_score M childId f ff fm m mf mm s3 s2 noble)
  /\
  (absent childId \/ absent f \/ absent ff \/ absent fm \/
   absent m \/ absent mf \/ absent mm ->
   calculateScore childId f ff fm m mf mm s3 s2 noble M = 0).
Proof.
  split.
  - intros H1 H2 H3 H4 H5 H6 H7. apply calculateScore_present.
    rewrite absent_isAbsent in H1, H2, H3, H4, H5, H6, H7.
    apply not_true_is_false in H1, H2, H3, H4, H5, H6, H7.
    simpl. rewrite H1, H2, H3, H4, H5, H6, H7. reflexivity.
  - intros H. apply calculateScore_absent. simpl.
    rewrite !orb_true_iff, <- !absent_isAbsent. tauto.
Qed.

Lemma calculateScore_spec_witness :
  calculateScore (Idx 0) (Idx 0) (Idx 0) (Idx 0) (Idx 0) (Idx 0) (Idx 0)
    1 2 None [[3]]
  == spec_score [[3]] (Idx 0) (Idx 0) (Idx 0) (Idx 0) (Idx 0) (Idx 0) (Idx 0)
       1 2 None /\
  calculateScore (Idx 0) Null (Idx 0) (Idx 0) (Idx 0) (Idx 0) (Idx 0)
    1 2 None [[3]] = 0.
Proof.
  split.
  - apply (calculateScore_spec [[3]] (Idx 0) (Idx 0) (Idx 0) (Idx 0) (Idx 0)
             (Idx 0) (Idx 0) 1 2 None);
      intros [H|H]; discriminate H.
  - apply (calculateScore_spec [[3]] (Idx 0) Null (Idx 0) (Idx 0) (Idx 0)
             (Idx 0) (Idx 0) 1 2 None).
    right. left. left. reflexivity.
Defined.

(** The base score of the scenario: every [comb] is 0. *)
Example score_of_scenario :
  scoreOf [[0]] (sampleObservation CROSS) == 224.
Proof.
  vm_compute. reflexivity.
Qed.

(** ** PenaltyEvaluator *)

Lemma lookup_unknown (sym : string) :
  ~ In sym knownSymbols -> lookup sym symbolRanges = None.
Proof.
  intros H. unfold knownSymbols in H. simpl in H. simpl.
  repeat match goal with
  | |- context [String.eqb sym ?k] =>
      destruct (String.eqb_spec sym k); [exfalso; apply H; auto 10|]
  end.
  reflexivity.
Qed.

(** A turn of the loop either leaves both accumulators alone or adds one
    amount, fixed by the observation, and counts one contradiction. *)
Lemma evaluateStep_shape (M : Matrix) (o : Obs.t) :
  (forall p c, evaluateStep M (p, c) o = (p, c)) \/
  (exists d, forall p c, evaluateStep M (p, c) o = (p + d, S c)).
Proof.
  unfold evaluateStep.
  destruct (String.eqb (Obs.correctSymbol o) CROWN).
  - destruct (scoreOf M o <? CROWN_MIN); [right; eexists|left]; reflexivity.
  - destruct (lookup (Obs.correctSymbol o) symbolRanges) as [rg|];
      [|left; reflexivity].
    destruct (scoreOf M o <? Range.min rg); [right; eexists; reflexivity|].
    destruct (Range.max rg <? scoreOf M o); [right; eexists|left]; reflexivity.
Qed.

Lemma evaluate_fold_shift (M : Matrix) (l : list Obs.t) (d : Q) (k : nat) :
  forall p p' c c', p' == p + d -> c' = (c + k)%nat ->
  fst (fold_left (evaluateStep M) l (p', c'))
    == fst (fold_left (evaluateStep M) l (p, c)) + d /\
  snd (fold_left (evaluateStep M) l (p', c'))
    = (snd (fold_left (evaluateStep M) l (p, c)) + k)%nat.
Proof.
  induction l as [|o l IH]; intros p p' c c' Hp Hc; cbn [fold_left fst snd].
  - split; [exact Hp | exact Hc].
  - destruct (evaluateStep_shape M o) as [E|[x E]]; rewrite !E.
    + apply IH; assumption.
    + apply IH; [rewrite Hp; ring | subst c'; reflexivity].
Qed.

Lemma evaluateError_fold (M : Matrix) (l : list Obs.t) :
  penalty (evaluateError M l) = fst (fold_left (evaluateStep M) l (0, 0%nat)) /\
  contradictions (evaluateError M l)
    = snd (fold_left (evaluateStep M) l (0, 0%nat)).
Proof.
  unfold evaluateError.
  destruct (fold_left (evaluateStep M) l (0, 0%nat)); split; reflexivity.
Qed.

(** An observation on which the loop body changes nothing can be left out. *)
Lemma evaluateError_skip (M : Matrix) (pre post : list Obs.t) (o : Obs.t) :
  (forall acc, evaluateStep M acc o = acc) ->
  evaluateError M (pre ++ o :: post) = evaluateError M (pre ++ post).
Proof.
  intros H. unfold evaluateError.
  rewrite !fold_left_app. cbn [fold_left]. rewrite H. reflexivity.
Qed.

(** An observation on which the loop body adds [d] adds [d] to the total. *)
Lemma evaluateError_add (M : Matrix) (pre post : list Obs.t) (o : Obs.t) (d : Q) :
  (forall p c, evaluateStep M (p, c) o = (p + d, S c)) ->
  penalty (evaluateError M (pre ++ o :: post))
    == penalty (evaluateError M (pre ++ post)) + d /\
  contradictions (evaluateError M (pre ++ o :: post))
    = S (contradictions (evaluateError M (pre ++ post))).
Proof.
  intros H.
  destruct (evaluateError_fold M (pre ++ o :: post)) as [-> ->].
  destruct (evaluateError_fold M (pre ++ post)) as [-> ->].
  rewrite !fold_left_app. cbn [fold_left].
  destruct (fold_left (evaluateStep M) pre (0, 0%nat)) as [p c].
  rewrite H.
  destruct (evaluate_fold_shift M post d 1 p (p + d) c (S c)) as [A B];
    [reflexivity | lia |].
  split; [exact A | rewrite B; lia].
Qed.

Lemma evaluateStep_crown (M : Matrix) (o : Obs.t) (p : Q) (c : nat) :
  Obs.correctSymbol o = CROWN ->
  evaluateStep M (p, c) o
  = if scoreOf M o <? 660
    then (p + (660 - scoreOf M o) ^ 2, S c)
    else (p, c).
Proof.
  intros H. unfold evaluateStep. rewrite H, String.eqb_refl. reflexivity.
Qed.

(** C2.  An observation labelled with the top tier, wherever it stands in the
    observation list, adds [(660 - score)^2] to the penalty of [evaluateError]
    and 1 to its contradiction count when its score is below 660, and adds
    nothing to either when its score is 660 or more, however large. *)
Theorem crown_contribution (M : Matrix) (pre post : list Obs.t) (o : Obs.t) :
  Obs.correctSymbol o = CROWN ->
  (scoreOf M o < 660 ->
   penalty (evaluateError M (pre ++ o :: post))
     == penalty (evaluateError M (pre ++ post)) + (660 - scoreOf M o) ^ 2 /\
   contradictions (evaluateError M (pre ++ o :: post))
     = S (contradictions (evaluateError M (pre ++ post))))
  /\
  (660 <= scoreOf M o ->
   evaluateError M (pre ++ o :: post) = evaluateError M (pre ++ post)).
Proof.
  intros Hsym. split; intros Hs.
  - apply evaluateError_add. intros p c.
    rewrite (evaluateStep_crown M o p c Hsym).
    apply Qltb_lt in Hs. rewrite Hs. reflexivity.
  - apply evaluateError_skip. intros [p c].
    rewrite (evaluateStep_crown M o p c Hsym).
    apply Qltb_ge in Hs. rewrite Hs. reflexivity.
Qed.

Lemma crown_contribution_witness :
  penalty (evaluateError [[0]] ([] ++ sampleObservation CROWN :: []))
  == penalty (evaluateError [[0]] ([] ++ []))
     + (660 - scoreOf [[0]] (sampleObservation CROWN)) ^ 2.
Proof.
  destruct (crown_contribution [[0]] [] [] (sampleObservation CROWN)) as [A _].
  - reflexivity.
  - apply A. vm_compute. reflexivity.
Defined.

(** A score of 659 costs 1 and a score of 660 costs nothing. *)
Example crown_at_659_and_660 :
  let at659 := Obs.mk (Idx 0) (Idx 0) (Idx 0) (Idx 0) (Idx 0) (Idx 0) (Idx 0)
                 0 87 None CROWN in
  let at660 := Obs.mk (Idx 0) (Idx 0) (Idx 0) (Idx 0) (Idx 0) (Idx 0) (Idx 0)
                 0 87 (Some 1) CROWN in
  scoreOf [[0]] at659 == 659 /\ scoreOf [[0]] at660 == 660 /\
  penalty (evaluateError [[0]] [at659]) == 1 /\
  evaluateError [[0]] [at660] = mkEval 0 0.
Proof.
  repeat split; vm_compute; reflexivity.
Qed.

(** The superseded variant does penalise the top tier from above, past 9999;
    the variant in force does not. *)
Remark legacy_crown_upper_bound :
  scoreOf [[2000]] (sampleObservation CROWN) == 14224 /\
  penalty (Legacy.evaluateError [[2000]] [sampleObservation CROWN])
  == (14224 - 9999) ^ 2 /\
  evaluateError [[2000]] [sampleObservation CROWN] = mkEval 0 0.
Proof.
  repeat split; vm_compute; reflexivity.
Qed.

(** The superseded variant does not keep a move on a tie. *)
Remark legacy_rejects_ties (e : EvalResult) : Legacy.keeps e e = false.
Proof.
  unfold Legacy.keeps. apply Qltb_ge. lra.
Qed.

(** C8.  An observation whose label is none of the six tier symbols adds
    nothing to the penalty and nothing to the contradiction count: the
    evaluation is the evaluation of the list without it. *)
Theorem unknown_symbol_skipped (M : Matrix) (pre post : list Obs.t) (o : Obs.t) :
  ~ In (Obs.correctSymbol o) knownSymbols ->
  evaluateError M (pre ++ o :: post) = evaluateError M (pre ++ post).
Proof.
  intros H. apply evaluateError_skip. intros [p c].
  unfold evaluateStep.
  destruct (String.eqb_spec (Obs.correctSymbol o) CROWN) as [E|_].
  - exfalso. apply H. rewrite E. left. reflexivity.
  - rewrite (lookup_unknown _ H). reflexivity.
Qed.

Lemma unknown_symbol_skipped_witness :
  evaluateError [[0]] ([sampleObservation CROWN]
                       ++ sampleObservation "?" :: [sampleObservation CROSS])
  = evaluateError [[0]] ([sampleObservation CROWN] ++ [sampleObservation CROSS]).
Proof.
  apply (unknown_symbol_skipped [[0]] [sampleObservation CROWN]
           [sampleObservation CROSS] (sampleObservation "?")).
  simpl. intros H.
  repeat (destruct H as [H|H]; [discriminate H|]). exact H.
Defined.

(** ** Lists, matrices and the store *)

Lemma nthZ_Some {A : Type} (i : Z) (l : list A) (x : A) :
  nthZ i l = Some x <-> (0 <= i)%Z /\ nth_error l (Z.to_nat i) = Some x.
Proof.
  unfold nthZ. destruct (Z.ltb_spec i 0); split.
  - discriminate.
  - intros [H1 _]. lia.
  - intros E. split; [lia | exact E].
  - intros [_ E]. exact E.
Qed.

Lemma updateNth_length {A : Type} (n : nat) (g : A -> A) (l : list A) :
  length (updateNth n g l) = length l.
Proof.
  revert n. induction l as [|x l IH]; intros [|n]; simpl; auto.
Qed.

Lemma nth_error_updateNth_eq {A : Type} (n : nat) (g : A -> A) (l : list A) :
  nth_error (updateNth n g l) n = option_map g (nth_error l n).
Proof.
  revert n. induction l as [|x l IH]; intros [|n]; simpl; auto.
Qed.

Lemma nth_error_updateNth_neq {A : Type} (n k : nat) (g : A -> A) (l : list A) :
  n <> k -> nth_error (updateNth n g l) k = nth_error l k.
Proof.
  revert n k. induction l as [|x l IH]; intros [|n] [|k] H; simpl; auto;
    try contradiction.
Qed.

Lemma updateNth_fixed {A : Type} (n : nat) (g : A -> A) (l : list A) :
  (forall x, nth_error l n = Some x -> g x = x) -> updateNth n g l = l.
Proof.
  revert n. induction l as [|x l IH]; intros [|n] H; simpl; auto.
  - rewrite (H x); reflexivity.
  - rewrite IH; auto.
Qed.

Lemma updateNth_twice {A : Type} (n : nat) (g g' : A -> A) (l : list A) :
  updateNth n g' (updateNth n g l) = updateNth n (fun x => g' (g x)) l.
Proof.
  revert n. induction l as [|x l IH]; intros [|n]; simpl; auto.
  rewrite IH. reflexivity.
Qed.

Lemma cellAt_Some (M : Matrix) (r c : Z) (v : Q) :
  cellAt M r c = Some v <->
  (0 <= r)%Z /\ (0 <= c)%Z /\
  exists row, nth_error M (Z.to_nat r) = Some row /\
              nth_error row (Z.to_nat c) = Some v.
Proof.
  unfold cellAt. split.
  - destruct (nthZ r M) as [row|] eqn:E; [|discriminate].
    intros H. apply nthZ_Some in E, H. destruct E, H. eauto.
  - intros (Hr & Hc & row & E1 & E2).
    assert (E : nthZ r M = Some row) by (apply nthZ_Some; auto).
    rewrite E. apply nthZ_Some. auto.
Qed.

Lemma cellAt_setCell_same (M : Matrix) (r c : Z) (x v : Q) :
  cellAt M r c = Some x -> cellAt (setCell M r c v) r c = Some v.
Proof.
  intros H. apply cellAt_Some in H. destruct H as (Hr & Hc & row & E1 & E2).
  apply cellAt_Some. split; [exact Hr|]. split; [exact Hc|].
  exists (updateNth (Z.to_nat c) (fun _ => v) row).
  unfold setCell.
  replace ((r <? 0)%Z || (c <? 0)%Z) with false by
    (symmetry; apply orb_false_iff; split; apply Z.ltb_ge; assumption).
  rewrite !nth_error_updateNth_eq, E1, E2. split; reflexivity.
Qed.

Lemma cellAt_setCell_other (M : Matrix) (r c r' c' : Z) (v : Q) :
  r' <> r \/ c' <> c ->
  cellAt (setCell M r c v) r' c' = cellAt M r' c'.
Proof.
  intros H. unfold setCell.
  destruct (Z.ltb_spec r 0) as [|Hr]; [reflexivity|].
  destruct (Z.ltb_spec c 0) as [|Hc]; [reflexivity|]. simpl.
  unfold cellAt, nthZ.
  destruct (Z.ltb_spec r' 0) as [|Hr']; [reflexivity|].
  destruct (Z.eq_dec r' r) as [->|Nr].
  - rewrite nth_error_updateNth_eq.
    destruct (nth_error M (Z.to_nat r)) as [row|]; [simpl|reflexivity].
    destruct (Z.ltb_spec c' 0) as [|Hc']; [reflexivity|].
    apply nth_error_updateNth_neq. destruct H as [H|H]; [contradiction|].
    intros E. apply H. apply Z2Nat.inj in E; auto.
  - rewrite nth_error_updateNth_neq; [reflexivity|].
    intros E. apply Nr. apply Z2Nat.inj in E; auto.
Qed.

(** Putting the old value back into a cell gives the old matrix back. *)
Lemma setCell_revert (M : Matrix) (r c : Z) (x v : Q) :
  cellAt M r c = Some x -> setCell (setCell M r c v) r c x = M.
Proof.
  intros H. apply cellAt_Some in H. destruct H as (Hr & Hc & row & E1 & E2).
  unfold setCell.
  replace ((r <? 0)%Z || (c <? 0)%Z) with false by
    (symmetry; apply orb_false_iff; split; apply Z.ltb_ge; assumption).
  rewrite updateNth_twice. apply updateNth_fixed.
  intros row' E. rewrite E1 in E. injection E as <-.
  rewrite updateNth_twice. apply updateNth_fixed.
  intros x' E. rewrite E2 in E. injection E as <-. reflexivity.
Qed.

(** What a cell of the matrix holds after a write. *)
Lemma cellAt_setCell_inv (M : Matrix) (r c r' c' : Z) (v y : Q) :
  cellAt (setCell M r c v) r' c' = Some y ->
  (r' = r /\ c' = c /\ y = v /\ exists x, cellAt M r c = Some x) \/
  ((r' <> r \/ c' <> c) /\ cellAt M r' c' = Some y).
Proof.
  intros H.
  destruct (Z.eq_dec r' r) as [->|Nr]; [destruct (Z.eq_dec c' c) as [->|Nc]|].
  - destruct (cellAt M r c) as [x|] eqn:E.
    + rewrite (cellAt_setCell_same M r c x v E) in H. injection H as <-.
      left. eauto.
    + exfalso. apply cellAt_Some in H. destruct H as (Hr & Hc & row & E1 & E2).
      unfold setCell in E1.
      replace ((r <? 0)%Z || (c <? 0)%Z) with false in E1 by
        (symmetry; apply orb_false_iff; split; apply Z.ltb_ge; assumption).
      rewrite nth_error_updateNth_eq in E1.
      destruct (nth_error M (Z.to_nat r)) as [row0|] eqn:E0; [|discriminate].
      simpl in E1. injection E1 as <-.
      rewrite nth_error_updateNth_eq in E2.
      destruct (nth_error row0 (Z.to_nat c)) as [x|] eqn:Ex; [|discriminate].
      assert (C : cellAt M r c = Some x) by (apply cellAt_Some; eauto).
      congruence.
  - right. rewrite cellAt_setCell_other in H; auto.
  - right. rewrite cellAt_setCell_other in H; auto.
Qed.

Lemma deref_alloc_new (h : Store) (e : EvalResult) :
  deref (h ++ [e]) (length h) = e.
Proof.
  unfold deref. rewrite app_nth2, Nat.sub_diag; [reflexivity | lia].
Qed.

Lemma deref_alloc_old (h : Store) (e : EvalResult) (r : Ref) :
  (r < length h)%nat -> deref (h ++ [e]) r = deref h r.
Proof.
  intros H. unfold deref. apply app_nth1. exact H.
Qed.

Lemma assign_length (h : Store) (r : Ref) (e : EvalResult) :
  length (assign h r e) = length h.
Proof.
  apply updateNth_length.
Qed.

Lemma assign_deref (h : Store) (r : Ref) : assign h r (deref h r) = h.
Proof.
  unfold assign, deref. apply updateNth_fixed.
  intros x E. cbv beta. apply nth_error_nth. exact E.
Qed.

(** ** The motion limit *)

Lemma minLimitOf_cases (b : Q) :
  (b - 20 < 0 /\ minLimitOf b = 0) \/ (0 <= b - 20 /\ minLimitOf b = b - 20).
Proof.
  unfold minLimitOf, MOTION_LIMIT. cmp (b - 20) 0; auto.
Qed.

Lemma perturbed_nonneg (current change : Q) : 0 <= perturbed current change.
Proof.
  unfold perturbed. cmp (current + change) 0; lra.
Qed.

(** The two ways out of the motion-limit block, by the tests of the code. *)
Lemma proposeValue_cases (current b change : Q) :
  let nv := perturbed current change in
  let lo := minLimitOf b in
  let hi := maxLimitOf b in
  match proposeValue current b change with
  | None => (nv < lo /\ nv < current) \/ (hi < nv /\ current < nv)
  | Some v =>
      ~ (nv < lo /\ nv < current) /\ ~ (hi < nv /\ current < nv) /\
      v = if nv <? lo then (if hi <? lo then hi else lo)
          else if hi <? nv then hi else nv
  end.
Proof.
  intros nv lo hi. unfold proposeValue.
  fold (perturbed current change). fold nv. cbv zeta. fold lo. fold hi.
  cmp nv lo; cmp hi nv; cmp nv current; cmp current nv; simpl;
    try (left; split; assumption); try (right; split; assumption);
    (split; [lra | split; [lra | reflexivity]]).
Qed.

(** A value inside the window is only ever replaced by a value inside it. *)
Lemma proposeValue_inWindow (current b change v : Q) :
  inWindow b current -> proposeValue current b change = Some v ->
  inWindow b v.
Proof.
  unfold inWindow. intros [H1 H2] E.
  pose proof (proposeValue_cases current b change) as C. rewrite E in C.
  cbv zeta in C. destruct C as (N1 & N2 & ->).
  set (nv := perturbed current change) in *.
  cmp nv (minLimitOf b); [exfalso; apply N1; split; lra|].
  cmp (maxLimitOf b) nv; [exfalso; apply N2; split; lra|].
  split; assumption.
Qed.

(** With a non-negative original value no negative value is ever written. *)
Lemma proposeValue_nonneg (current b change v : Q) :
  0 <= b -> proposeValue current b change = Some v -> 0 <= v.
Proof.
  intros Hb E.
  pose proof (proposeValue_cases current b change) as C. rewrite E in C.
  cbv zeta in C. destruct C as (_ & _ & ->).
  pose proof (perturbed_nonneg current change) as Hn.
  set (nv := perturbed current change) in *.
  assert (Hhi : 0 <= maxLimitOf b) by (unfold maxLimitOf, MOTION_LIMIT; lra).
  assert (Hlo : 0 <= minLimitOf b)
    by (destruct (minLimitOf_cases b) as [[_ ->]|[? ->]]; lra).
  destruct (nv <? minLimitOf b);
    [destruct (maxLimitOf b <? minLimitOf b) | destruct (maxLimitOf b <? nv)];
    assumption.
Qed.

(** ** One turn of the loop *)

Lemma notify_readOnly (iterations : nat) (onProgress : option Callback)
    (i : nat) (s : Search) :
  readOnly onProgress -> notify iterations onProgress i s = s.
Proof.
  unfold notify, readOnly. destruct onProgress as [cb|]; [|reflexivity].
  intros H. destruct (i mod 50 =? 0)%nat; [|reflexivity].
  rewrite H, assign_deref. destruct s; reflexivity.
Qed.

(** Whatever the callback does, it does it to an evaluation object. *)
Lemma notify_frame (iterations : nat) (onProgress : option Callback)
    (i : nat) (s : Search) :
  let s' := notify iterations onProgress i s in
  currentMatrix s' = currentMatrix s /\ bestMatrix s' = bestMatrix s /\
  currentEval s' = currentEval s /\ bestEval s' = bestEval s /\
  length (store s') = length (store s) /\ draws s' = draws s.
Proof.
  unfold notify. destruct onProgress as [cb|]; [|tauto].
  destruct (i mod 50 =? 0)%nat; [|tauto].
  simpl. rewrite assign_length. tauto.
Qed.

Section Turn.

Variable this : CompatibilityOptimizer.
Variable observations : list Obs.t.
Variable iterations : nat.
Variable stepSize : Q.
Variable priorityBloodlines : list Z.
Variable onProgress : option Callback.
Variable random : nat -> Q.
Variables numRows numCols : nat.

Let proposal' := proposal this iterations stepSize priorityBloodlines random
                   numRows numCols.
Let iteration' := iteration this observations iterations stepSize
                    priorityBloodlines onProgress random numRows numCols.
Let loop' := loop this observations iterations stepSize priorityBloodlines
               onProgress random numRows numCols.

(** A proposal is for a cell that exists in the working and in the original
    matrix, and its value has passed the motion limit. *)
Lemma proposal_inv (i : nat) (M : Matrix) (k k' : nat) (r c : Z) (ov nv : Q) :
  proposal' i M k = Some (Some (r, c, ov, nv), k') ->
  cellAt M r c = Some ov /\
  exists bv change,
    cellAt (originalMatrix this) r c = Some bv /\
    (change = -1 * stepSize \/ change = 1 * stepSize) /\
    proposeValue ov bv change = Some nv.
Proof.
  unfold proposal', proposal, bind.
  destruct (selectCell iterations priorityBloodlines random numRows numCols i k)
    as [[[r0 c0] k0]|]; [|discriminate].
  destruct (cellAt M r0 c0) as [ov0|] eqn:E1; [|discriminate].
  destruct (cellAt (originalMatrix this) r0 c0) as [bv|] eqn:E2; [|discriminate].
  unfold mathRandom, ret.
  destruct (proposeValue ov0 bv _) as [nv0|] eqn:E3; [|discriminate].
  intros H. injection H as <- <- <- <- _.
  split; [exact E1|]. eexists; eexists. split; [exact E2|].
  split; [|exact E3]. destruct (random k0 <? 0.5); auto.
Qed.

(** Lines 220-234 on the values the variables refer to. *)
Lemma acceptOrRevert_view (s : Search) (r c : Z) (ov nv : Q) (k : nat) :
  validRefs s ->
  let trial := setCell (currentMatrix s) r c nv in
  let newEval := evaluateError trial observations in
  let s' := acceptOrRevert observations s r c ov nv k in
  validRefs s' /\
  if penalty newEval <=? penalty (currentEvalOf s) then
    currentMatrix s' = trial /\ currentEvalOf s' = newEval /\
    if penalty newEval <? penalty (bestEvalOf s)
    then bestMatrix s' = trial /\ bestEvalOf s' = newEval
    else bestMatrix s' = bestMatrix s /\ bestEvalOf s' = bestEvalOf s
  else
    currentMatrix s' = setCell trial r c ov /\
    currentEvalOf s' = currentEvalOf s /\
    bestMatrix s' = bestMatrix s /\ bestEvalOf s' = bestEvalOf s.
Proof.
  intros [V1 V2] trial newEval s'.
  unfold s', acceptOrRevert, alloc, validRefs, currentEvalOf, bestEvalOf.
  fold trial. fold newEval.
  rewrite deref_alloc_new, !deref_alloc_old by assumption.
  destruct (penalty newEval <=? penalty (deref (store s) (currentEval s)));
    [destruct (penalty newEval <? penalty (deref (store s) (bestEval s)))|];
    cbn [currentMatrix currentEval bestMatrix bestEval store];
    rewrite ?length_app, ?deref_alloc_new, ?deref_alloc_old, ?jsonCopy_id
      by assumption;
    cbn [length]; repeat split; auto; lia.
Qed.

(** What a turn does to the two matrices, whatever the callback. *)
Lemma iteration_matrices (i : nat) (s s' : Search) :
  iteration' i s = Some s' ->
  (currentMatrix s' = currentMatrix s /\ bestMatrix s' = bestMatrix s) \/
  exists r c ov bv change nv,
    cellAt (currentMatrix s) r c = Some ov /\
    cellAt (originalMatrix this) r c = Some bv /\
    proposeValue ov bv change = Some nv /\
    currentMatrix s' = setCell (currentMatrix s) r c nv /\
    (bestMatrix s' = currentMatrix s' \/ bestMatrix s' = bestMatrix s).
Proof.
  unfold iteration', iteration. fold proposal'.
  destruct (proposal' i (currentMatrix s) (draws s))
    as [[[[[[r c] ov] nv]|] k]|] eqn:P; [| |discriminate].
  - intros H. injection H as <-.
    destruct (proposal_inv _ _ _ _ _ _ _ _ P) as (E1 & bv & change & E2 & _ & E3).
    destruct (notify_frame iterations onProgress i
                (acceptOrRevert observations s r c ov nv k))
      as (-> & -> & _).
    unfold acceptOrRevert, alloc.
    destruct (_ <=? _); [destruct (_ <? _)|];
      cbn [currentMatrix bestMatrix]; rewrite ?jsonCopy_id.
    + right. exists r, c, ov, bv, change, nv. auto 10.
    + right. exists r, c, ov, bv, change, nv. auto 10.
    + left. split; [|reflexivity]. apply (setCell_revert _ _ _ _ _ E1).
  - intros H. injection H as <-. left. split; reflexivity.
Qed.

(** What a turn does to the values the variables refer to, when the callback
    leaves the evaluation object alone. *)
Lemma iteration_view (i : nat) (s s' : Search) :
  readOnly onProgress -> validRefs s -> iteration' i s = Some s' ->
  validRefs s' /\
  match proposal' i (currentMatrix s) (draws s) with
  | Some (Some (r, c, ov, nv), k) =>
      s' = acceptOrRevert observations s r c ov nv k
  | Some (None, k) =>
      currentMatrix s' = currentMatrix s /\ bestMatrix s' = bestMatrix s /\
      currentEvalOf s' = currentEvalOf s /\ bestEvalOf s' = bestEvalOf s
  | None => False
  end.
Proof.
  intros RO V. unfold iteration', iteration. fold proposal'.
  destruct (proposal' i (currentMatrix s) (draws s))
    as [[[[[[r c] ov] nv]|] k]|]; [| |discriminate].
  - rewrite (notify_readOnly _ _ _ _ RO). intros H. injection H as <-.
    split; [|reflexivity]. apply (acceptOrRevert_view s r c ov nv k V).
  - intros H. injection H as <-. split; [exact V|]. repeat split.
Qed.

(** The best penalty never goes up in a turn, and each variable keeps
    referring to the evaluation of its matrix. *)
Lemma iteration_best (i : nat) (s s' : Search) :
  readOnly onProgress -> validRefs s -> iteration' i s = Some s' ->
  validRefs s' /\ penalty (bestEvalOf s') <= penalty (bestEvalOf s).
Proof.
  intros RO V H. destruct (iteration_view i s s' RO V H) as [V' C].
  split; [exact V'|].
  destruct (proposal' i (currentMatrix s) (draws s))
    as [[[[[[r c] ov] nv]|] k]|]; [| |contradiction].
  - subst s'. destruct (acceptOrRevert_view s r c ov nv k V) as [_ A].
    cbv zeta in A.
    destruct (_ <=? _); [|destruct A as (_ & _ & _ & ->); lra].
    destruct A as (_ & _ & A).
    set (p := penalty (evaluateError _ _)) in *.
    cmp p (penalty (bestEvalOf s)); destruct A as [_ ->]; [fold p|]; lra.
  - destruct C as (_ & _ & _ & ->). lra.
Qed.

Lemma loop_preserves (I : Search -> Prop) :
  (forall i s s', I s -> iteration' i s = Some s' -> I s') ->
  forall n i s s', I s -> loop' n i s = Some s' -> I s'.
Proof.
  intros Hstep. induction n as [|n IH]; intros i s s' HI H; simpl in H.
  - injection H as <-. exact HI.
  - fold iteration' in H. destruct (iteration' i s) as [s1|] eqn:E; [|discriminate].
    apply (IH (S i) s1 s'); [|exact H]. apply (Hstep i s s1 HI E).
Qed.

Lemma loop_split (n k i : nat) (s : Search) :
  loop' (n + k) i s
  = match loop' n i s with
    | Some s1 => loop' k (i + n)%nat s1
    | None => None
    end.
Proof.
  revert i s. induction n as [|n IH]; intros i s; simpl.
  - rewrite Nat.add_0_r. reflexivity.
  - fold iteration'. destruct (iteration' i s) as [s1|]; [|reflexivity].
    fold loop'. rewrite IH. replace (S i + n)%nat with (i + S n)%nat by lia.
    reflexivity.
Qed.

End Turn.

(** ** A run of [optimize] *)

Section Run.

Variable this : CompatibilityOptimizer.
Variable observations : list Obs.t.
Variable iterations : nat.
Variable stepSize : Q.
Variable priorityBloodlines : list Z.
Variable onProgress : option Callback.
Variable random : nat -> Q.

Let searchAfter' := searchAfter this observations iterations stepSize
                      priorityBloodlines onProgress random.
Let iteration' := iteration this observations iterations stepSize
                    priorityBloodlines onProgress random.
Let loop' := loop this observations iterations stepSize priorityBloodlines
               onProgress random.

Lemma initialSearch_view :
  let s := initialSearch this observations in
  validRefs s /\
  currentMatrix s = matrix this /\ bestMatrix s = matrix this /\
  currentEvalOf s = evaluateError (matrix this) observations /\
  bestEvalOf s = evaluateError (matrix this) observations.
Proof.
  unfold initialSearch, alloc, validRefs, currentEvalOf, bestEvalOf.
  cbn [currentMatrix bestMatrix currentEval bestEval store length app].
  rewrite !jsonCopy_id. unfold deref. cbn [nth]. repeat split; lia.
Qed.

Lemma searchAfter_unfold (k : nat) :
  searchAfter' k
  = match nth_error (matrix this) 0 with
    | Some row0 =>
        loop' (length (matrix this)) (length row0) k 0%nat
          (initialSearch this observations)
    | None => None
    end.
Proof.
  unfold searchAfter', searchAfter.
  destruct initialSearch_view as (_ & -> & _). reflexivity.
Qed.

(** What holds at the start and is kept by every turn holds throughout. *)
Lemma searchAfter_invariant (I : Search -> Prop) :
  I (initialSearch this observations) ->
  (forall numRows numCols i s s',
     I s -> iteration' numRows numCols i s = Some s' -> I s') ->
  forall k s, searchAfter' k = Some s -> I s.
Proof.
  intros H0 Hstep k s. rewrite searchAfter_unfold.
  destruct (nth_error (matrix this) 0) as [row0|]; [|discriminate].
  apply loop_preserves; [|exact H0]. apply Hstep.
Qed.

(** The variables after [n + k] turns come from those after [n] turns. *)
Lemma searchAfter_split (n k : nat) (s2 : Search) :
  searchAfter' (n + k) = Some s2 ->
  exists s1 numRows numCols,
    searchAfter' n = Some s1 /\ loop' numRows numCols k n s1 = Some s2.
Proof.
  rewrite !searchAfter_unfold.
  destruct (nth_error (matrix this) 0) as [row0|]; [|discriminate].
  unfold loop'. rewrite loop_split. fold loop'.
  destruct (loop' _ _ n 0%nat _) as [s1|]; [|discriminate].
  intros H. exists s1, (length (matrix this)), (length row0). auto.
Qed.

(** The variables after turn [k] come from those before it by the loop body
    at index [k]. *)
Lemma searchAfter_succ (k : nat) (s' : Search) :
  searchAfter' (S k) = Some s' ->
  exists s numRows numCols,
    searchAfter' k = Some s /\ iteration' numRows numCols k s = Some s'.
Proof.
  replace (S k) with (k + 1)%nat by lia. intros H.
  apply searchAfter_split in H.
  destruct H as (s & numRows & numCols & Hs & L).
  exists s, numRows, numCols. split; [exact Hs|].
  simpl in L. fold (iteration' numRows numCols) in L.
  destruct (iteration' numRows numCols k s); [exact L | discriminate].
Qed.

Lemma searchAfter_validRefs (k : nat) (s : Search) :
  readOnly onProgress -> searchAfter' k = Some s -> validRefs s.
Proof.
  intros RO. apply searchAfter_invariant.
  - apply initialSearch_view.
  - intros numRows numCols i s0 s' V H.
    apply (iteration_view _ _ _ _ _ _ _ _ _ _ _ _ RO V H).
Qed.

Lemma loop_best (numRows numCols n i : nat) (s s' : Search) :
  readOnly onProgress -> validRefs s ->
  loop' numRows numCols n i s = Some s' ->
  penalty (bestEvalOf s') <= penalty (bestEvalOf s).
Proof.
  intros RO V H.
  apply (loop_preserves this observations iterations stepSize
           priorityBloodlines onProgress random numRows numCols
           (fun x => validRefs x /\
                     penalty (bestEvalOf x) <= penalty (bestEvalOf s)))
    in H.
  - apply H.
  - intros j x x' [Vx Hx] Hj.
    destruct (iteration_best _ _ _ _ _ _ _ _ _ _ _ _ RO Vx Hj) as [Vx' Hx'].
    split; [exact Vx' | lra].
  - split; [exact V | lra].
Qed.

Lemma optimize_inv (this' : CompatibilityOptimizer) (res : Result.t) :
  optimize this observations iterations stepSize priorityBloodlines
    onProgress random = Some (this', res) ->
  exists s, searchAfter' iterations = Some s /\
            originalMatrix this' = originalMatrix this /\
            matrix this' = bestMatrix s /\
            Result.matrix res = bestMatrix s /\
            Result.eval res = bestEvalOf s.
Proof.
  unfold optimize. fold searchAfter'.
  destruct (searchAfter' iterations) as [s|]; [|discriminate].
  intros H. injection H as <- <-. exists s. repeat split.
Qed.

End Run.

(** A callback that leaves the evaluation object alone might as well not be
    there. *)
Lemma loop_readOnly (this : CompatibilityOptimizer) (observations : list Obs.t)
    (iterations : nat) (stepSize : Q) (priorityBloodlines : list Z)
    (cb : Callback) (random : nat -> Q) (numRows numCols n i : nat)
    (s : Search) :
  readOnly (Some cb) ->
  loop this observations iterations stepSize priorityBloodlines (Some cb)
    random numRows numCols n i s
  = loop this observations iterations stepSize priorityBloodlines None
      random numRows numCols n i s.
Proof.
  intros RO. revert i s. induction n as [|n IH]; intros i s; simpl;
    [reflexivity|].
  unfold iteration.
  destruct (proposal _ _ _ _ _ _ _ _ _ _)
    as [[[[[[r c] ov] nv]|] k]|]; [| |reflexivity].
  - rewrite (notify_readOnly _ _ _ _ RO). apply IH.
  - apply IH.
Qed.

(** ** The run returns *)

Lemma randomBelow_range (u : Q) (n : nat) :
  0 <= u -> u < 1 -> (0 < n)%nat ->
  (0 <= Qfloor (u * inject_Z (Z.of_nat n)) < Z.of_nat n)%Z.
Proof.
  intros H0 H1 Hn.
  assert (HN : 0 < inject_Z (Z.of_nat n))
    by (change 0 with (inject_Z 0); rewrite <- Zlt_Qlt; lia).
  split.
  - change 0%Z with (Qfloor 0). apply Qfloor_resp_le.
    apply Qmult_le_0_compat; lra.
  - rewrite Zlt_Qlt.
    apply Qle_lt_trans with (u * inject_Z (Z.of_nat n)); [apply Qfloor_le|].
    rewrite <- (Qmult_1_l (inject_Z (Z.of_nat n))) at 2.
    apply Qmult_lt_compat_r; assumption.
Qed.

Lemma Forall_updateNth {A : Type} (P : A -> Prop) (n : nat) (g : A -> A)
    (l : list A) :
  (forall x, P x -> P (g x)) -> Forall P l -> Forall P (updateNth n g l).
Proof.
  intros Hg H. revert n. induction H as [|x l Hx Hl IH]; intros [|n]; simpl;
    constructor; auto.
Qed.

Lemma rectangular_setCell (rows cols : nat) (M : Matrix) (r c : Z) (v : Q) :
  rectangular rows cols M -> rectangular rows cols (setCell M r c v).
Proof.
  unfold rectangular, setCell. intros [H1 H2].
  destruct ((r <? 0)%Z || (c <? 0)%Z); [auto|].
  split; [rewrite updateNth_length; exact H1|].
  apply Forall_updateNth; [|exact H2].
  intros row E. rewrite updateNth_length. exact E.
Qed.

Lemma rectangular_cellAt (rows cols : nat) (M : Matrix) (r c : Z) :
  rectangular rows cols M ->
  (0 <= r < Z.of_nat rows)%Z -> (0 <= c < Z.of_nat cols)%Z ->
  exists v, cellAt M r c = Some v.
Proof.
  intros [H1 H2] Hr Hc.
  destruct (nth_error M (Z.to_nat r)) as [row|] eqn:E1;
    [|apply nth_error_None in E1; lia].
  assert (L : length row = cols).
  { rewrite Forall_forall in H2. apply H2. apply (nth_error_In _ _ E1). }
  destruct (nth_error row (Z.to_nat c)) as [v|] eqn:E2;
    [|apply nth_error_None in E2; lia].
  exists v. apply cellAt_Some. split; [lia|]. split; [lia|]. eauto.
Qed.

Section Total.

Variable this : CompatibilityOptimizer.
Variable observations : list Obs.t.
Variable iterations : nat.
Variable stepSize : Q.
Variable priorityBloodlines : list Z.
Variable onProgress : option Callback.
Variable random : nat -> Q.
Variables rows cols : nat.

Hypothesis rows_pos : (0 < rows)%nat.
Hypothesis cols_pos : (0 < cols)%nat.
Hypothesis original_shape : rectangular rows cols (originalMatrix this).
Hypothesis priority_range :
  Forall (fun p => (0 <= p < Z.of_nat rows)%Z /\ (p < Z.of_nat cols)%Z)
    priorityBloodlines.
Hypothesis random_range : forall k, 0 <= random k /\ random k < 1.

Lemma selectCell_total (i k : nat) :
  exists r c k',
    selectCell iterations priorityBloodlines random rows cols i k
    = Some ((r, c), k') /\
    (0 <= r < Z.of_nat rows)%Z /\ (0 <= c < Z.of_nat cols)%Z.
Proof.
  assert (B : forall n j, (0 < n)%nat ->
            (0 <= Qfloor (random j * inject_Z (Z.of_nat n)) < Z.of_nat n)%Z).
  { intros n j Hn. destruct (random_range j). apply randomBelow_range; auto. }
  cbv beta iota zeta delta [selectCell bind ret mathRandom randomBelow throw].
  destruct (_ && (0 <? length priorityBloodlines)%nat) eqn:U.
  - apply andb_prop in U. destruct U as [_ U]. apply Nat.ltb_lt in U.
    destruct (random k <? 0.8).
    + pose proof (B _ (S k) U) as Hj.
      set (j := Qfloor (random (S k)
                        * inject_Z (Z.of_nat (length priorityBloodlines)))) in *.
      destruct (nth_error priorityBloodlines (Z.to_nat j)) as [pIdx|] eqn:E;
        [|apply nth_error_None in E; lia].
      assert (Ej : nthZ j priorityBloodlines = Some pIdx)
        by (apply nthZ_Some; split; [lia | exact E]).
      rewrite Ej.
      assert (Hp : (0 <= pIdx < Z.of_nat rows)%Z /\ (pIdx < Z.of_nat cols)%Z).
      { rewrite Forall_forall in priority_range. apply priority_range.
        apply (nth_error_In _ _ E). }
      destruct (random (S (S k)) <? 0.5); do 3 eexists;
        (split; [reflexivity|]); split; try apply B; auto; lia.
    + do 3 eexists. split; [reflexivity|]. split; apply B; auto.
  - do 3 eexists. split; [reflexivity|]. split; apply B; auto.
Qed.

Lemma iteration_total (i : nat) (s : Search) :
  rectangular rows cols (currentMatrix s) ->
  exists s',
    iteration this observations iterations stepSize priorityBloodlines
      onProgress random rows cols i s = Some s' /\
    rectangular rows cols (currentMatrix s').
Proof.
  intros R.
  assert (E : exists s', iteration this observations iterations stepSize
                priorityBloodlines onProgress random rows cols i s = Some s').
  { cbv beta iota zeta delta [iteration proposal bind].
    destruct (selectCell_total i (draws s)) as (r & c & k' & -> & Hr & Hc).
    destruct (rectangular_cellAt _ _ _ r c R Hr Hc) as [ov ->].
    destruct (rectangular_cellAt _ _ _ r c original_shape Hr Hc) as [bv ->].
    unfold mathRandom, ret.
    destruct (proposeValue ov bv _); eexists; reflexivity. }
  destruct E as [s' E]. exists s'. split; [exact E|].
  destruct (iteration_matrices _ _ _ _ _ _ _ _ _ _ _ _ E)
    as [[-> _]|(r & c & ov & bv & ch & nv & _ & _ & _ & -> & _)];
    [exact R | apply rectangular_setCell; exact R].
Qed.

Lemma loop_total (n i : nat) (s : Search) :
  rectangular rows cols (currentMatrix s) ->
  exists s',
    loop this observations iterations stepSize priorityBloodlines
      onProgress random rows cols n i s = Some s'.
Proof.
  revert i s. induction n as [|n IH]; intros i s R; simpl.
  - eexists. reflexivity.
  - destruct (iteration_total i s R) as (s1 & -> & R1). apply IH. exact R1.
Qed.

End Total.

Lemma optimize_total (this : CompatibilityOptimizer)
    (observations : list Obs.t) (iterations : nat) (stepSize : Q)
    (priorityBloodlines : list Z) (onProgress : option Callback)
    (random : nat -> Q) :
  wellFormedRun this priorityBloodlines random ->
  exists out,
    optimize this observations iterations stepSize priorityBloodlines
      onProgress random = Some out.
Proof.
  intros (rows & cols & Hr & Hc & RM & RO & HP & HR).
  unfold optimize. rewrite searchAfter_unfold.
  assert (L : length (matrix this) = rows) by apply RM.
  destruct (nth_error (matrix this) 0) as [row0|] eqn:E;
    [|apply nth_error_None in E; lia].
  assert (L0 : length row0 = cols).
  { destruct RM as [_ F]. rewrite Forall_forall in F. apply F.
    apply (nth_error_In _ _ E). }
  rewrite L0, L.
  destruct (loop_total this observations iterations stepSize
              priorityBloodlines onProgress random rows cols Hr Hc RO HP HR
              iterations 0%nat (initialSearch this observations))
    as [s ->].
  - destruct (initialSearch_view this observations) as (_ & -> & _).
    exact RM.
  - eexists. reflexivity.
Qed.

(** ** Invariants of the two matrices *)

Lemma nonNegative_cells (M : Matrix) :
  nonNegative M = true <-> forall r c v, cellAt M r c = Some v -> 0 <= v.
Proof.
  unfold nonNegative. rewrite forallb_forall. split.
  - intros H r c v E. apply cellAt_Some in E.
    destruct E as (_ & _ & row & E1 & E2).
    apply nth_error_In in E1, E2. specialize (H row E1).
    rewrite forallb_forall in H. apply Qle_bool_iff. apply (H v E2).
  - intros H row Hrow. apply forallb_forall. intros v Hv.
    apply In_nth_error in Hrow, Hv.
    destruct Hrow as [i Ei]. destruct Hv as [j Ej].
    apply Qle_bool_iff. apply (H (Z.of_nat i) (Z.of_nat j)).
    apply cellAt_Some. split; [lia|]. split; [lia|].
    exists row. rewrite !Nat2Z.id. auto.
Qed.

Section MatrixInvariant.

Variable this : CompatibilityOptimizer.
Variable observations : list Obs.t.
Variable iterations : nat.
Variable stepSize : Q.
Variable priorityBloodlines : list Z.
Variable onProgress : option Callback.
Variable random : nat -> Q.

(** A property of matrices that every write of a proposed value keeps. *)
Variable P : Matrix -> Prop.

Hypothesis P_write :
  forall M r c ov bv change nv,
    P M -> cellAt M r c = Some ov ->
    cellAt (originalMatrix this) r c = Some bv ->
    proposeValue ov bv change = Some nv ->
    P (setCell M r c nv).

Lemma searchAfter_matrices (k : nat) (s : Search) :
  P (matrix this) ->
  searchAfter this observations iterations stepSize priorityBloodlines
    onProgress random k = Some s ->
  P (currentMatrix s) /\ P (bestMatrix s).
Proof.
  intros H0. revert k s. apply searchAfter_invariant.
  - destruct (initialSearch_view this observations) as (_ & -> & -> & _).
    auto.
  - intros numRows numCols i s s' [Hc Hb] H.
    destruct (iteration_matrices _ _ _ _ _ _ _ _ _ _ _ _ H)
      as [[-> ->]|(r & c & ov & bv & ch & nv & E1 & E2 & E3 & E4 & E5)];
      [auto|].
    assert (Hc' : P (currentMatrix s'))
      by (rewrite E4; apply (P_write _ _ _ _ _ _ _ Hc E1 E2 E3)).
    split; [exact Hc'|]. destruct E5 as [->| ->]; assumption.
Qed.

End MatrixInvariant.

(** A cell that starts inside its window is inside it in both matrices at
    every turn. *)
Lemma searchAfter_inWindow (this : CompatibilityOptimizer)
    (observations : list Obs.t) (iterations : nat) (stepSize : Q)
    (priorityBloodlines : list Z) (onProgress : option Callback)
    (random : nat -> Q) (r c : Z) (base v0 : Q) (k : nat) (s : Search) :
  cellAt (originalMatrix this) r c = Some base ->
  cellAt (matrix this) r c = Some v0 -> inWindow base v0 ->
  searchAfter this observations iterations stepSize priorityBloodlines
    onProgress random k = Some s ->
  (exists v, cellAt (currentMatrix s) r c = Some v /\ inWindow base v) /\
  (exists v, cellAt (bestMatrix s) r c = Some v /\ inWindow base v).
Proof.
  intros Eb E0 W.
  apply (searchAfter_matrices this observations iterations stepSize
           priorityBloodlines onProgress random
           (fun M => exists v, cellAt M r c = Some v /\ inWindow base v)).
  - intros M r1 c1 ov bv ch nv (v & Ev & Wv) E1 E2 E3.
    destruct (Z.eq_dec r1 r) as [->|Nr]; [destruct (Z.eq_dec c1 c) as [->|Nc]|].
    + exists nv. split; [apply (cellAt_setCell_same _ _ _ _ _ E1)|].
      rewrite Ev in E1. injection E1 as <-.
      rewrite Eb in E2. injection E2 as <-.
      apply (proposeValue_inWindow _ _ _ _ Wv E3).
    + exists v. split; [|exact Wv]. rewrite cellAt_setCell_other; auto.
    + exists v. split; [|exact Wv]. rewrite cellAt_setCell_other; auto.
  - exists v0. auto.
Qed.

Lemma searchAfter_nonNegative (this : CompatibilityOptimizer)
    (observations : list Obs.t) (iterations : nat) (stepSize : Q)
    (priorityBloodlines : list Z) (onProgress : option Callback)
    (random : nat -> Q) (k : nat) (s : Search) :
  nonNegative (originalMatrix this) = true ->
  nonNegative (matrix this) = true ->
  searchAfter this observations iterations stepSize priorityBloodlines
    onProgress random k = Some s ->
  nonNegative (currentMatrix s) = true /\ nonNegative (bestMatrix s) = true.
Proof.
  intros Ho Hm.
  apply (searchAfter_matrices this observations iterations stepSize
           priorityBloodlines onProgress random
           (fun M => nonNegative M = true)); [|exact Hm].
  intros M r c ov bv ch nv HM E1 E2 E3.
  rewrite nonNegative_cells in Ho, HM. apply nonNegative_cells.
  intros r' c' y Ey.
  destruct (cellAt_setCell_inv _ _ _ _ _ _ _ Ey) as [(_ & _ & -> & _)|[_ Ey']].
  - apply (proposeValue_nonneg ov bv ch nv); [|exact E3]. apply (Ho r c bv E2).
  - apply (HM r' c' y Ey').
Qed.

(** With no observation the best snapshot is never replaced. *)
Lemma searchAfter_no_observations (this : CompatibilityOptimizer)
    (iterations : nat) (stepSize : Q) (priorityBloodlines : list Z)
    (onProgress : option Callback) (random : nat -> Q) (k : nat) (s : Search) :
  readOnly onProgress ->
  searchAfter this [] iterations stepSize priorityBloodlines onProgress
    random k = Some s ->
  validRefs s /\ bestMatrix s = matrix this /\ bestEvalOf s = mkEval 0 0.
Proof.
  intros RO. revert k s. apply searchAfter_invariant.
  - destruct (initialSearch_view this []) as (V & _ & B & _ & E).
    repeat split; try apply V; assumption.
  - intros numRows numCols i s s' (V & B & E) H.
    destruct (iteration_view _ _ _ _ _ _ _ _ _ _ _ _ RO V H) as [V' C].
    split; [exact V'|].
    destruct (proposal _ _ _ _ _ _ _ _ _ _)
      as [[[[[[r c] ov] nv]|] k]|]; [| |contradiction].
    + subst s'. destruct (acceptOrRevert_view [] s r c ov nv k V) as [_ A].
      cbv zeta in A. rewrite E in A.
      change (penalty (evaluateError (setCell (currentMatrix s) r c nv) []))
        with 0 in A.
      change (0 <? penalty (mkEval 0 0)) with false in A.
      destruct (0 <=? _).
      * destruct A as (_ & _ & -> & ->). auto.
      * destruct A as (_ & _ & -> & ->). auto.
    + destruct C as (_ & -> & _ & ->). auto.
Qed.

(** ** The claims about the search *)

(** C3.  In a turn that writes a proposed value [nv] into cell [(r, c)] and
    evaluates the matrix again: if the new penalty is at most the current one
    the written matrix and its evaluation are kept, and they become the best
    ones exactly when the new penalty is below the best penalty; if the new
    penalty is above the current one, cell [(r, c)] gets its old value back,
    no other cell changes, and the evaluations and the best matrix stay. *)
Theorem acceptance_rule (this : CompatibilityOptimizer)
    (observations : list Obs.t) (iterations : nat) (stepSize : Q)
    (priorityBloodlines : list Z) (onProgress : option Callback)
    (random : nat -> Q) (numRows numCols i : nat) (s s' : Search)
    (r c : Z) (ov nv : Q) (k : nat) :
  readOnly onProgress -> validRefs s ->
  proposal this iterations stepSize priorityBloodlines random numRows numCols
    i (currentMatrix s) (draws s) = Some (Some (r, c, ov, nv), k) ->
  iteration this observations iterations stepSize priorityBloodlines
    onProgress random numRows numCols i s = Some s' ->
  let trial := setCell (currentMatrix s) r c nv in
  let newEval := evaluateError trial observations in
  (penalty newEval <= penalty (currentEvalOf s) ->
   currentMatrix s' = trial /\ currentEvalOf s' = newEval /\
   (penalty newEval < penalty (bestEvalOf s) ->
    bestMatrix s' = trial /\ bestEvalOf s' = newEval) /\
   (penalty (bestEvalOf s) <= penalty newEval ->
    bestMatrix s' = bestMatrix s /\ bestEvalOf s' = bestEvalOf s))
  /\
  (penalty (currentEvalOf s) < penalty newEval ->
   cellAt (currentMatrix s') r c = Some ov /\
   (forall r' c', r' <> r \/ c' <> c ->
      cellAt (currentMatrix s') r' c' = cellAt trial r' c') /\
   currentMatrix s' = currentMatrix s /\
   currentEvalOf s' = currentEvalOf s /\
   bestMatrix s' = bestMatrix s /\ bestEvalOf s' = bestEvalOf s).
Proof.
  intros RO V P H trial newEval.
  destruct (iteration_view _ _ _ _ _ _ _ _ _ _ _ _ RO V H) as [_ C].
  rewrite P in C. subst s'.
  destruct (proposal_inv _ _ _ _ _ _ _ _ _ _ _ _ _ _ _ P) as [E1 _].
  destruct (acceptOrRevert_view observations s r c ov nv k V) as [_ A].
  cbv zeta in A. fold trial in A. fold newEval in A.
  set (s' := acceptOrRevert observations s r c ov nv k) in *.
  destruct (penalty newEval <=? penalty (currentEvalOf s)) eqn:Le.
  - apply Qle_bool_iff in Le. destruct A as (A1 & A2 & A3).
    split; [|intros; lra]. intros _. split; [exact A1|]. split; [exact A2|].
    cmp (penalty newEval) (penalty (bestEvalOf s)); split; intros; auto; lra.
  - apply Qleb_gt in Le. destruct A as (A1 & A2 & A3 & A4).
    split; [intros; lra|]. intros _.
    assert (R : currentMatrix s' = currentMatrix s)
      by (rewrite A1; apply (setCell_revert _ _ _ _ _ E1)).
    split; [rewrite R; exact E1|].
    split; [|auto].
    intros r' c' N. rewrite R. unfold trial.
    rewrite cellAt_setCell_other; auto.
Qed.

Lemma acceptance_rule_witness :
  let s := initialSearch (constructor [[0]]) [sampleObservation CROWN] in
  let s' := acceptOrRevert [sampleObservation CROWN] s 0 0 0 0.5 3 in
  currentMatrix s' = setCell (currentMatrix s) 0 0 0.5 /\
  bestMatrix s' = setCell (currentMatrix s) 0 0 0.5.
Proof.
  intros s s'.
  destruct (acceptance_rule (constructor [[0]]) [sampleObservation CROWN]
              1 0.5 [] None alwaysUp 1 1 0 s s' 0 0 0 0.5 3) as [A _].
  - exact I.
  - unfold validRefs. simpl. lia.
  - vm_compute. reflexivity.
  - vm_compute. reflexivity.
  - destruct A as (A1 & _ & A3 & _).
    + vm_compute. discriminate.
    + split; [exact A1|]. apply A3. vm_compute. reflexivity.
Defined.

(** C4.  A cell whose starting value lies in the window
    [[minLimit, maxLimit]] the code computes from its original value holds,
    in the matrix [optimize] returns, a value of that window.  For such a
    cell the perturbed value is written where it lies in the window, and the
    turn is left by [continue] where it does not.  In general the turn is
    left where the perturbed value is below [minLimit] and below the current
    value, or above [maxLimit] and above the current value, and another
    perturbed value outside the window is replaced by the bound it is beyond.
    On a well-formed run [optimize] returns. *)
Theorem motion_window (this : CompatibilityOptimizer)
    (observations : list Obs.t) (iterations : nat) (stepSize : Q)
    (priorityBloodlines : list Z) (onProgress : option Callback)
    (random : nat -> Q) :
  (forall this' res r c base v0,
     optimize this observations iterations stepSize priorityBloodlines
       onProgress random = Some (this', res) ->
     cellAt (originalMatrix this) r c = Some base ->
     cellAt (matrix this) r c = Some v0 ->
     inWindow base v0 ->
     exists vf, cellAt (Result.matrix res) r c = Some vf /\ inWindow base vf)
  /\
  (forall current base change,
     let nv := perturbed current change in
     inWindow base current ->
     (inWindow base nv -> proposeValue current base change = Some nv) /\
     (~ inWindow base nv -> proposeValue current base change = None))
  /\
  (forall current base change,
     let nv := perturbed current change in
     let rejected :=
       (nv < minLimitOf base /\ nv < current) \/
       (maxLimitOf base < nv /\ current < nv) in
     (rejected -> proposeValue current base change = None) /\
     (~ rejected -> minLimitOf base <= maxLimitOf base ->
      proposeValue current base change = Some (nearest base nv)))
  /\
  (wellFormedRun this priorityBloodlines random ->
   exists out,
     optimize this observations iterations stepSize priorityBloodlines
       onProgress random = Some out).
Proof.
  assert (G : forall current base change,
     let nv := perturbed current change in
     let rejected :=
       (nv < minLimitOf base /\ nv < current) \/
       (maxLimitOf base < nv /\ current < nv) in
     (rejected -> proposeValue current base change = None) /\
     (~ rejected -> minLimitOf base <= maxLimitOf base ->
      proposeValue current base change = Some (nearest base nv))).
  { intros current base change nv rejected. subst rejected.
    pose proof (proposeValue_cases current base change) as C. cbv zeta in C.
    fold nv in C.
    destruct (proposeValue current base change) as [v|].
    - destruct C as (N1 & N2 & ->). split; [tauto|].
      intros _ Hw. unfold nearest.
      cmp (maxLimitOf base) (minLimitOf base); [lra|]. reflexivity.
    - split; [reflexivity | tauto]. }
  split; [|split; [|split]].
  - intros this' res r c base v0 H Eb E0 W.
    apply optimize_inv in H. destruct H as (s & Hs & _ & _ & -> & _).
    destruct (searchAfter_inWindow _ _ _ _ _ _ _ _ _ _ _ _ _ Eb E0 W Hs)
      as [_ (vf & Ev & Wv)].
    exists vf. split; [exact Ev | exact Wv].
  - intros current base change nv [W1 W2].
    destruct (G current base change) as [G1 G2]. fold nv in G1, G2.
    split.
    + intros [V1 V2]. rewrite G2 by lra.
      unfold nearest.
      cmp nv (minLimitOf base); [lra|].
      cmp (maxLimitOf base) nv; [lra|]. reflexivity.
    + intros N. apply G1. unfold inWindow in N.
      destruct (Qlt_le_dec nv (minLimitOf base)) as [L|L]; [left; lra|].
      destruct (Qlt_le_dec (maxLimitOf base) nv) as [U|U]; [right; lra|].
      exfalso. apply N. split; assumption.
  - exact G.
  - apply optimize_total.
Qed.

Lemma motion_window_witness :
  exists out vf,
    optimize (constructor [[0]]) [sampleObservation CROWN] 50 0.5 [] None
      alwaysUp = Some out /\
    cellAt (Result.matrix (snd out)) 0 0 = Some vf /\ inWindow 0 vf.
Proof.
  destruct (motion_window (constructor [[0]]) [sampleObservation CROWN] 50 0.5
              [] None alwaysUp) as (A & _ & _ & T).
  destruct T as [[this' res] E].
  - exists 1%nat, 1%nat. unfold rectangular, alwaysUp. simpl.
    repeat split; try lia; try lra; repeat constructor.
  - destruct (A this' res 0%Z 0%Z 0 0 E) as (vf & E1 & E2).
    + reflexivity.
    + reflexivity.
    + unfold inWindow. vm_compute. split; discriminate.
    + exists (this', res), vf. auto.
Defined.

(** C4, as stated, fails.  In binary64 the upper bound the code computes for
    the original value 12.2 is the number next above 32.2: a cell that starts
    at 12.2 and is moved up by 0.5 at every turn ends on that bound, more than
    20 above the original value, in exact terms and by the program's own
    subtraction and comparison.  And further outside is not what the code
    tests: from 130, which lies 10 above the window of the original value 100,
    a move to 75, which lies 5 below it, is left by [continue], not clamped. *)
Lemma motion_limit_exceeds_20 :
  exists out vf q0 qf,
    Binary64.optimize (Binary64.constructor [[Binary64.sampleValue]])
      [Binary64.sampleObservation CROWN] 60 Binary64.sampleStep []
      Binary64.alwaysUp = Some out /\
    Binary64.cellAt (Binary64.Result.matrix (snd out)) 0 0 = Some vf /\
    Binary64.toQ Binary64.sampleValue = Some q0 /\
    Binary64.toQ vf = Some qf /\
    Qmax 0 (q0 - 20) <= q0 /\ q0 <= q0 + 20 /\
    20 < Qabs (qf - q0) /\
    PrimFloat.leb (PrimFloat.abs (PrimFloat.sub vf Binary64.sampleValue))
      Binary64.MOTION_LIMIT = false /\
    Binary64.proposeValue 130 100 (-55) = None /\
    Binary64.minLimitOf 100 = 80%float /\
    Binary64.maxLimitOf 100 = 120%float.
Proof.
  do 4 eexists.
  split; [vm_compute; reflexivity|].
  split; [vm_compute; reflexivity|].
  split; [vm_compute; reflexivity|].
  split; [vm_compute; reflexivity|].
  split; [vm_compute; discriminate|].
  split; [vm_compute; discriminate|].
  split; [vm_compute; reflexivity|].
  repeat split; vm_compute; reflexivity.
Qed.

(** C5.  With a callback that leaves the evaluation object alone (or none),
    the evaluation [optimize] returns has a penalty at most that of the
    starting matrix, and the penalty [bestEval] refers to never goes up from
    one turn to a later one.  On a well-formed run [optimize] returns. *)
Theorem best_penalty_monotone (this : CompatibilityOptimizer)
    (observations : list Obs.t) (iterations : nat) (stepSize : Q)
    (priorityBloodlines : list Z) (onProgress : option Callback)
    (random : nat -> Q) :
  readOnly onProgress ->
  (forall this' res,
     optimize this observations iterations stepSize priorityBloodlines
       onProgress random = Some (this', res) ->
     penalty (Result.eval res)
     <= penalty (evaluateError (matrix this) observations))
  /\
  (forall k1 k2 s1 s2, (k1 <= k2)%nat ->
     searchAfter this observations iterations stepSize priorityBloodlines
       onProgress random k1 = Some s1 ->
     searchAfter this observations iterations stepSize priorityBloodlines
       onProgress random k2 = Some s2 ->
     penalty (bestEvalOf s2) <= penalty (bestEvalOf s1))
  /\
  (wellFormedRun this priorityBloodlines random ->
   exists out,
     optimize this observations iterations stepSize priorityBloodlines
       onProgress random = Some out).
Proof.
  intros RO.
  assert (M : forall k1 k2 s1 s2, (k1 <= k2)%nat ->
     searchAfter this observations iterations stepSize priorityBloodlines
       onProgress random k1 = Some s1 ->
     searchAfter this observations iterations stepSize priorityBloodlines
       onProgress random k2 = Some s2 ->
     penalty (bestEvalOf s2) <= penalty (bestEvalOf s1)).
  { intros k1 k2 s1 s2 Hk H1 H2.
    replace k2 with (k1 + (k2 - k1))%nat in H2 by lia.
    apply searchAfter_split in H2.
    destruct H2 as (s1' & numRows & numCols & H1' & L).
    rewrite H1 in H1'. injection H1' as <-.
    apply (loop_best _ _ _ _ _ _ _ _ _ _ _ _ _ RO
             (searchAfter_validRefs _ _ _ _ _ _ _ _ _ RO H1) L). }
  split; [|split; [exact M | apply optimize_total]].
  intros this' res H. apply optimize_inv in H.
  destruct H as (s & Hs & _ & _ & _ & ->).
  destruct (initialSearch_view this observations) as (_ & _ & _ & _ & <-).
  apply (M 0%nat iterations (initialSearch this observations) s);
    [lia | | exact Hs].
  rewrite searchAfter_unfold in Hs |- *.
  destruct (nth_error (matrix this) 0); [reflexivity | discriminate].
Qed.

Lemma best_penalty_monotone_witness :
  exists out,
    optimize (constructor [[0]]) [sampleObservation CROWN] 3 0.5 [] None
      alwaysUp = Some out /\
    penalty (Result.eval (snd out))
    <= penalty (evaluateError [[0]] [sampleObservation CROWN]).
Proof.
  destruct (best_penalty_monotone (constructor [[0]])
              [sampleObservation CROWN] 3 0.5 [] None alwaysUp I)
    as (A & _ & T).
  destruct T as [[this' res] E].
  - exists 1%nat, 1%nat. unfold rectangular, alwaysUp. simpl.
    repeat split; try lia; try lra; repeat constructor.
  - exists (this', res). split; [exact E | apply (A this' res E)].
Defined.

(** C6.  With no negative entry in the original matrix and none in the
    starting matrix, no entry of the working matrix or of the best matrix is
    negative after any number of turns, none is in the matrix returned and
    retained, and the original matrix is the one it was.  The perturbed value
    and the lower bound of the window are never negative. *)
Theorem entries_nonNegative (this : CompatibilityOptimizer)
    (observations : list Obs.t) (iterations : nat) (stepSize : Q)
    (priorityBloodlines : list Z) (onProgress : option Callback)
    (random : nat -> Q) :
  nonNegative (originalMatrix this) = true ->
  nonNegative (matrix this) = true ->
  (forall k s,
     searchAfter this observations iterations stepSize priorityBloodlines
       onProgress random k = Some s ->
     nonNegative (currentMatrix s) = true /\
     nonNegative (bestMatrix s) = true)
  /\
  (forall this' res,
     optimize this observations iterations stepSize priorityBloodlines
       onProgress random = Some (this', res) ->
     nonNegative (Result.matrix res) = true /\
     nonNegative (matrix this') = true /\
     originalMatrix this' = originalMatrix this)
  /\
  (forall current change, 0 <= perturbed current change) /\
  (forall base, 0 <= minLimitOf base).
Proof.
  intros Ho Hm. split; [|split; [|split]].
  - intros k s. apply searchAfter_nonNegative; assumption.
  - intros this' res H. apply optimize_inv in H.
    destruct H as (s & Hs & -> & -> & -> & _).
    destruct (searchAfter_nonNegative _ _ _ _ _ _ _ _ _ Ho Hm Hs) as [_ B].
    auto.
  - apply perturbed_nonneg.
  - intros base. destruct (minLimitOf_cases base) as [[_ ->]|[? ->]]; lra.
Qed.

Lemma entries_nonNegative_witness :
  exists out,
    optimize (constructor [[0]]) [sampleObservation CROWN] 3 0.5 [] None
      alwaysDown = Some out /\
    nonNegative (Result.matrix (snd out)) = true.
Proof.
  destruct (entries_nonNegative (constructor [[0]]) [sampleObservation CROWN]
              3 0.5 [] None alwaysDown) as (_ & A & _).
  - reflexivity.
  - reflexivity.
  - eexists. split; [vm_compute; reflexivity|].
    apply (A (mkOptimizer [[0]] [[0]])). vm_compute. reflexivity.
Defined.

(** C7.  With [iterations = 0] and a matrix that has a first row, [optimize]
    returns the starting matrix and its evaluation, and retains that matrix;
    nothing is drawn and no callback runs. *)
Theorem optimize_zero_iterations (this : CompatibilityOptimizer)
    (observations : list Obs.t) (stepSize : Q) (priorityBloodlines : list Z)
    (onProgress : option Callback) (random : nat -> Q) :
  matrix this <> [] ->
  optimize this observations 0 stepSize priorityBloodlines onProgress random
  = Some ({| originalMatrix := originalMatrix this; matrix := matrix this |},
          Result.mk (matrix this) (evaluateError (matrix this) observations)).
Proof.
  intros H. unfold optimize. rewrite searchAfter_unfold.
  destruct (matrix this) as [|row0 rest] eqn:E; [contradiction|].
  cbn [nth_error loop]. rewrite <- E.
  destruct (initialSearch_view this observations) as (_ & _ & -> & _ & B).
  unfold bestEvalOf in B. rewrite B. reflexivity.
Qed.

Lemma optimize_zero_iterations_witness :
  optimize (constructor [[0]]) [sampleObservation CROSS] 0 0.5 [] None alwaysUp
  = Some ({| originalMatrix := [[0]]; matrix := [[0]] |},
          Result.mk [[0]] (evaluateError [[0]] [sampleObservation CROSS])).
Proof.
  apply (optimize_zero_iterations (constructor [[0]])
           [sampleObservation CROSS] 0.5 [] None alwaysUp).
  simpl. discriminate.
Defined.

(** ** The run in its host *)

Lemma host_evaluateError (M : Matrix) (observations : list Obs.t) :
  Host.evaluateError symbolRanges M observations = evaluateError M observations.
Proof. reflexivity. Qed.

Lemma proposal_original (this this' : CompatibilityOptimizer)
    (iterations : nat) (stepSize : Q) (priorityBloodlines : list Z)
    (random : nat -> Q) (numRows numCols i : nat) (M : Matrix) (k : nat) :
  originalMatrix this = originalMatrix this' ->
  proposal this iterations stepSize priorityBloodlines random numRows numCols
    i M k
  = proposal this' iterations stepSize priorityBloodlines random numRows
      numCols i M k.
Proof.
  intros E. unfold proposal. rewrite E. reflexivity.
Qed.

Section HostRun.

Context {H : Type}.
Variable this : CompatibilityOptimizer.
Variable observations : list Obs.t.
Variable iterations : nat.
Variable stepSize : Q.
Variable priorityBloodlines : list Z.
Variable random : nat -> Q.
Variable onProgress : option (Host.Callback H).

Lemma host_iteration (numRows numCols i : nat)
    (st : Host.Locals * Host.World H) (s : Search) :
  Host.inert onProgress -> tracks this observations priorityBloodlines random st s ->
  match Host.iteration iterations stepSize onProgress numRows numCols i st,
        iteration this observations iterations stepSize priorityBloodlines
          None random numRows numCols i s with
  | Some st', Some s' => tracks this observations priorityBloodlines random st' s'
  | None, None => True
  | _, _ => False
  end.
Proof.
  intros HI T. destruct st as [l w].
  destruct T as (T1 & T2 & T3 & T4 & T5 & T6 & T7 & T8 & T9 & T10 & T11).
  cbn [fst snd] in *.
  unfold Host.iteration, iteration.
  rewrite T8, T11, T1, T5.
  rewrite (proposal_original
             (mkOptimizer (Host.thisOriginalMatrix w) (Host.thisMatrix w))
             this) by exact T9.
  destruct (proposal this iterations stepSize priorityBloodlines random
              numRows numCols i (currentMatrix s) (draws s))
    as [[[[[[r c] ov] nv]|] k]|]; [| |exact I].
  - assert (A : tracks this observations priorityBloodlines random (Host.acceptOrRevert l w r c ov nv k)
                  (acceptOrRevert observations s r c ov nv k)).
    { unfold Host.acceptOrRevert, acceptOrRevert, alloc, tracks.
      rewrite T1, T2, T4, T6, T7, T10, host_evaluateError, T3.
      destruct (_ <=? _); [destruct (_ <? _)|]; cbn [fst snd];
        cbn; repeat split; assumption. }
    destruct (Host.acceptOrRevert l w r c ov nv k) as [l1 w1].
    change (notify iterations None i
              (acceptOrRevert observations s r c ov nv k))
      with (acceptOrRevert observations s r c ov nv k).
    set (s1 := acceptOrRevert observations s r c ov nv k) in *.
    unfold Host.notify. destruct onProgress as [cb|]; [|exact A].
    destruct (i mod 50 =? 0)%nat; [|exact A].
    destruct (HI i iterations (Host.currentEval l1) w1)
      as (w' & -> & K1 & K2 & K3 & K4 & K5 & K6).
    destruct A as (A1 & A2 & A3 & A4 & A5 & A6 & A7 & A8 & A9 & A10 & A11).
    cbn [fst snd] in *. unfold tracks. cbn [fst snd Host.currentMatrix
      Host.currentEval Host.bestMatrix Host.bestEval Host.draws].
    repeat split; congruence.
  - unfold tracks. cbn. repeat split; assumption.
Qed.

Lemma host_loop (numRows numCols n i : nat)
    (st : Host.Locals * Host.World H) (s : Search) :
  Host.inert onProgress -> tracks this observations priorityBloodlines random st s ->
  match Host.loop iterations stepSize onProgress numRows numCols n i st,
        loop this observations iterations stepSize priorityBloodlines
          None random numRows numCols n i s with
  | Some st', Some s' => tracks this observations priorityBloodlines random st' s'
  | None, None => True
  | _, _ => False
  end.
Proof.
  intros HI. revert i st s.
  induction n as [|n IH]; intros i st s T; cbn [Host.loop loop];
    [exact T|].
  pose proof (host_iteration numRows numCols i st s HI T) as S1.
  destruct (Host.iteration iterations stepSize onProgress numRows numCols i st)
    as [st1|];
    destruct (iteration this observations iterations stepSize
                priorityBloodlines None random numRows numCols i s) as [s1|];
    try contradiction; [|exact I].
  apply IH. exact S1.
Qed.

(** Whatever the callback does, it is called only at indices divisible by 50
    of the turns made. *)
Lemma host_loop_calls (numRows numCols n i : nat)
    (st st' : Host.Locals * Host.World H) :
  Host.loop iterations stepSize onProgress numRows numCols n i st = Some st' ->
  exists more,
    Host.notified (fst st') = Host.notified (fst st) ++ more /\
    Forall (fun j => j mod 50 = 0 /\ i <= j < i + n)%nat more.
Proof.
  revert i st. induction n as [|n IH]; intros i st; cbn [Host.loop].
  - intros E. injection E as <-. exists []. rewrite app_nil_r.
    split; [reflexivity | constructor].
  - destruct (Host.iteration iterations stepSize onProgress numRows numCols
                i st) as [st1|] eqn:E1; [|discriminate].
    intros E. destruct (IH _ _ E) as (more & M1 & M2).
    assert (S1 : exists first,
               Host.notified (fst st1) = Host.notified (fst st) ++ first /\
               Forall (fun j => j mod 50 = 0 /\ i <= j < i + S n)%nat first).
    { destruct st as [l w]. unfold Host.iteration in E1.
      destruct (proposal _ _ _ _ _ _ _ _ _ _)
        as [[[[[[r c] ov] nv]|] k]|]; [| |discriminate].
      - assert (A : Host.notified
                      (fst (Host.acceptOrRevert l w r c ov nv k))
                    = Host.notified l).
        { unfold Host.acceptOrRevert, alloc.
          destruct (_ <=? _); [destruct (_ <? _)|]; reflexivity. }
        destruct (Host.acceptOrRevert l w r c ov nv k) as [l1 w1].
        cbn [fst] in A. unfold Host.notify in E1.
        destruct onProgress as [cb|].
        + destruct (i mod 50 =? 0)%nat eqn:D.
          * destruct (cb i iterations (Host.currentEval l1) w1) as [w'|];
              [|discriminate].
            injection E1 as <-. exists [i]. cbn [fst Host.notified].
            rewrite A. split; [reflexivity|].
            constructor; [|constructor].
            apply Nat.eqb_eq in D. lia.
          * injection E1 as <-. exists []. cbn [fst]. rewrite A, app_nil_r.
            split; [reflexivity | constructor].
        + injection E1 as <-. exists []. cbn [fst]. rewrite A, app_nil_r.
          split; [reflexivity | constructor].
      - injection E1 as <-. exists []. cbn [fst Host.notified].
        rewrite app_nil_r. split; [reflexivity | constructor]. }
    destruct S1 as (first & F1 & F2).
    exists (first ++ more). rewrite M1, F1, app_assoc.
    split; [reflexivity|].
    apply Forall_app. split; [exact F2|].
    eapply Forall_impl; [|exact M2]. cbv beta. intros j. lia.
Qed.

End HostRun.

(** C9.  A callback that returns, and that together with what the host runs
    during the await leaves alone what the run goes on reading (the
    evaluation objects handed over, the observations, the priority list, the
    original matrix and the table of ranges of the optimizer, the random
    numbers to come), does not alter what [optimize] returns: with it, as
    without any, the call returns what the run without callback returns, or
    fails where that one fails.  Whatever the callback does, it is called only
    at iteration indices divisible by 50, and not in a turn that the motion
    limit leaves by [continue]; the optimizer retains the returned matrix.
    On a well-formed run [optimize] returns. *)
Theorem inert_callback_same_outcome {H : Type}
    (this : CompatibilityOptimizer) (observations : list Obs.t)
    (iterations : nat) (stepSize : Q) (priorityBloodlines : list Z)
    (random : nat -> Q) (h : H) (onProgress : option (Host.Callback H)) :
  (Host.inert onProgress ->
   option_map Host.returned
     (Host.optimize iterations stepSize onProgress
        (Host.worldOf this observations priorityBloodlines random h))
   = option_map snd
       (optimize this observations iterations stepSize priorityBloodlines
          None random))
  /\
  (forall out,
     Host.optimize iterations stepSize onProgress
       (Host.worldOf this observations priorityBloodlines random h)
     = Some out ->
     Forall (fun i => i mod 50 = 0 /\ i < iterations)%nat (Host.calls out) /\
     Host.thisMatrix (Host.world out) = Result.matrix (Host.returned out))
  /\
  (forall numRows numCols i l w k,
     proposal (mkOptimizer (Host.thisOriginalMatrix w) (Host.thisMatrix w))
       iterations stepSize (Host.priorityBloodlines w) (Host.random w)
       numRows numCols i (Host.currentMatrix l) (Host.draws l)
     = Some (None, k) ->
     exists l',
       Host.iteration iterations stepSize onProgress numRows numCols i (l, w)
       = Some (l', w) /\
       Host.notified l' = Host.notified l)
  /\
  (Host.inert onProgress ->
   wellFormedRun this priorityBloodlines random ->
   exists out,
     Host.optimize iterations stepSize onProgress
       (Host.worldOf this observations priorityBloodlines random h)
     = Some out).
Proof.
  assert (A : Host.inert onProgress ->
   option_map Host.returned
     (Host.optimize iterations stepSize onProgress
        (Host.worldOf this observations priorityBloodlines random h))
   = option_map snd
       (optimize this observations iterations stepSize priorityBloodlines
          None random)).
  { intros HI. unfold Host.optimize, optimize. rewrite searchAfter_unfold.
    unfold Host.initial, Host.worldOf, alloc.
    cbn [Host.currentMatrix Host.thisMatrix Host.evals Host.thisSymbolRanges
         Host.observations].
    rewrite jsonCopy_id.
    destruct (nth_error (matrix this) 0) as [row0|]; [|reflexivity].
    match goal with
    | |- context [Host.loop _ _ _ ?nr ?nc _ _ ?st] =>
        pose proof (host_loop this observations iterations stepSize
                      priorityBloodlines random onProgress nr nc iterations 0
                      st (initialSearch this observations) HI) as S1
    end.
    match type of S1 with
    | ?T -> _ => assert (T0 : T)
    end.
    { unfold tracks, initialSearch, alloc. cbn. rewrite !jsonCopy_id.
      repeat split; reflexivity. }
    specialize (S1 T0).
    destruct (Host.loop _ _ _ _ _ _ _ _) as [[l' w']|];
      destruct (loop _ _ _ _ _ _ _ _ _ _ _ _) as [s'|];
      try contradiction; [|reflexivity].
    destruct S1 as (_ & _ & T3 & T4 & _ & T6 & _). cbn [fst snd] in *.
    cbn [option_map Host.returned snd]. rewrite T3, T4, T6. reflexivity. }
  split; [exact A|]. split; [|split].
  - intros out E. unfold Host.optimize in E.
    destruct (Host.initial _) as [l0 w0] eqn:E0.
    destruct (nth_error (Host.currentMatrix l0) 0) as [row0|]; [|discriminate].
    destruct (Host.loop _ _ _ _ _ _ _ _) as [[l' w']|] eqn:EL; [|discriminate].
    injection E as <-. cbn [Host.calls Host.world Host.returned
      Host.withMatrix Host.thisMatrix Result.matrix].
    split; [|reflexivity].
    destruct (host_loop_calls _ _ _ _ _ _ _ _ _ EL) as (more & M1 & M2).
    cbn [fst] in M1.
    assert (N0 : Host.notified l0 = []).
    { unfold Host.initial, alloc in E0. injection E0 as <- _. reflexivity. }
    rewrite M1, N0. cbn [app].
    eapply Forall_impl; [|exact M2]. cbv beta. intros j. lia.
  - intros numRows numCols i l w k E. unfold Host.iteration. rewrite E.
    eexists. split; reflexivity.
  - intros HI W.
    destruct (optimize_total this observations iterations stepSize
                priorityBloodlines None random W) as [out E].
    specialize (A HI). rewrite E in A.
    destruct (Host.optimize _ _ _ _) as [o|]; [|discriminate].
    exists o. reflexivity.
Qed.

Lemma inert_callback_same_outcome_witness :
  Host.inert (Some Host.count) /\
  option_map Host.returned
    (Host.optimize 101 0.5 (Some Host.count)
       (Host.worldOf (constructor [[0]]) [sampleObservation CROWN] []
          alwaysUp 0%nat))
  = option_map snd
      (optimize (constructor [[0]]) [sampleObservation CROWN] 101 0.5 []
         None alwaysUp).
Proof.
  assert (HI : Host.inert (Some Host.count)).
  { intros i n ev w. eexists. split; [reflexivity|].
    unfold Host.keepsInputs. cbn. repeat split; reflexivity. }
  split; [exact HI|].
  apply (inert_callback_same_outcome (constructor [[0]])
           [sampleObservation CROWN] 101 0.5 [] alwaysUp 0%nat
           (Some Host.count)).
  exact HI.
Defined.

(** C9, as stated, fails.  On the matrix [[[0]]] with one top-tier
    observation, steps of 0.5 and upward moves only: a callback that writes
    to the evaluation object it is handed, one that empties the observations
    array, and one that throws, each change what a call of two turns returns
    (the last one leaves it without a result); and a call of 101 turns calls
    the callback at index 0 only, the turns 50 and 100 being left by
    [continue]. *)
Lemma callback_alters_outcome :
  exists a b c va vb,
    option_map Host.returned (Host.optimize 2 0.5 None (crownWorld tt))
      = Some a /\
    option_map Host.returned
      (Host.optimize 2 0.5 (Some Host.spoil) (crownWorld tt)) = Some b /\
    option_map Host.returned
      (Host.optimize 2 0.5 (Some Host.forget) (crownWorld tt)) = Some c /\
    penalty (Result.eval a) == 184041 /\
    penalty (Result.eval b) == -1 /\
    penalty (Result.eval c) == 0 /\
    cellAt (Result.matrix a) 0 0 = Some va /\ va == 1 /\
    cellAt (Result.matrix b) 0 0 = Some vb /\ vb == 0.5 /\
    Host.optimize 2 0.5 (Some Host.fail) (crownWorld tt) = None /\
    option_map Host.calls
      (Host.optimize 101 0.5 (Some Host.count) (crownWorld 0%nat))
      = Some [0%nat].
Proof.
  do 5 eexists.
  repeat (split; [vm_compute; reflexivity|]).
  vm_compute; reflexivity.
Qed.

(** When the callback runs: in a turn left by [continue] it does not, even at
    an index divisible by 50; in a turn that writes a value it is handed the
    object [currentEval] refers to, at the indices divisible by 50. *)
Remark notification_schedule (this : CompatibilityOptimizer)
    (observations : list Obs.t) (iterations : nat) (stepSize : Q)
    (priorityBloodlines : list Z) (cb : Callback) (random : nat -> Q)
    (numRows numCols i : nat) (s s' : Search) :
  iteration this observations iterations stepSize priorityBloodlines
    (Some cb) random numRows numCols i s = Some s' ->
  match proposal this iterations stepSize priorityBloodlines random
          numRows numCols i (currentMatrix s) (draws s) with
  | Some (None, _) => store s' = store s
  | Some (Some (r, c, ov, nv), k) =>
      let s1 := acceptOrRevert observations s r c ov nv k in
      store s' = if (i mod 50 =? 0)%nat
                 then assign (store s1) (currentEval s1)
                        (cb i iterations (currentEvalOf s1))
                 else store s1
  | None => False
  end.
Proof.
  unfold iteration.
  destruct (proposal _ _ _ _ _ _ _ _ _ _)
    as [[[[[[r c] ov] nv]|] k]|]; [| |discriminate].
  - intros H. cbv zeta.
    set (s1 := acceptOrRevert observations s r c ov nv k) in *.
    assert (E : s' = notify iterations (Some cb) i s1) by congruence.
    rewrite E. unfold notify.
    destruct (Nat.eqb (i mod 50) 0); reflexivity.
  - intros H. injection H as <-. reflexivity.
Qed.

(** The callback is handed the object that [currentEval] (and here
    [bestEval] too) refers to, and a callback that writes to it changes both
    the matrix and the evaluation returned. *)
Lemma mutating_callback_alters_outcome :
  exists a b va vb,
    optimize (constructor [[0]]) [sampleObservation CROWN] 2 0.5 []
      None alwaysUp = Some a /\
    optimize (constructor [[0]]) [sampleObservation CROWN] 2 0.5 []
      (Some spoil) alwaysUp = Some b /\
    cellAt (Result.matrix (snd a)) 0 0 = Some va /\
    cellAt (Result.matrix (snd b)) 0 0 = Some vb /\
    ~ va == vb /\
    ~ penalty (Result.eval (snd a)) == penalty (Result.eval (snd b)).
Proof.
  do 4 eexists.
  split; [vm_compute; reflexivity|].
  split; [vm_compute; reflexivity|].
  split; [vm_compute; reflexivity|].
  split; [vm_compute; reflexivity|].
  split; vm_compute; discriminate.
Qed.

(** C10.  With an empty observation list and a callback that leaves the
    evaluation object alone (or none), [optimize] returns the starting matrix
    and the evaluation with penalty 0 and no contradiction, and retains the
    starting matrix.  On a well-formed run [optimize] returns. *)
Theorem optimize_no_observations (this : CompatibilityOptimizer)
    (iterations : nat) (stepSize : Q) (priorityBloodlines : list Z)
    (onProgress : option Callback) (random : nat -> Q) :
  readOnly onProgress ->
  (forall this' res,
     optimize this [] iterations stepSize priorityBloodlines onProgress random
     = Some (this', res) ->
     Result.matrix res = matrix this /\ Result.eval res = mkEval 0 0 /\
     matrix this' = matrix this)
  /\
  (wellFormedRun this priorityBloodlines random ->
   exists out,
     optimize this [] iterations stepSize priorityBloodlines onProgress random
     = Some out).
Proof.
  intros RO. split; [|apply optimize_total].
  intros this' res H. apply optimize_inv in H.
  destruct H as (s & Hs & _ & -> & -> & ->).
  destruct (searchAfter_no_observations _ _ _ _ _ _ _ _ RO Hs) as (_ & B & E).
  auto.
Qed.

Lemma optimize_no_observations_witness :
  exists out,
    optimize (constructor [[1; 2]; [3; 4]]) [] 60 0.5 [1%Z] None alwaysUp
    = Some out /\
    Result.matrix (snd out) = [[1; 2]; [3; 4]] /\
    Result.eval (snd out) = mkEval 0 0.
Proof.
  destruct (optimize_no_observations (constructor [[1; 2]; [3; 4]]) 60 0.5
              [1%Z] None alwaysUp I) as (A & T).
  destruct T as [[this' res] E].
  - exists 2%nat, 2%nat. unfold rectangular, alwaysUp. simpl.
    repeat split; try lia; try lra; repeat constructor; lia.
  - exists (this', res). destruct (A this' res E) as (A1 & A2 & _).
    split; [exact E|]. split; [exact A1 | exact A2].
Defined.

(** * Further properties of the code *)

(** ** PenaltyEvaluator: the sum as a whole *)

Lemma square_pos (x : Q) : 0 < x -> 0 < x ^ 2.
Proof.
  intros H. change (x ^ 2) with (x * x). apply Qmult_lt_0_compat; exact H.
Qed.

(** A turn that counts a contradiction adds a positive amount. *)
Lemma evaluateStep_shape_pos (M : Matrix) (o : Obs.t) :
  (forall p c, evaluateStep M (p, c) o = (p, c)) \/
  (exists d, 0 < d /\ forall p c, evaluateStep M (p, c) o = (p + d, S c)).
Proof.
  unfold evaluateStep.
  destruct (String.eqb (Obs.correctSymbol o) CROWN).
  - cmp (scoreOf M o) CROWN_MIN; [right|left; reflexivity].
    eexists. split; [|reflexivity]. apply square_pos. lra.
  - destruct (lookup (Obs.correctSymbol o) symbolRanges) as [rg|];
      [|left; reflexivity].
    cmp (scoreOf M o) (Range.min rg).
    + right. eexists. split; [|reflexivity]. apply square_pos. lra.
    + cmp (Range.max rg) (scoreOf M o); [right|left; reflexivity].
      eexists. split; [|reflexivity]. apply square_pos. lra.
Qed.

Lemma evaluate_fold_bounds (M : Matrix) (l : list Obs.t) :
  forall p c,
    let out := fold_left (evaluateStep M) l (p, c) in
    p <= fst out /\ (c <= snd out <= c + length l)%nat /\
    (snd out = c -> fst out = p) /\ (snd out <> c -> p < fst out).
Proof.
  induction l as [|o l IH]; intros p c; cbn [fold_left length].
  - cbn [fst snd]. split; [lra|]. split; [lia|].
    split; [reflexivity | intros H; exfalso; apply H; reflexivity].
  - destruct (evaluateStep_shape_pos M o) as [E|(d & Hd & E)]; rewrite E.
    + specialize (IH p c). cbv zeta in IH.
      destruct IH as (A & B & C & D).
      split; [exact A|]. split; [lia|]. split; assumption.
    + specialize (IH (p + d) (S c)). cbv zeta in IH.
      destruct IH as (A & B & C & D).
      split; [lra|]. split; [lia|]. split; [intros H; lia|].
      intros _.
      destruct (Nat.eq_dec (snd (fold_left (evaluateStep M) l (p + d, S c)))
                  (S c)) as [Y|N].
      * rewrite (C Y). lra.
      * specialize (D N). lra.
Qed.

(** X1.  The penalty [evaluateError] returns is never negative, and it counts
    at most one contradiction per observation. *)
Theorem evaluateError_bounds (M : Matrix) (observations : list Obs.t) :
  0 <= penalty (evaluateError M observations) /\
  (contradictions (evaluateError M observations) <= length observations)%nat.
Proof.
  destruct (evaluateError_fold M observations) as [-> ->].
  destruct (evaluate_fold_bounds M observations 0 0%nat) as (A & B & _).
  split; [exact A | lia].
Qed.

(** X2.  When [evaluateError] counts no contradiction, the evaluation it
    returns is exactly [{ penalty: 0, contradictions: 0 }]: the penalty is
    added to only where the count is incremented. *)
Theorem no_contradiction_no_penalty (M : Matrix)
    (observations : list Obs.t) :
  contradictions (evaluateError M observations) = 0%nat ->
  evaluateError M observations = mkEval 0 0.
Proof.
  intros H. unfold evaluateError in *.
  destruct (evaluate_fold_bounds M observations 0 0%nat) as (_ & _ & C & _).
  destruct (fold_left (evaluateStep M) observations (0, 0%nat)) as [p c].
  cbn [fst snd contradictions] in *. rewrite (C H), H. reflexivity.
Qed.

Lemma no_contradiction_no_penalty_witness :
  evaluateError [[500]] [sampleObservation CROWN] = mkEval 0 0.
Proof.
  apply (no_contradiction_no_penalty [[500]] [sampleObservation CROWN]).
  vm_compute. reflexivity.
Defined.

Lemma evaluateError_concat (M : Matrix) (l1 l2 : list Obs.t) :
  penalty (evaluateError M (l1 ++ l2))
    == penalty (evaluateError M l1) + penalty (evaluateError M l2) /\
  contradictions (evaluateError M (l1 ++ l2))
    = (contradictions (evaluateError M l1)
       + contradictions (evaluateError M l2))%nat.
Proof.
  destruct (evaluateError_fold M (l1 ++ l2)) as [-> ->].
  destruct (evaluateError_fold M l1) as [-> ->].
  destruct (evaluateError_fold M l2) as [-> ->].
  rewrite fold_left_app.
  destruct (fold_left (evaluateStep M) l1 (0, 0%nat)) as [p c]. cbn [fst snd].
  destruct (evaluate_fold_shift M l2 p c 0 p 0%nat c) as [A B];
    [lra | lia |].
  split; [rewrite A; lra | rewrite B; lia].
Qed.

(** X3.  Splitting the observations in two: the contradictions counted on the
    whole list are those of the two parts added up, and the penalty of the
    whole list is at least the penalty of either part. *)
Theorem evaluateError_app (M : Matrix) (l1 l2 : list Obs.t) :
  contradictions (evaluateError M (l1 ++ l2))
    = (contradictions (evaluateError M l1)
       + contradictions (evaluateError M l2))%nat /\
  penalty (evaluateError M l1) <= penalty (evaluateError M (l1 ++ l2)) /\
  penalty (evaluateError M l2) <= penalty (evaluateError M (l1 ++ l2)).
Proof.
  destruct (evaluateError_concat M l1 l2) as [A B].
  destruct (evaluateError_fold M l1) as [P1 _].
  destruct (evaluateError_fold M l2) as [P2 _].
  destruct (evaluate_fold_bounds M l1 0 0%nat) as (N1 & _).
  destruct (evaluate_fold_bounds M l2 0 0%nat) as (N2 & _).
  rewrite <- P1 in N1. rewrite <- P2 in N2.
  split; [exact B|]. split; rewrite A; lra.
Qed.

(** X4.  The order of the observations does not matter to the number of
    contradictions counted. *)
Theorem evaluateError_permutation (M : Matrix) (l l' : list Obs.t) :
  Permutation l l' ->
  contradictions (evaluateError M l) = contradictions (evaluateError M l').
Proof.
  assert (C : forall x l0,
            contradictions (evaluateError M (x :: l0))
              = (contradictions (evaluateError M [x])
                 + contradictions (evaluateError M l0))%nat)
    by (intros x l0; apply (evaluateError_concat M [x] l0)).
  induction 1 as [|x l l' _ IH|x y l|l l' l'' _ IH1 _ IH2].
  - reflexivity.
  - rewrite (C x l), (C x l'), IH. reflexivity.
  - rewrite (C y (x :: l)), (C x l), (C x (y :: l)), (C y l). lia.
  - rewrite IH1. exact IH2.
Qed.

Lemma evaluateError_permutation_witness :
  contradictions
    (evaluateError [[0]] [sampleObservation CROWN; sampleObservation CROSS])
  = contradictions
      (evaluateError [[0]] [sampleObservation CROSS; sampleObservation CROWN]).
Proof.
  apply (evaluateError_permutation [[0]]
           [sampleObservation CROWN; sampleObservation CROSS]
           [sampleObservation CROSS; sampleObservation CROWN]).
  apply perm_swap.
Defined.

(** X5.  An observation labelled with a tier other than the top one, whose
    range is [[min, max]], adds [(min - score)^2] and one contradiction when
    its score is below [min], [(score - max)^2] and one contradiction when its
    score is above [max], and nothing when the score is in the range. *)
Theorem tier_contribution (M : Matrix) (pre post : list Obs.t) (o : Obs.t)
    (rg : Range.t) :
  Obs.correctSymbol o <> CROWN ->
  lookup (Obs.correctSymbol o) symbolRanges = Some rg ->
  (scoreOf M o < Range.min rg ->
   penalty (evaluateError M (pre ++ o :: post))
     == penalty (evaluateError M (pre ++ post))
        + (Range.min rg - scoreOf M o) ^ 2 /\
   contradictions (evaluateError M (pre ++ o :: post))
     = S (contradictions (evaluateError M (pre ++ post))))
  /\
  (Range.min rg <= scoreOf M o -> Range.max rg < scoreOf M o ->
   penalty (evaluateError M (pre ++ o :: post))
     == penalty (evaluateError M (pre ++ post))
        + (scoreOf M o - Range.max rg) ^ 2 /\
   contradictions (evaluateError M (pre ++ o :: post))
     = S (contradictions (evaluateError M (pre ++ post))))
  /\
  (Range.min rg <= scoreOf M o -> scoreOf M o <= Range.max rg ->
   evaluateError M (pre ++ o :: post) = evaluateError M (pre ++ post)).
Proof.
  intros Hsym Hrg.
  assert (E : forall p c,
            evaluateStep M (p, c) o
            = if scoreOf M o <? Range.min rg
              then (p + (Range.min rg - scoreOf M o) ^ 2, S c)
              else if Range.max rg <? scoreOf M o
              then (p + (scoreOf M o - Range.max rg) ^ 2, S c)
              else (p, c)).
  { intros p c. unfold evaluateStep.
    destruct (String.eqb_spec (Obs.correctSymbol o) CROWN); [contradiction|].
    rewrite Hrg. reflexivity. }
  split; [|split].
  - intros H. apply evaluateError_add. intros p c. rewrite E.
    apply Qltb_lt in H. rewrite H. reflexivity.
  - intros H1 H2. apply evaluateError_add. intros p c. rewrite E.
    apply Qltb_ge in H1. apply Qltb_lt in H2. rewrite H1, H2. reflexivity.
  - intros H1 H2. apply evaluateError_skip. intros [p c]. rewrite E.
    apply Qltb_ge in H1, H2. rewrite H1, H2. reflexivity.
Qed.

Lemma tier_contribution_witness :
  penalty (evaluateError [[0]] ([] ++ sampleObservation STAR :: []))
  == penalty (evaluateError [[0]] ([] ++ []))
     + (614 - scoreOf [[0]] (sampleObservation STAR)) ^ 2.
Proof.
  destruct (tier_contribution [[0]] [] [] (sampleObservation STAR)
              (Range.mk 614 659)) as [A _].
  - vm_compute. discriminate.
  - reflexivity.
  - apply A. vm_compute. reflexivity.
Defined.

(** ** The two variants of [evaluateError] *)

(** On one observation the two variants do the same, unless it is labelled
    with the top tier and scores above 9999: there only the superseded one
    adds a penalty. *)
Lemma legacy_step_cases (M : Matrix) (o : Obs.t) :
  (forall acc, Legacy.evaluateStep M acc o = evaluateStep M acc o) \/
  (Obs.correctSymbol o = CROWN /\ 9999 < scoreOf M o /\
   forall p c,
     evaluateStep M (p, c) o = (p, c) /\
     Legacy.evaluateStep M (p, c) o
     = (p + (scoreOf M o - 9999) ^ 2, S c)).
Proof.
  unfold Legacy.evaluateStep, evaluateStep.
  destruct (String.eqb_spec (Obs.correctSymbol o) CROWN) as [E|N];
    [|left; intros [p c]; reflexivity].
  rewrite E.
  change (lookup CROWN symbolRanges) with (Some (Range.mk 660 9999)).
  cbn [Range.min Range.max]. change CROWN_MIN with 660.
  cmp (scoreOf M o) 660; [left; intros [p c]; reflexivity|].
  cmp 9999 (scoreOf M o); [|left; intros [p c]; reflexivity].
  right. split; [reflexivity|]. split; [assumption|].
  intros p c. split; reflexivity.
Qed.

Lemma legacy_fold_le (M : Matrix) (l : list Obs.t) :
  forall p1 p2 c1 c2, p1 <= p2 -> (c1 <= c2)%nat ->
    fst (fold_left (evaluateStep M) l (p1, c1))
      <= fst (fold_left (Legacy.evaluateStep M) l (p2, c2)) /\
    (snd (fold_left (evaluateStep M) l (p1, c1))
      <= snd (fold_left (Legacy.evaluateStep M) l (p2, c2)))%nat.
Proof.
  induction l as [|o l IH]; intros p1 p2 c1 c2 Hp Hc; cbn [fold_left fst snd].
  - split; assumption.
  - destruct (legacy_step_cases M o) as [E|(_ & Hs & E)].
    + rewrite E.
      destruct (evaluateStep_shape M o) as [S0|[d S1]].
      * rewrite !S0. apply IH; assumption.
      * rewrite !S1. apply IH; [lra | lia].
    + destruct (E p1 c1) as [-> _]. destruct (E p2 c2) as [_ ->].
      apply IH; [|lia].
      assert (0 < (scoreOf M o - 9999) ^ 2) by (apply square_pos; lra). lra.
Qed.

(** X6.  The evaluation of the variant in force is never above that of the
    superseded variant, and the two are the same when no observation labelled
    with the top tier scores above 9999. *)
Theorem evaluateError_vs_legacy (M : Matrix) (observations : list Obs.t) :
  (penalty (evaluateError M observations)
     <= penalty (Legacy.evaluateError M observations) /\
   (contradictions (evaluateError M observations)
     <= contradictions (Legacy.evaluateError M observations))%nat)
  /\
  ((forall o, In o observations -> Obs.correctSymbol o = CROWN ->
      scoreOf M o <= 9999) ->
   Legacy.evaluateError M observations = evaluateError M observations).
Proof.
  split.
  - destruct (evaluateError_fold M observations) as [-> ->].
    unfold Legacy.evaluateError.
    destruct (legacy_fold_le M observations 0 0 0%nat 0%nat) as [A B];
      [lra | lia |].
    destruct (fold_left (Legacy.evaluateStep M) observations (0, 0%nat)).
    split; assumption.
  - intros H. unfold Legacy.evaluateError, evaluateError.
    assert (E : forall acc,
              fold_left (Legacy.evaluateStep M) observations acc
              = fold_left (evaluateStep M) observations acc).
    { induction observations as [|o l IH]; intros acc; cbn [fold_left];
        [reflexivity|].
      destruct (legacy_step_cases M o) as [E|(Hc & Hs & _)].
      - rewrite E. apply IH. intros o' Ho'. apply H. right. exact Ho'.
      - exfalso. assert (scoreOf M o <= 9999) by (apply H; [left|]; auto).
        lra. }
    rewrite E. reflexivity.
Qed.

Lemma evaluateError_vs_legacy_witness :
  Legacy.evaluateError [[0]] [sampleObservation CROWN; sampleObservation CROSS]
  = evaluateError [[0]] [sampleObservation CROWN; sampleObservation CROSS].
Proof.
  apply (evaluateError_vs_legacy [[0]]
           [sampleObservation CROWN; sampleObservation CROSS]).
  intros o [<-|[<-|[]]] _; vm_compute; discriminate.
Defined.

(** ** BucketClassifier *)

Lemma getSymbol_cases (s : Q) :
  (660 <= s /\ getSymbol s = CROWN) \/
  (614 <= s /\ s < 660 /\ getSymbol s = STAR) \/
  (490 <= s /\ s < 614 /\ getSymbol s = DOUBLE_CIRCLE) \/
  (374 <= s /\ s < 490 /\ getSymbol s = CIRCLE) \/
  (255 <= s /\ s < 374 /\ getSymbol s = TRIANGLE) \/
  (s < 255 /\ getSymbol s = CROSS).
Proof.
  unfold getSymbol.
  destruct (660 <=? s) eqn:E1;
    [apply Qle_bool_iff in E1; auto | apply Qleb_gt in E1].
  destruct (614 <=? s) eqn:E2;
    [apply Qle_bool_iff in E2; auto 6 | apply Qleb_gt in E2].
  destruct (490 <=? s) eqn:E3;
    [apply Qle_bool_iff in E3; auto 8 | apply Qleb_gt in E3].
  destruct (374 <=? s) eqn:E4;
    [apply Qle_bool_iff in E4; auto 10 | apply Qleb_gt in E4].
  destruct (255 <=? s) eqn:E5;
    [apply Qle_bool_iff in E5; auto 12 | apply Qleb_gt in E5].
  auto 12.
Qed.

Lemma tierMin_values :
  tierMin CROWN = 660 /\ tierMin STAR = 614 /\ tierMin DOUBLE_CIRCLE = 490 /\
  tierMin CIRCLE = 374 /\ tierMin TRIANGLE = 255 /\ tierMin CROSS = 0.
Proof.
  repeat split; reflexivity.
Qed.

(** X7.  [getSymbol] never gives a lower tier to a higher score: the bottom
    of the range of the symbol of [s1] is at most that of the symbol of [s2]
    whenever [s1 <= s2]; and the bottom of the range of the symbol of a
    non-negative score is at most the score. *)
Theorem getSymbol_monotone (s1 s2 : Q) :
  (s1 <= s2 -> tierMin (getSymbol s1) <= tierMin (getSymbol s2)) /\
  (0 <= s1 -> tierMin (getSymbol s1) <= s1).
Proof.
  destruct tierMin_values as (T1 & T2 & T3 & T4 & T5 & T6).
  split.
  - intros H.
    destruct (getSymbol_cases s1)
      as [(? & ->)|[(? & ? & ->)|[(? & ? & ->)|[(? & ? & ->)|[(? & ? & ->)|
           (? & ->)]]]]];
    destruct (getSymbol_cases s2)
      as [(? & ->)|[(? & ? & ->)|[(? & ? & ->)|[(? & ? & ->)|[(? & ? & ->)|
           (? & ->)]]]]];
    rewrite ?T1, ?T2, ?T3, ?T4, ?T5, ?T6; lra.
  - intros H.
    destruct (getSymbol_cases s1)
      as [(? & ->)|[(? & ? & ->)|[(? & ? & ->)|[(? & ? & ->)|[(? & ? & ->)|
           (? & ->)]]]]];
    rewrite ?T1, ?T2, ?T3, ?T4, ?T5, ?T6; lra.
Qed.

Lemma getSymbol_monotone_witness :
  tierMin (getSymbol 300) <= tierMin (getSymbol 659.5) /\
  tierMin (getSymbol 300) <= 300.
Proof.
  split.
  - apply (getSymbol_monotone 300 659.5). vm_compute. discriminate.
  - apply (getSymbol_monotone 300 659.5). vm_compute. discriminate.
Defined.

Lemma evaluateStep_tier (M : Matrix) (o : Obs.t) (rg : Range.t) (p : Q)
    (c : nat) :
  Obs.correctSymbol o <> CROWN ->
  lookup (Obs.correctSymbol o) symbolRanges = Some rg ->
  evaluateStep M (p, c) o
  = if scoreOf M o <? Range.min rg
    then (p + (Range.min rg - scoreOf M o) ^ 2, S c)
    else if Range.max rg <? scoreOf M o
    then (p + (scoreOf M o - Range.max rg) ^ 2, S c)
    else (p, c).
Proof.
  intros Hsym Hrg. unfold evaluateStep.
  destruct (String.eqb_spec (Obs.correctSymbol o) CROWN); [contradiction|].
  rewrite Hrg. reflexivity.
Qed.

(** X8.  An observation labelled with the symbol [getSymbol] gives to its own
    score is free of penalty exactly when the score is not negative and not
    strictly between the top of one range and the bottom of the next (as
    659.5 is): the ranges hold whole numbers only. *)
Theorem self_label_penalty (M : Matrix) (o : Obs.t) :
  Obs.correctSymbol o = getSymbol (scoreOf M o) ->
  (evaluateError M [o] = mkEval 0 0 <-> ~ inGap (scoreOf M o)).
Proof.
  intros H. unfold evaluateError. cbn [fold_left].
  assert (T : forall sym rg,
            Obs.correctSymbol o = sym -> sym <> CROWN ->
            lookup sym symbolRanges = Some rg ->
            evaluateStep M (0, 0%nat) o
            = if scoreOf M o <? Range.min rg
              then (0 + (Range.min rg - scoreOf M o) ^ 2, 1%nat)
              else if Range.max rg <? scoreOf M o
              then (0 + (scoreOf M o - Range.max rg) ^ 2, 1%nat)
              else (0, 0%nat)).
  { intros sym rg E N L. apply evaluateStep_tier; rewrite E; assumption. }
  set (s := scoreOf M o) in *. unfold inGap.
  destruct (getSymbol_cases s)
    as [(G1 & E)|[(G1 & G2 & E)|[(G1 & G2 & E)|[(G1 & G2 & E)|[(G1 & G2 & E)|
         (G1 & E)]]]]];
    rewrite E in H.
  - rewrite (evaluateStep_crown M o 0 0%nat H). fold s.
    cmp s 660; [lra|]. split; [intros _; lra | reflexivity].
  - rewrite (T STAR (Range.mk 614 659) H); [|discriminate|reflexivity].
    cbn [Range.min Range.max].
    cmp s 614; [lra|]. cmp 659 s;
      (split; [intros X; try discriminate X; lra
              | intros X; try reflexivity; exfalso; apply X; lra]).
  - rewrite (T DOUBLE_CIRCLE (Range.mk 490 613) H); [|discriminate|reflexivity].
    cbn [Range.min Range.max].
    cmp s 490; [lra|]. cmp 613 s;
      (split; [intros X; try discriminate X; lra
              | intros X; try reflexivity; exfalso; apply X; lra]).
  - rewrite (T CIRCLE (Range.mk 374 489) H); [|discriminate|reflexivity].
    cbn [Range.min Range.max].
    cmp s 374; [lra|]. cmp 489 s;
      (split; [intros X; try discriminate X; lra
              | intros X; try reflexivity; exfalso; apply X; lra]).
  - rewrite (T TRIANGLE (Range.mk 255 373) H); [|discriminate|reflexivity].
    cbn [Range.min Range.max].
    cmp s 255; [lra|]. cmp 373 s;
      (split; [intros X; try discriminate X; lra
              | intros X; try reflexivity; exfalso; apply X; lra]).
  - rewrite (T CROSS (Range.mk 0 254) H); [|discriminate|reflexivity].
    cbn [Range.min Range.max].
    cmp s 0;
      [split; [intros X; discriminate X | intros X; exfalso; apply X; lra]|].
    cmp 254 s;
      (split; [intros X; try discriminate X; lra
              | intros X; try reflexivity; exfalso; apply X; lra]).
Qed.

Lemma self_label_penalty_witness :
  let o := Obs.mk (Idx 0) (Idx 0) (Idx 0) (Idx 0) (Idx 0) (Idx 0) (Idx 0)
             0 87 (Some 0.5) STAR in
  scoreOf [[0]] o == 659.5 /\
  (evaluateError [[0]] [o] = mkEval 0 0 <-> ~ inGap (scoreOf [[0]] o)).
Proof.
  intros o. split; [vm_compute; reflexivity|].
  apply (self_label_penalty [[0]] o). vm_compute. reflexivity.
Defined.

(** ** ScoreModel: which cells a score reads, and how it follows them *)

Lemma getComb_cellAt (a b : Ident) (M : Matrix) :
  getComb a b M
  = match a, b with
    | Idx i, Idx j =>
        match cellAt M i j with
        | Some v => orZero v
        | None => 0
        end
    | _, _ => 0
    end.
Proof.
  unfold getComb, cellAt.
  destruct a as [| |i], b as [| |j]; try reflexivity;
    try (destruct (nthZ i M); reflexivity).
Qed.

(** A write to another cell is not seen by [getComb]. *)
Lemma getComb_setCell_other (a b : Ident) (M : Matrix) (r c : Z) (v : Q) :
  isCell r c (a, b) = false ->
  getComb a b (setCell M r c v) = getComb a b M.
Proof.
  intros H. rewrite !getComb_cellAt.
  destruct a as [| |i], b as [| |j]; try reflexivity.
  simpl in H. rewrite cellAt_setCell_other; [reflexivity|].
  apply andb_false_iff in H. destruct H as [H|H]; apply Z.eqb_neq in H; auto.
Qed.

(** Raising a cell from [old] to [v] raises every [getComb] by at most
    [v - old] and lowers none. *)
Lemma getComb_setCell_bounds (a b : Ident) (M : Matrix) (r c : Z) (old v : Q) :
  cellAt M r c = Some old -> old <= v ->
  getComb a b M <= getComb a b (setCell M r c v) /\
  getComb a b (setCell M r c v) <= getComb a b M + (v - old).
Proof.
  intros E H. destruct (isCell r c (a, b)) eqn:I.
  - destruct a as [| |i], b as [| |j]; try discriminate I. simpl in I.
    apply andb_prop in I. destruct I as [I1 I2].
    apply Z.eqb_eq in I1, I2. subst i j.
    rewrite !getComb_cellAt, E, (cellAt_setCell_same _ _ _ _ v E).
    rewrite !orZero_eq. split; lra.
  - rewrite (getComb_setCell_other _ _ _ _ _ _ I). split; lra.
Qed.

Lemma Qmin_bounds (a b a' b' d : Q) :
  a <= a' /\ a' <= a + d -> b <= b' /\ b' <= b + d ->
  Qmin a b <= Qmin a' b' /\ Qmin a' b' <= Qmin a b + d.
Proof.
  intros [A1 A2] [B1 B2].
  destruct (Q.min_spec a b) as [[? E]|[? E]];
    destruct (Q.min_spec a' b') as [[? E']|[? E']];
    rewrite E, E'; split; lra.
Qed.

(** X9.  A write to a cell that no observation of the list reads leaves the
    evaluation as it was. *)
Theorem evaluateError_unread_cell (M : Matrix) (observations : list Obs.t)
    (r c : Z) (v : Q) :
  (forall o, In o observations -> readsCell o r c = false) ->
  evaluateError (setCell M r c v) observations = evaluateError M observations.
Proof.
  intros H.
  assert (S0 : forall o, readsCell o r c = false ->
                 scoreOf (setCell M r c v) o = scoreOf M o).
  { intros o R. unfold readsCell, cellsRead in R. cbn [existsb] in R.
    repeat (apply orb_false_iff in R; destruct R as [? R]).
    unfold scoreOf, calculateScore.
    rewrite !getComb_setCell_other by assumption. reflexivity. }
  assert (S1 : forall o acc, readsCell o r c = false ->
                 evaluateStep (setCell M r c v) acc o = evaluateStep M acc o).
  { intros o acc R. unfold evaluateStep. rewrite (S0 o R). reflexivity. }
  unfold evaluateError.
  assert (F : forall acc,
            fold_left (evaluateStep (setCell M r c v)) observations acc
            = fold_left (evaluateStep M) observations acc).
  { induction observations as [|o l IH]; intros acc; cbn [fold_left];
      [reflexivity|].
    rewrite S1 by (apply H; left; reflexivity).
    apply IH. intros o' Ho'. apply H. right. exact Ho'. }
  rewrite F. reflexivity.
Qed.

Lemma evaluateError_unread_cell_witness :
  evaluateError (setCell [[0; 0]; [0; 0]] 1 1 9) [sampleObservation CROWN]
  = evaluateError [[0; 0]; [0; 0]] [sampleObservation CROWN].
Proof.
  apply (evaluateError_unread_cell [[0; 0]; [0; 0]]
           [sampleObservation CROWN] 1 1 9).
  intros o [<-|[]]. reflexivity.
Defined.

(** X10.  Raising one cell lowers no score: every term of a score is a cell
    or the smaller of two cells. *)
Theorem score_follows_cell (M : Matrix) (o : Obs.t) (r c : Z) (old v : Q) :
  cellAt M r c = Some old -> old <= v ->
  scoreOf M o <= scoreOf (setCell M r c v) o.
Proof.
  intros E H. unfold scoreOf, calculateScore.
  destruct (existsb isAbsent _); [lra|]. cbv zeta.
  pose proof (fun a b => getComb_setCell_bounds a b M r c old v E H) as G.
  pose proof (G (Obs.childId o) (Obs.f o)) as G1.
  pose proof (Qmin_bounds _ _ _ _ _ (G (Obs.f o) (Obs.ff o))
                (G (Obs.childId o) (Obs.ff o))) as G2.
  pose proof (Qmin_bounds _ _ _ _ _ (G (Obs.f o) (Obs.fm o))
                (G (Obs.childId o) (Obs.fm o))) as G3.
  pose proof (G (Obs.childId o) (Obs.m o)) as G4.
  pose proof (Qmin_bounds _ _ _ _ _ (G (Obs.m o) (Obs.mf o))
                (G (Obs.childId o) (Obs.mf o))) as G5.
  pose proof (Qmin_bounds _ _ _ _ _ (G (Obs.m o) (Obs.mm o))
                (G (Obs.childId o) (Obs.mm o))) as G6.
  pose proof (G (Obs.f o) (Obs.m o)) as G7.
  lra.
Qed.

Lemma score_follows_cell_witness :
  scoreOf [[0]] (sampleObservation CROWN)
  <= scoreOf (setCell [[0]] 0 0 0.5) (sampleObservation CROWN).
Proof.
  apply (score_follows_cell [[0]] (sampleObservation CROWN) 0 0 0 0.5).
  - reflexivity.
  - vm_compute. discriminate.
Defined.

(** ** LocalSearchOptimizer: what the variables hold *)







(** ** LocalSearchOptimizer: the motion limit on every cell *)

Lemma window_nonempty (b : Q) : -20 <= b -> minLimitOf b <= maxLimitOf b.
Proof.
  intros H. unfold maxLimitOf, MOTION_LIMIT.
  destruct (minLimitOf_cases b) as [[_ ->]|[_ ->]]; lra.
Qed.


(** X13.  For an original value of at least -20, every value the motion limit
    lets through lies in the window, wherever the current value was; and from
    a current value inside the window it is the perturbed value itself: such a
    cell is never moved to a boundary it has not reached by steps. *)
Theorem written_value_in_window (current b change v : Q) :
  proposeValue current b change = Some v ->
  (-20 <= b -> inWindow b v) /\
  (inWindow b current -> v = perturbed current change).
Proof.
  intros E.
  pose proof (proposeValue_cases current b change) as C. rewrite E in C.
  cbv zeta in C. destruct C as (N1 & N2 & ->).
  set (nv := perturbed current change) in *. unfold inWindow. split.
  - intros H. pose proof (window_nonempty b H) as W.
    cmp nv (minLimitOf b).
    + cmp (maxLimitOf b) (minLimitOf b); lra.
    + cmp (maxLimitOf b) nv; lra.
  - intros [W1 W2].
    cmp nv (minLimitOf b); [exfalso; apply N1; split; lra|].
    cmp (maxLimitOf b) nv; [exfalso; apply N2; split; lra|].
    reflexivity.
Qed.

Lemma written_value_in_window_witness :
  inWindow 100 80 /\ inWindow 100 120.
Proof.
  split.
  - apply (written_value_in_window 10 100 (1 * 0.5) 80).
    + vm_compute. reflexivity.
    + vm_compute. discriminate.
  - apply (written_value_in_window 130 100 (-1 * 0.5) 120).
    + vm_compute. reflexivity.
    + vm_compute. discriminate.
Defined.



(** ** LocalSearchOptimizer: repeated calls, edge cases *)

(** X16.  However many times [optimize] is called (each call ending
    normally) on an optimizer built on a matrix without negative entries,
    with whatever arguments, the retained matrix has no negative entry and
    every cell of it is inside the window the code computes from the value the
    constructor was given: the motion limit does not add up over calls,
    because the original matrix is never written. *)
Theorem motion_limit_across_runs (M0 : Matrix)
    (this' : CompatibilityOptimizer) :
  nonNegative M0 = true ->
  afterRuns (constructor M0) this' ->
  originalMatrix this' = M0 /\
  nonNegative (matrix this') = true /\
  forall r c base, cellAt M0 r c = Some base ->
    exists v, cellAt (matrix this') r c = Some v /\ inWindow base v.
Proof.
  intros H0 R.
  induction R as [|this1 this2 obs its step prio cb rnd res R IH H].
  - unfold constructor. cbn [originalMatrix matrix]. rewrite jsonCopy_id.
    split; [reflexivity|]. split; [exact H0|].
    intros r c base E. exists base. split; [exact E|].
    rewrite nonNegative_cells in H0. specialize (H0 r c base E).
    unfold inWindow, maxLimitOf, MOTION_LIMIT.
    destruct (minLimitOf_cases base) as [[_ ->]|[_ ->]]; split; lra.
  - destruct IH as (Eo & Hn & Hw).
    apply optimize_inv in H. destruct H as (s & Hs & Eo' & Em & _ & _).
    split; [congruence|]. rewrite Em.
    assert (Ho : nonNegative (originalMatrix this1) = true)
      by (rewrite Eo; exact H0).
    split.
    + apply (searchAfter_nonNegative _ _ _ _ _ _ _ _ _ Ho Hn Hs).
    + intros r c base E. destruct (Hw r c base E) as (v0 & E0 & W0).
      rewrite <- Eo in E.
      apply (searchAfter_inWindow _ _ _ _ _ _ _ _ _ _ _ _ _ E E0 W0 Hs).
Qed.

Lemma motion_limit_across_runs_witness :
  exists out v,
    optimize (constructor [[0]]) [sampleObservation CROWN] 30 0.5 [] None
      alwaysUp = Some out /\
    cellAt (matrix (fst out)) 0 0 = Some v /\ inWindow 0 v.
Proof.
  destruct (optimize (constructor [[0]]) [sampleObservation CROWN] 30 0.5 []
              None alwaysUp) as [[this1 res1]|] eqn:E;
    [|vm_compute in E; discriminate E].
  assert (R : afterRuns (constructor [[0]]) this1)
    by (apply (afterRuns_more _ _ _ _ _ _ _ _ _ _
                 (afterRuns_none (constructor [[0]])) E)).
  destruct (motion_limit_across_runs [[0]] this1 eq_refl R) as (_ & _ & C).
  destruct (C 0%Z 0%Z 0 eq_refl) as (v & Ev & Hv).
  exists (this1, res1), v. auto.
Defined.

(** X17.  On a matrix without rows [optimize] ends with a [TypeError] before
    the loop, in both variants, whatever the other arguments are: even with
    no turn to take. *)
Theorem optimize_empty_matrix (this : CompatibilityOptimizer)
    (observations : list Obs.t) (iterations : nat) (stepSize : Q)
    (priorityBloodlines : list Z) (onProgress : option Callback)
    (random : nat -> Q) :
  matrix this = [] ->
  optimize this observations iterations stepSize priorityBloodlines
    onProgress random = None /\
  Legacy.optimize this observations iterations stepSize onProgress random
  = None.
Proof.
  intros E. unfold optimize, searchAfter, initialSearch, Legacy.optimize,
    Legacy.searchAfter, Legacy.initialSearch, alloc.
  cbn [currentMatrix]. rewrite E. split; reflexivity.
Qed.

Lemma optimize_empty_matrix_witness :
  optimize (constructor []) [sampleObservation CROWN] 0 0.5 [] None alwaysUp
  = None.
Proof.
  apply (optimize_empty_matrix (constructor []) [sampleObservation CROWN] 0
           0.5 [] None alwaysUp).
  reflexivity.
Defined.

(** ** LocalSearchOptimizer: the choice of the cell *)

(** X18.  In the second half of the turns, and in every turn when the
    priority list is empty, the cell is chosen by two draws, one for the row
    and one for the column, and the priority list plays no part. *)
Theorem selectCell_without_priority (iterations : nat)
    (priorityBloodlines : list Z) (random : nat -> Q)
    (numRows numCols i k : nat) :
  priorityBloodlines = [] \/
  inject_Z (Z.of_nat iterations) * 0.5 <= inject_Z (Z.of_nat i) ->
  selectCell iterations priorityBloodlines random numRows numCols i k
  = Some ((Qfloor (random k * inject_Z (Z.of_nat numRows)),
           Qfloor (random (S k) * inject_Z (Z.of_nat numCols))),
          S (S k)).
Proof.
  intros H.
  cbv beta iota zeta delta [selectCell bind ret mathRandom randomBelow throw].
  replace (_ && (0 <? length priorityBloodlines)%nat) with false;
    [reflexivity|].
  symmetry. apply andb_false_iff. destruct H as [->|H].
  - right. reflexivity.
  - left. apply Qltb_ge. exact H.
Qed.

Lemma selectCell_without_priority_witness :
  selectCell 10 [1%Z] alwaysUp 2 2 5 0%nat
  = Some ((Qfloor (alwaysUp 0%nat * inject_Z (Z.of_nat 2)),
           Qfloor (alwaysUp 1%nat * inject_Z (Z.of_nat 2))), 2%nat).
Proof.
  apply (selectCell_without_priority 10 [1%Z] alwaysUp 2 2 5 0).
  right. vm_compute. discriminate.
Defined.

(** X19.  With random numbers in [0, 1), a matrix with a row and a column,
    and priority indices that are rows and columns of it, the cell chosen
    always lies in the matrix; and in the first half of the turns, when the
    first draw is below 0.8 and the priority list is not empty, four numbers
    are drawn and the cell lies on a priority row or a priority column. *)
Theorem selectCell_choice (iterations : nat) (priorityBloodlines : list Z)
    (random : nat -> Q) (rows cols i k : nat) :
  (0 < rows)%nat -> (0 < cols)%nat ->
  Forall (fun p => (0 <= p < Z.of_nat rows)%Z /\ (p < Z.of_nat cols)%Z)
    priorityBloodlines ->
  (forall j, 0 <= random j /\ random j < 1) ->
  exists r c k',
    selectCell iterations priorityBloodlines random rows cols i k
    = Some ((r, c), k') /\
    (0 <= r < Z.of_nat rows)%Z /\ (0 <= c < Z.of_nat cols)%Z /\
    (priorityBloodlines <> [] ->
     inject_Z (Z.of_nat i) < inject_Z (Z.of_nat iterations) * 0.5 ->
     random k < 0.8 ->
     k' = (k + 4)%nat /\
     (In r priorityBloodlines \/ In c priorityBloodlines)).
Proof.
  intros Hr Hc HP HR.
  destruct (selectCell_total iterations priorityBloodlines random rows cols
              Hr Hc HP HR i k) as (r & c & k' & E & Br & Bc).
  exists r, c, k'. split; [exact E|]. split; [exact Br|]. split; [exact Bc|].
  intros Hne H1 H2. revert E.
  cbv beta iota zeta delta [selectCell bind ret mathRandom randomBelow throw].
  apply Qltb_lt in H1, H2. rewrite H1.
  replace (0 <? length priorityBloodlines)%nat with true
    by (symmetry; apply Nat.ltb_lt;
        destruct priorityBloodlines; [contradiction | simpl; lia]).
  cbn [andb]. cbv beta iota. rewrite H2.
  destruct (nthZ _ priorityBloodlines) as [pIdx|] eqn:Ep; [|discriminate].
  apply nthZ_Some in Ep. destruct Ep as [_ Ep]. apply nth_error_In in Ep.
  destruct (random (S (S k)) <? 0.5); intros E; injection E as <- <- <-;
    (split; [lia | auto]).
Qed.

Lemma selectCell_choice_witness :
  exists r c k',
    selectCell 10 [1%Z] alwaysDown 2 2 0 0%nat = Some ((r, c), k') /\
    (0 <= r < 2)%Z /\ (0 <= c < 2)%Z /\ k' = 4%nat /\
    (In r [1%Z] \/ In c [1%Z]).
Proof.
  destruct (selectCell_choice 10 [1%Z] alwaysDown 2 2 0 0)
    as (r & c & k' & E & Br & Bc & P).
  - lia.
  - lia.
  - repeat constructor; lia.
  - intros j. unfold alwaysDown. split; lra.
  - exists r, c, k'. split; [exact E|]. split; [exact Br|]. split; [exact Bc|].
    apply P.
    + discriminate.
    + vm_compute. reflexivity.
    + vm_compute. reflexivity.
Defined.

(** X20.  A turn of the loop changes at most one cell of the working matrix,
    and the best matrix after it is the one before it or the new working
    matrix, whatever the callback does. *)
Theorem turn_changes_one_cell (this : CompatibilityOptimizer)
    (observations : list Obs.t) (iterations : nat) (stepSize : Q)
    (priorityBloodlines : list Z) (onProgress : option Callback)
    (random : nat -> Q) (numRows numCols i : nat) (s s' : Search) :
  iteration this observations iterations stepSize priorityBloodlines
    onProgress random numRows numCols i s = Some s' ->
  (exists r c, forall r' c', r' <> r \/ c' <> c ->
     cellAt (currentMatrix s') r' c' = cellAt (currentMatrix s) r' c') /\
  (bestMatrix s' = bestMatrix s \/ bestMatrix s' = currentMatrix s').
Proof.
  intros H.
  destruct (iteration_matrices _ _ _ _ _ _ _ _ _ _ _ _ H)
    as [[-> ->]|(r & c & ov & bv & ch & nv & _ & _ & _ & -> & B)].
  - split; [exists 0%Z, 0%Z; reflexivity | left; reflexivity].
  - split; [|tauto].
    exists r, c. intros r' c' N. apply cellAt_setCell_other. exact N.
Qed.

Lemma turn_changes_one_cell_witness :
  exists s' r c,
    iteration (constructor [[1; 2]; [3; 4]]) [sampleObservation CROWN] 4 0.5
      [] None alwaysUp 2 2 0
      (initialSearch (constructor [[1; 2]; [3; 4]]) [sampleObservation CROWN])
    = Some s' /\
    forall r' c', r' <> r \/ c' <> c ->
      cellAt (currentMatrix s') r' c' = cellAt [[1; 2]; [3; 4]] r' c'.
Proof.
  destruct (iteration (constructor [[1; 2]; [3; 4]]) [sampleObservation CROWN]
              4 0.5 [] None alwaysUp 2 2 0
              (initialSearch (constructor [[1; 2]; [3; 4]])
                 [sampleObservation CROWN])) as [s'|] eqn:E;
    [|vm_compute in E; discriminate E].
  destruct (turn_changes_one_cell _ _ _ _ _ _ _ _ _ _ _ _ E)
    as [(r & c & A) _].
  exists s', r, c. split; [reflexivity | exact A].
Defined.

(** X21.  With a callback that leaves the evaluation object alone (or none),
    [optimize] returns either the matrix it started from or a matrix with a
    strictly lower penalty: a tie moves the working matrix but never the
    matrix returned. *)
Theorem returns_start_or_strictly_better (this this' : CompatibilityOptimizer)
    (observations : list Obs.t) (iterations : nat) (stepSize : Q)
    (priorityBloodlines : list Z) (onProgress : option Callback)
    (random : nat -> Q) (res : Result.t) :
  readOnly onProgress ->
  optimize this observations iterations stepSize priorityBloodlines
    onProgress random = Some (this', res) ->
  (Result.matrix res = matrix this /\
   Result.eval res = evaluateError (matrix this) observations) \/
  penalty (Result.eval res)
  < penalty (evaluateError (matrix this) observations).
Proof.
  intros RO H. apply optimize_inv in H.
  destruct H as (s & Hs & _ & _ & -> & ->).
  set (E0 := evaluateError (matrix this) observations).
  apply (searchAfter_invariant this observations iterations stepSize
           priorityBloodlines onProgress random
           (fun x => validRefs x /\
                     ((bestMatrix x = matrix this /\ bestEvalOf x = E0) \/
                      penalty (bestEvalOf x) < penalty E0))) in Hs.
  - apply Hs.
  - destruct (initialSearch_view this observations) as (V & _ & B & _ & E).
    split; [exact V|]. left. split; assumption.
  - intros numRows numCols i x x' [V D] Hi.
    destruct (iteration_view _ _ _ _ _ _ _ _ _ _ _ _ RO V Hi) as [V' C].
    split; [exact V'|].
    assert (L : penalty (bestEvalOf x) <= penalty E0)
      by (destruct D as [[_ ->]|D]; lra).
    destruct (proposal _ _ _ _ _ _ _ _ _ _)
      as [[[[[[r c] ov] nv]|] k]|]; [| |contradiction].
    + subst x'. destruct (acceptOrRevert_view observations x r c ov nv k V)
        as [_ A].
      cbv zeta in A.
      destruct (_ <=? _).
      * destruct A as (_ & _ & A).
        set (p := penalty (evaluateError _ _)) in *.
        cmp p (penalty (bestEvalOf x)); destruct A as [A1 A2].
        -- right. rewrite A2. fold p. lra.
        -- rewrite A1, A2. exact D.
      * destruct A as (_ & _ & A1 & A2). rewrite A1, A2. exact D.
    + destruct C as (_ & -> & _ & ->). exact D.
Qed.

Lemma returns_start_or_strictly_better_witness :
  exists out,
    optimize (constructor [[0]]) [sampleObservation CROSS] 5 0.5 [] None
      alwaysUp = Some out /\
    ((Result.matrix (snd out) = [[0]] /\
      Result.eval (snd out) = evaluateError [[0]] [sampleObservation CROSS]) \/
     penalty (Result.eval (snd out))
     < penalty (evaluateError [[0]] [sampleObservation CROSS])).
Proof.
  destruct (optimize (constructor [[0]]) [sampleObservation CROSS] 5 0.5 []
              None alwaysUp) as [[this1 res1]|] eqn:E;
    [|vm_compute in E; discriminate E].
  exists (this1, res1). split; [reflexivity|].
  apply (returns_start_or_strictly_better (constructor [[0]]) this1
           [sampleObservation CROSS] 5 0.5 [] None alwaysUp res1 I E).
Defined.

(** ** The superseded [optimize] *)

Lemma legacy_proposal_inv (stepSize : Q) (random : nat -> Q)
    (numRows numCols : nat) (M : Matrix) (k k' : nat) (r c : Z) (ov nv : Q) :
  Legacy.proposal stepSize random numRows numCols M k
  = Some ((r, c, ov, nv), k') ->
  cellAt M r c = Some ov /\ 0 <= nv.
Proof.
  cbv beta iota zeta delta
    [Legacy.proposal bind ret mathRandom randomBelow throw].
  destruct (cellAt M _ _) as [ov0|] eqn:E; [|discriminate].
  intros H. injection H as <- <- <- <- _. split; [exact E|].
  match goal with |- 0 <= (if ?x <? 0 then _ else _) => cmp x 0; lra end.
Qed.

Lemma legacy_loop_preserves (observations : list Obs.t) (iterations : nat)
    (stepSize : Q) (onProgress : option Callback) (random : nat -> Q)
    (numRows numCols : nat) (I : Search -> Prop) :
  (forall i s s', I s ->
     Legacy.iteration observations iterations stepSize onProgress random
       numRows numCols i s = Some s' -> I s') ->
  forall n i s s', I s ->
    Legacy.loop observations iterations stepSize onProgress random
      numRows numCols n i s = Some s' -> I s'.
Proof.
  intros Hstep. induction n as [|n IH]; intros i s s' HI H; simpl in H.
  - injection H as <-. exact HI.
  - destruct (Legacy.iteration _ _ _ _ _ _ _ i s) as [s1|] eqn:E;
      [|discriminate].
    apply (IH (S i) s1 s'); [|exact H]. apply (Hstep i s s1 HI E).
Qed.

Lemma legacy_searchAfter_invariant (this : CompatibilityOptimizer)
    (observations : list Obs.t) (iterations : nat) (stepSize : Q)
    (onProgress : option Callback) (random : nat -> Q) (I : Search -> Prop) :
  I (Legacy.initialSearch this observations) ->
  (forall numRows numCols i s s', I s ->
     Legacy.iteration observations iterations stepSize onProgress random
       numRows numCols i s = Some s' -> I s') ->
  forall k s,
    Legacy.searchAfter this observations iterations stepSize onProgress
      random k = Some s -> I s.
Proof.
  intros H0 Hstep k s. unfold Legacy.searchAfter.
  destruct (nth_error _ 0) as [row0|]; [|discriminate].
  apply legacy_loop_preserves; [|exact H0]. apply Hstep.
Qed.

(** X22.  In the superseded variant the best matrix is the working matrix,
    and the two evaluation variables are one object, at every turn and
    whatever the callback does: every move it keeps is a strict improvement,
    so that every move it keeps becomes the best. *)
Theorem legacy_best_is_working (this : CompatibilityOptimizer)
    (observations : list Obs.t) (iterations : nat) (stepSize : Q)
    (onProgress : option Callback) (random : nat -> Q) (k : nat) (s : Search) :
  Legacy.searchAfter this observations iterations stepSize onProgress
    random k = Some s ->
  bestMatrix s = currentMatrix s /\ bestEval s = currentEval s.
Proof.
  revert k s. apply legacy_searchAfter_invariant.
  - unfold Legacy.initialSearch, alloc. cbn [bestMatrix currentMatrix
      bestEval currentEval]. rewrite jsonCopy_id. split; reflexivity.
  - intros numRows numCols i s s' [Em Ee]. unfold Legacy.iteration.
    destruct (Legacy.proposal _ _ _ _ _ _)
      as [[[[[r c] ov] nv] k]|] eqn:P; [|discriminate].
    destruct (legacy_proposal_inv _ _ _ _ _ _ _ _ _ _ _ P) as [E1 _].
    intros H. injection H as <-.
    destruct (notify_frame iterations onProgress i
                (Legacy.acceptOrRevert observations s r c ov nv k))
      as (-> & -> & -> & -> & _).
    unfold Legacy.acceptOrRevert, alloc. rewrite Ee.
    destruct (_ <? _);
      cbn [bestMatrix currentMatrix bestEval currentEval].
    + rewrite jsonCopy_id. split; reflexivity.
    + rewrite (setCell_revert _ _ _ _ _ E1). split; [assumption | reflexivity].
Qed.

Lemma legacy_best_is_working_witness :
  exists s,
    Legacy.searchAfter (constructor [[0]]) [sampleObservation CROWN] 3 0.5
      (Some spoil) alwaysUp 3 = Some s /\
    bestMatrix s = currentMatrix s.
Proof.
  destruct (Legacy.searchAfter (constructor [[0]]) [sampleObservation CROWN]
              3 0.5 (Some spoil) alwaysUp 3) as [s|] eqn:E;
    [|vm_compute in E; discriminate E].
  exists s. split; [reflexivity|].
  apply (legacy_best_is_working _ _ _ _ _ _ _ _ E).
Defined.

(** X23.  The superseded variant writes no negative value: from a starting
    matrix without negative entries, the working and best matrices have none
    at any turn, and neither has the matrix returned. *)
Theorem legacy_entries_nonNegative (this : CompatibilityOptimizer)
    (observations : list Obs.t) (iterations : nat) (stepSize : Q)
    (onProgress : option Callback) (random : nat -> Q) :
  nonNegative (matrix this) = true ->
  (forall k s,
     Legacy.searchAfter this observations iterations stepSize onProgress
       random k = Some s ->
     nonNegative (currentMatrix s) = true /\
     nonNegative (bestMatrix s) = true)
  /\
  (forall this' res,
     Legacy.optimize this observations iterations stepSize onProgress random
     = Some (this', res) ->
     nonNegative (Result.matrix res) = true).
Proof.
  intros H0.
  assert (A : forall k s,
     Legacy.searchAfter this observations iterations stepSize onProgress
       random k = Some s ->
     nonNegative (currentMatrix s) = true /\
     nonNegative (bestMatrix s) = true).
  { apply legacy_searchAfter_invariant.
    - unfold Legacy.initialSearch, alloc. cbn [bestMatrix currentMatrix].
      rewrite !jsonCopy_id. split; assumption.
    - intros numRows numCols i s s' [Hc Hb]. unfold Legacy.iteration.
      destruct (Legacy.proposal _ _ _ _ _ _)
        as [[[[[r c] ov] nv] k]|] eqn:P; [|discriminate].
      destruct (legacy_proposal_inv _ _ _ _ _ _ _ _ _ _ _ P) as [E1 Hnv].
      intros H. injection H as <-.
      destruct (notify_frame iterations onProgress i
                  (Legacy.acceptOrRevert observations s r c ov nv k))
        as (-> & -> & _).
      assert (T : nonNegative (setCell (currentMatrix s) r c nv) = true).
      { rewrite nonNegative_cells in Hc. apply nonNegative_cells.
        intros r' c' y Ey.
        destruct (cellAt_setCell_inv _ _ _ _ _ _ _ Ey)
          as [(_ & _ & -> & _)|[_ Ey']]; [exact Hnv | apply (Hc _ _ _ Ey')]. }
      unfold Legacy.acceptOrRevert, alloc.
      destruct (_ <? _); [destruct (_ <? _)|];
        cbn [bestMatrix currentMatrix]; rewrite ?jsonCopy_id;
        rewrite ?(setCell_revert _ _ _ _ _ E1); auto. }
  split; [exact A|].
  intros this' res. unfold Legacy.optimize.
  destruct (Legacy.searchAfter _ _ _ _ _ _ _) as [s|] eqn:E; [|discriminate].
  intros H. injection H as _ <-. apply (A _ _ E).
Qed.

Lemma legacy_entries_nonNegative_witness :
  exists out,
    Legacy.optimize (constructor [[0]]) [sampleObservation CROWN] 3 0.5 None
      alwaysDown = Some out /\
    nonNegative (Result.matrix (snd out)) = true.
Proof.
  destruct (legacy_entries_nonNegative (constructor [[0]])
              [sampleObservation CROWN] 3 0.5 None alwaysDown eq_refl)
    as [_ A].
  destruct (Legacy.optimize (constructor [[0]]) [sampleObservation CROWN] 3
              0.5 None alwaysDown) as [[this1 res1]|] eqn:E;
    [|vm_compute in E; discriminate E].
  exists (this1, res1). split; [reflexivity | apply (A this1 res1 eq_refl)].
Defined.

(** ** SolverData *)

Lemma identEq_eq (a b : Ident) : SolverData.identEq a b = true <-> a = b.
Proof.
  destruct a as [| |i], b as [| |j]; simpl; split; intros H;
    try reflexivity; try discriminate H.
  - apply Z.eqb_eq in H. rewrite H. reflexivity.
  - injection H as ->. apply Z.eqb_refl.
Qed.

(** The key of [o] is the key of [data]. *)
Lemma sameKey_iff (data o : Obs.t) :
  SolverData.sameKey data o = true <->
  Obs.childId o = Obs.childId data /\ Obs.f o = Obs.f data /\
  Obs.ff o = Obs.ff data /\ Obs.fm o = Obs.fm data /\
  Obs.m o = Obs.m data /\ Obs.mf o = Obs.mf data /\
  Obs.mm o = Obs.mm data /\
  Obs.s3 o == Obs.s3 data /\ Obs.s2 o == Obs.s2 data.
Proof.
  unfold SolverData.sameKey.
  rewrite !andb_true_iff, !identEq_eq, !Qeq_bool_iff. tauto.
Qed.

Lemma sameKey_refl (o : Obs.t) : SolverData.sameKey o o = true.
Proof.
  apply sameKey_iff. repeat split; reflexivity.
Qed.

Lemma sameKey_sym (a b : Obs.t) :
  SolverData.sameKey a b = true -> SolverData.sameKey b a = true.
Proof.
  rewrite !sameKey_iff. intros (H1 & H2 & H3 & H4 & H5 & H6 & H7 & H8 & H9).
  repeat split; try (symmetry; assumption).
Qed.

Lemma sameKey_trans (a b c : Obs.t) :
  SolverData.sameKey a b = true -> SolverData.sameKey b c = true ->
  SolverData.sameKey a c = true.
Proof.
  rewrite !sameKey_iff.
  intros (H1 & H2 & H3 & H4 & H5 & H6 & H7 & H8 & H9)
         (K1 & K2 & K3 & K4 & K5 & K6 & K7 & K8 & K9).
  repeat split; try congruence.
  - rewrite K8. exact H8.
  - rewrite K9. exact H9.
Qed.

(** [findIndex] gives -1 when nothing passes the test, and otherwise the
    index of the first element that passes. *)
Lemma findIndex_cases {A : Type} (p : A -> bool) (l : list A) :
  (SolverData.findIndex p l = (-1)%Z /\ forall x, In x l -> p x = false) \/
  (exists n x,
     SolverData.findIndex p l = Z.of_nat n /\
     nth_error l n = Some x /\ p x = true /\
     forall j y, (j < n)%nat -> nth_error l j = Some y -> p y = false).
Proof.
  induction l as [|a l IH]; simpl.
  - left. split; [reflexivity | intros x []].
  - destruct (p a) eqn:Pa.
    + right. exists 0%nat, a. repeat split; auto. intros j y Hj. lia.
    + destruct IH as [[E N]|(n & x & E & Hn & Px & Hb)]; rewrite E.
      * left. split; [reflexivity|].
        intros x [<-|Hx]; [exact Pa | apply N; exact Hx].
      * right. exists (S n), x.
        replace (Z.of_nat n =? -1)%Z with false
          by (symmetry; apply Z.eqb_neq; lia).
        split; [lia|]. split; [exact Hn|]. split; [exact Px|].
        intros [|j] y Hj Hy; simpl in Hy.
        -- injection Hy as <-. exact Pa.
        -- apply (Hb j y); [lia | exact Hy].
Qed.

(** What [addObservation] does to the list. *)
Lemma addObservation_cases (data : Obs.t) (this : SolverData.t) :
  let l := SolverData.observations this in
  let l' := SolverData.observations (fst (SolverData.addObservation data this)) in
  (l' = l ++ [data] /\
   forall x, In x l -> SolverData.sameKey data x = false) \/
  (exists n x,
     l' = updateNth n (fun _ => data) l /\
     nth_error l n = Some x /\ SolverData.sameKey data x = true /\
     forall j y, (j < n)%nat -> nth_error l j = Some y ->
       SolverData.sameKey data y = false).
Proof.
  cbv zeta. unfold SolverData.addObservation. cbn [fst].
  destruct (findIndex_cases (SolverData.sameKey data)
              (SolverData.observations this))
    as [[E N]|(n & x & E & Hn & Px & Hb)]; rewrite E.
  - left. split; [reflexivity | exact N].
  - right. exists n, x.
    replace (Z.of_nat n =? -1)%Z with false
      by (symmetry; apply Z.eqb_neq; lia).
    cbn [negb SolverData.observations]. rewrite Nat2Z.id. auto.
Qed.

Lemma find_first {A : Type} (p : A -> bool) (l : list A) (n : nat) (x : A) :
  nth_error l n = Some x -> p x = true ->
  (forall j y, (j < n)%nat -> nth_error l j = Some y -> p y = false) ->
  find p l = Some x /\ SolverData.findIndex p l = Z.of_nat n.
Proof.
  revert n. induction l as [|a l IH]; intros [|n] Hn Px Hb; simpl in *;
    try discriminate Hn.
  - injection Hn as ->. rewrite Px. split; reflexivity.
  - rewrite (Hb 0%nat a) by (try lia; reflexivity).
    destruct (IH n Hn Px) as [F I].
    + intros j y Hj Hy. apply (Hb (S j) y); [lia | exact Hy].
    + rewrite F, I.
      replace (Z.of_nat n =? -1)%Z with false
        by (symmetry; apply Z.eqb_neq; lia).
      split; [reflexivity | lia].
Qed.

Lemma filter_updateNth {A : Type} (q : A -> bool) (g : A -> A) (l : list A)
    (n : nat) (x : A) :
  nth_error l n = Some x -> q x = false -> q (g x) = false ->
  filter q (updateNth n g l) = filter q l.
Proof.
  revert n. induction l as [|a l IH]; intros [|n] Hn Hx Hg; simpl in *;
    try discriminate Hn.
  - injection Hn as ->. rewrite Hx, Hg. reflexivity.
  - rewrite (IH n Hn Hx Hg). reflexivity.
Qed.

(** X24.  After [addObservation(data)] the first entry with the key of [data]
    is [data]; the entries with other keys are the ones there were, in their
    order; and the list has grown by one entry when no entry had the key and
    kept its length otherwise. *)
Theorem addObservation_upsert (data : Obs.t) (this : SolverData.t) :
  let l := SolverData.observations this in
  let l' := SolverData.getObservations
              (fst (SolverData.addObservation data this)) in
  find (SolverData.sameKey data) l' = Some data /\
  filter (fun o => negb (SolverData.sameKey data o)) l'
  = filter (fun o => negb (SolverData.sameKey data o)) l /\
  length l'
  = if existsb (SolverData.sameKey data) l then length l else S (length l).
Proof.
  cbv zeta. unfold SolverData.getObservations.
  destruct (addObservation_cases data this)
    as [[-> N]|(n & x & -> & Hn & Px & Hb)].
  - assert (X : existsb (SolverData.sameKey data)
                  (SolverData.observations this) = false).
    { apply not_true_is_false. intros H. apply existsb_exists in H.
      destruct H as (x & Hx & Px). rewrite (N x Hx) in Px. discriminate Px. }
    rewrite X. split; [|split].
    + apply (find_first _ _ (length (SolverData.observations this))).
      * rewrite nth_error_app2, Nat.sub_diag by lia. reflexivity.
      * apply sameKey_refl.
      * intros j y Hj Hy. rewrite nth_error_app1 in Hy by exact Hj.
        apply N. apply (nth_error_In _ _ Hy).
    + rewrite filter_app. cbn [filter]. rewrite sameKey_refl. cbn [negb].
      apply app_nil_r.
    + rewrite length_app. simpl. lia.
  - assert (X : existsb (SolverData.sameKey data)
                  (SolverData.observations this) = true).
    { apply existsb_exists. exists x. split; [|exact Px].
      apply (nth_error_In _ _ Hn). }
    rewrite X. split; [|split].
    + apply (find_first _ _ n).
      * rewrite nth_error_updateNth_eq, Hn. reflexivity.
      * apply sameKey_refl.
      * intros j y Hj Hy.
        rewrite nth_error_updateNth_neq in Hy by lia. apply (Hb j y Hj Hy).
    + apply (filter_updateNth _ _ _ n x Hn).
      * rewrite Px. reflexivity.
      * rewrite sameKey_refl. reflexivity.
    + apply updateNth_length.
Qed.

(** X25.  [addObservation] keeps the keys unique: if no two entries of the
    list have the same key, none have after the call. *)
Theorem addObservation_uniqueKeys (data : Obs.t) (this : SolverData.t) :
  uniqueKeys (SolverData.observations this) ->
  uniqueKeys (SolverData.observations
                (fst (SolverData.addObservation data this))).
Proof.
  intros U.
  destruct (addObservation_cases data this)
    as [[-> N]|(n & x & -> & Hn & Px & Hb)].
  - set (l := SolverData.observations this) in *.
    assert (D : forall i o, nth_error (l ++ [data]) i = Some o ->
              ((i < length l)%nat /\ nth_error l i = Some o) \/
              (i = length l /\ o = data)).
    { intros i o H. destruct (Nat.lt_ge_cases i (length l)) as [L|G].
      - left. rewrite nth_error_app1 in H by exact L. auto.
      - right. rewrite nth_error_app2 in H by exact G.
        destruct (i - length l)%nat as [|d] eqn:Ed; simpl in H.
        + injection H as <-. split; [lia | reflexivity].
        + destruct d; discriminate H. }
    intros i j oi oj Hi Hj K.
    destruct (D i oi Hi) as [[Li Ei]|[-> ->]];
      destruct (D j oj Hj) as [[Lj Ej]|[-> ->]].
    + apply (U i j oi oj Ei Ej K).
    + apply sameKey_sym in K. rewrite (N oi (nth_error_In _ _ Ei)) in K.
      discriminate K.
    + rewrite (N oj (nth_error_In _ _ Ej)) in K. discriminate K.
    + reflexivity.
  - set (l := SolverData.observations this) in *.
    assert (D : forall i o,
              nth_error (updateNth n (fun _ => data) l) i = Some o ->
              (i = n /\ o = data) \/ (i <> n /\ nth_error l i = Some o)).
    { intros i o H. destruct (Nat.eq_dec i n) as [->|Ne].
      - left. rewrite nth_error_updateNth_eq, Hn in H. injection H as <-.
        auto.
      - right. rewrite nth_error_updateNth_neq in H by auto. auto. }
    intros i j oi oj Hi Hj K.
    destruct (D i oi Hi) as [[-> ->]|[Ni Ei]];
      destruct (D j oj Hj) as [[-> ->]|[Nj Ej]].
    + reflexivity.
    + exfalso. apply Nj. symmetry. apply (U n j x oj Hn Ej).
      apply (sameKey_trans x data oj); [apply sameKey_sym; exact Px | exact K].
    + exfalso. apply Ni. apply (U i n oi x Ei Hn).
      apply (sameKey_trans oi data x); [exact K | exact Px].
    + apply (U i j oi oj Ei Ej K).
Qed.

Lemma addObservation_uniqueKeys_witness :
  uniqueKeys (SolverData.observations
                (fst (SolverData.addObservation (sampleObservation CROWN)
                        (SolverData.mk [sampleObservation CROSS])))).
Proof.
  apply (addObservation_uniqueKeys (sampleObservation CROWN)
           (SolverData.mk [sampleObservation CROSS])).
  intros [|i] [|j] oi oj Hi Hj _; simpl in Hi, Hj;
    try reflexivity;
    try (destruct i; discriminate Hi); try (destruct j; discriminate Hj).
Defined.

(** X26.  Adding the same observation twice is adding it once: the second
    call finds the entry of the first and writes the same record over it. *)
Theorem addObservation_idempotent (data : Obs.t) (this : SolverData.t) :
  SolverData.addObservation data (fst (SolverData.addObservation data this))
  = SolverData.addObservation data this.
Proof.
  set (this1 := fst (SolverData.addObservation data this)).
  assert (F : exists n,
            nth_error (SolverData.observations this1) n = Some data /\
            SolverData.findIndex (SolverData.sameKey data)
              (SolverData.observations this1) = Z.of_nat n).
  { unfold this1.
    destruct (addObservation_cases data this)
      as [[-> N]|(n & x & -> & Hn & Px & Hb)].
    - exists (length (SolverData.observations this)).
      assert (E : nth_error (SolverData.observations this ++ [data])
                    (length (SolverData.observations this)) = Some data)
        by (rewrite nth_error_app2, Nat.sub_diag by lia; reflexivity).
      split; [exact E|].
      apply (find_first _ _ _ data E (sameKey_refl data)).
      intros j y Hj Hy. rewrite nth_error_app1 in Hy by exact Hj.
      apply N. apply (nth_error_In _ _ Hy).
    - exists n.
      assert (E : nth_error (updateNth n (fun _ => data)
                               (SolverData.observations this)) n = Some data)
        by (rewrite nth_error_updateNth_eq, Hn; reflexivity).
      split; [exact E|].
      apply (find_first _ _ _ data E (sameKey_refl data)).
      intros j y Hj Hy.
      rewrite nth_error_updateNth_neq in Hy by lia. apply (Hb j y Hj Hy). }
  destruct F as (n & En & Ei).
  assert (E1 : SolverData.addObservation data this1
               = (this1, SolverData.saveToStorage this1)).
  { unfold SolverData.addObservation at 1. rewrite Ei.
    replace (Z.of_nat n =? -1)%Z with false
      by (symmetry; apply Z.eqb_neq; lia).
    cbn [negb]. rewrite Nat2Z.id.
    rewrite updateNth_fixed
      by (intros y Hy; rewrite En in Hy; injection Hy as <-; reflexivity).
    destruct this1. reflexivity. }
  rewrite E1. unfold this1, SolverData.addObservation. reflexivity.
Qed.

